(** * agent-browser (veb): wire protocol, command dispatcher and CLI front end

    A shallow embedding of [src/protocol.ts], [src/types.ts], the command
    dispatcher ([executeCommand] and its handlers) and the command-building
    part of the CLI entry point, together with the properties the
    specification states about them.

    Layout: the data model and the operations come first (JavaScript values,
    the schema validator, the command types, the dispatcher, the CLI), the
    lemmas and theorems follow. *)

From Stdlib Require Import String Ascii List Bool Arith ZArith QArith Lia.
From Stdlib Require Import DecimalString.
Import ListNotations.
Local Open Scope list_scope.
Local Open Scope string_scope.

Set Implicit Arguments.

(* ===================================================================== *)
(** * JavaScript values *)
(* ===================================================================== *)

(** A JavaScript [number].  Finite doubles are rationals, so they are embedded
    in [Q]; the only operations the program applies to numbers (comparison
    with a constant, unary minus, truthiness) are exact on doubles and agree
    with their rational counterparts.  Signed zero is not distinguished. *)
Inductive number : Type :=
| NaN
| Finite (q : Q)
| PosInfinity
| NegInfinity.

(** Plain data values: what [JSON.parse] can produce, plus [undefined], [NaN]
    and the infinities, which object literals built by callers may hold.  An
    object is its list of own properties in insertion order. *)
#[warnings="-register-all"]
Inductive value : Type :=
| Undefined
| Null
| Bool (b : bool)
| Num (n : number)
| Str (s : string)
| Arr (elems : list value)
| Obj (props : list (string * value)).

Definition isFinite (n : number) : bool :=
  match n with Finite _ => true | _ => false end.

(** [-n] *)
Definition neg (n : number) : number :=
  match n with
  | NaN => NaN
  | Finite q => Finite (- q)
  | PosInfinity => NegInfinity
  | NegInfinity => PosInfinity
  end.

(** [a < b] and [a <= b] on numbers; every comparison with [NaN] is false. *)
Definition num_lt (a b : number) : bool :=
  match a, b with
  | NaN, _ | _, NaN => false
  | Finite x, Finite y => negb (Qle_bool y x)
  | Finite _, PosInfinity => true
  | Finite _, NegInfinity => false
  | PosInfinity, _ => false
  | NegInfinity, NegInfinity => false
  | NegInfinity, _ => true
  end.

Definition num_le (a b : number) : bool :=
  match a, b with
  | NaN, _ | _, NaN => false
  | Finite x, Finite y => Qle_bool x y
  | Finite _, PosInfinity => true
  | Finite _, NegInfinity => false
  | PosInfinity, PosInfinity => true
  | PosInfinity, _ => false
  | NegInfinity, _ => true
  end.

(** Truthiness, as used by [if (x)] and [x || y]. *)
Definition truthy_number (n : number) : bool :=
  match n with
  | NaN => false
  | Finite q => negb (Qeq_bool q 0)
  | PosInfinity | NegInfinity => true
  end.

Definition truthy_string (s : string) : bool :=
  match s with EmptyString => false | _ => true end.

Definition truthy (v : value) : bool :=
  match v with
  | Undefined | Null => false
  | Bool b => b
  | Num n => truthy_number n
  | Str s => truthy_string s
  | Arr _ | Obj _ => true
  end.

(** [a ?? b] on an optional field: only [undefined] falls through. *)
Definition nullish {A} (a : option A) (b : A) : A :=
  match a with Some x => x | None => b end.

(** Own-property lookup [o[k]]; [None] is an absent key. *)
Fixpoint get_prop (k : string) (props : list (string * value)) : option value :=
  match props with
  | [] => None
  | (k', v) :: rest => if String.eqb k k' then Some v else get_prop k rest
  end.

(** [o[k]] as an expression: absent keys read as [undefined]. *)
Definition read_prop (k : string) (props : list (string * value)) : value :=
  match get_prop k props with Some v => v | None => Undefined end.

(** [k in o] *)
Definition has_prop (k : string) (props : list (string * value)) : bool :=
  match get_prop k props with Some _ => true | None => false end.

(** [Array.prototype.join] on strings. *)
Fixpoint join (sep : string) (l : list string) : string :=
  match l with
  | [] => ""
  | [x] => x
  | x :: rest => x ++ sep ++ join sep rest
  end.

(** Decimal text of a natural number (array indices in issue paths, string
    length bounds in messages). *)
Definition nat_to_string (n : nat) : string :=
  NilEmpty.string_of_uint (Nat.to_uint n).

(** A thrown value: an [Error] with its message, or anything else. *)
Inductive Thrown : Type :=
| ThrownError (message : string)
| ThrownValue (v : value).

Inductive Outcome (A : Type) : Type :=
| Returned (a : A)
| Threw (e : Thrown).
Arguments Returned {A} a.
Arguments Threw {A} e.

(** The built-ins of the JavaScript runtime the program calls.  They are not
    part of the repository; the development is parametric in them.
    [JSON_parse] returns [None] where [JSON.parse] throws a [SyntaxError]. *)
Class JSRuntime : Type := {
  JSON_parse : string -> option value;
  JSON_stringify : value -> string;
  Number_toString : number -> string;
  (* [parseInt(s, 10)]: a double, the nearest to what the leading digits
     spell, [Infinity] beyond the doubles, [NaN] where there is no digit *)
  Number_parseInt : string -> number;
  (* the message of the [TypeError] that [String(v)] throws for a [v] it
     cannot convert *)
  cannot_convert : string
}.

(** What [JSON.stringify] keeps of a value (ECMA-262, SerializeJSONProperty):
    non-finite numbers become [null], [undefined] becomes [null] inside an
    array and drops the property inside an object. *)
Fixpoint jsonify (v : value) : value :=
  match v with
  | Undefined => Undefined
  | Null => Null
  | Bool b => Bool b
  | Num n => if isFinite n then Num n else Null
  | Str s => Str s
  | Arr elems =>
      Arr (map (fun e => match jsonify e with Undefined => Null | e' => e' end) elems)
  | Obj props =>
      Obj ((fix props_json (ps : list (string * value)) : list (string * value) :=
              match ps with
              | [] => []
              | (k, x) :: rest =>
                  match jsonify x with
                  | Undefined => props_json rest
                  | x' => (k, x') :: props_json rest
                  end
              end) props)
  end.

(** All of them, or none. *)
Fixpoint all_some {A} (l : list (option A)) : option (list A) :=
  match l with
  | [] => Some []
  | Some a :: rest =>
      match all_some rest with
      | Some rest' => Some (a :: rest')
      | None => None
      end
  | None :: _ => None
  end.

Section WithRuntime.
Context {rt : JSRuntime}.

(** [String(v)], and the conversion inside a template literal.  [None]
    stands for the [TypeError] it throws: an object with a property
    [toString] of its own (never a function here) has nothing to be converted
    with, and an array converts its elements. *)
Fixpoint String_ (v : value) : option string :=
  match v with
  | Undefined => Some "undefined"
  | Null => Some "null"
  | Bool true => Some "true"
  | Bool false => Some "false"
  | Num n => Some (Number_toString n)
  | Str s => Some s
  | Arr elems =>
      option_map (join ",")
        (all_some (map (fun e => match e with
                                 | Undefined | Null => Some ""
                                 | _ => String_ e
                                 end) elems))
  | Obj props => if has_prop "toString" props then None else Some "[object Object]"
  end.

(** [String(v)] as an expression that returns or throws. *)
Definition toString (v : value) : Outcome string :=
  match String_ v with
  | Some text => Returned text
  | None => Threw (ThrownError cannot_convert)
  end.

(* ===================================================================== *)
(** * The schema validator (zod 3), as far as [protocol.ts] uses it *)
(* ===================================================================== *)

(** The validator is a library the repository imports, in its version 3
    (the source reads [result.error.errors]).  Its types are
    embedded as data, so that the schemas of [protocol.ts] can be written
    down the way the source writes them, and [zparse] follows the library's
    [_parse] methods: every check that fails pushes an issue carrying the path
    of the offending value. *)

Inductive NumberCheck : Type :=
| CheckMin (bound : Q) (inclusive : bool)
| CheckMax (bound : Q) (inclusive : bool).

#[warnings="-register-all"]
Inductive ZodType : Type :=
| ZString (minLength : option nat)
    (* the only bound in use is 1: a string is long enough when it is not
       empty, however its length is counted *)
| ZNumber (checks : list NumberCheck)
| ZBoolean
| ZUnknown
| ZLiteral (lit : string)
| ZEnum (values : list string)
| ZArray (element : ZodType)
| ZOptional (inner : ZodType)
| ZUnion (options : list ZodType)
| ZObject (shape : list (string * ZodType))
| ZDiscriminatedUnion (discriminator : string) (options : list ZodType).

(** The builders of the library's fluent interface. *)
Definition z_string : ZodType := ZString None.
Definition z_string_min (n : nat) : ZodType := ZString (Some n).
Definition z_number : ZodType := ZNumber [].
Definition z_boolean : ZodType := ZBoolean.
Definition z_unknown : ZodType := ZUnknown.
Definition z_literal (s : string) : ZodType := ZLiteral s.
Definition z_enum (vs : list string) : ZodType := ZEnum vs.
Definition z_array (t : ZodType) : ZodType := ZArray t.
Definition z_union (ts : list ZodType) : ZodType := ZUnion ts.
Definition z_object (shape : list (string * ZodType)) : ZodType := ZObject shape.
Definition z_discriminatedUnion (d : string) (ts : list ZodType) : ZodType :=
  ZDiscriminatedUnion d ts.

Definition add_check (c : NumberCheck) (t : ZodType) : ZodType :=
  match t with
  | ZNumber cs => ZNumber (cs ++ [c])%list
  | other => other
  end.

Definition positive (t : ZodType) : ZodType := add_check (CheckMin 0 false) t.
Definition nonnegative (t : ZodType) : ZodType := add_check (CheckMin 0 true) t.
Definition z_min (q : Q) (t : ZodType) : ZodType := add_check (CheckMin q true) t.
Definition z_max (q : Q) (t : ZodType) : ZodType := add_check (CheckMax q true) t.
Definition optional (t : ZodType) : ZodType := ZOptional t.

(** [{...base, ...ext}]: a key of [base] keeps its place and takes the new
    value, the other keys of [ext] are appended in order. *)
Fixpoint set_key {A} (k : string) (a : A) (l : list (string * A)) : list (string * A) :=
  match l with
  | [] => [(k, a)]
  | (k', a') :: rest =>
      if String.eqb k k' then (k, a) :: rest else (k', a') :: set_key k a rest
  end.

Definition spread {A} (base ext : list (string * A)) : list (string * A) :=
  fold_left (fun acc kv => set_key (fst kv) (snd kv) acc) ext base.

(** [schema.extend({...})] *)
Definition extend (t : ZodType) (ext : list (string * ZodType)) : ZodType :=
  match t with
  | ZObject shape => ZObject (spread shape ext)
  | other => other
  end.

Inductive PathElem : Type :=
| Key (k : string)
| Index (i : nat).

Inductive IssueCode : Type :=
| invalid_type
| invalid_literal
| invalid_union
| invalid_union_discriminator
| invalid_enum_value
| too_small
| too_big.

Record ZodIssue : Type := mkIssue {
  code : IssueCode;
  path : list PathElem;
  message : string
}.

Inductive ParsedType : Type :=
| t_undefined | t_null | t_boolean | t_number | t_nan | t_string | t_array | t_object.

Definition getParsedType (v : value) : ParsedType :=
  match v with
  | Undefined => t_undefined
  | Null => t_null
  | Bool _ => t_boolean
  | Num NaN => t_nan
  | Num _ => t_number
  | Str _ => t_string
  | Arr _ => t_array
  | Obj _ => t_object
  end.

Definition parsedType_name (t : ParsedType) : string :=
  match t with
  | t_undefined => "undefined"
  | t_null => "null"
  | t_boolean => "boolean"
  | t_number => "number"
  | t_nan => "nan"
  | t_string => "string"
  | t_array => "array"
  | t_object => "object"
  end.

(** [util.joinValues] on strings: ['a' | 'b'] *)
Definition joinValues (vs : list string) : string :=
  join " | " (map (fun v => "'" ++ v ++ "'") vs).

(** The default error map: the message of an [invalid_type] issue. *)
Definition invalid_type_issue (p : list PathElem) (expected : string) (v : value) : ZodIssue :=
  mkIssue invalid_type p
    (match v with
     | Undefined => "Required"
     | _ => "Expected " ++ expected ++ ", received " ++ parsedType_name (getParsedType v)
     end).

Inductive ParseStatus : Type := valid | dirty | aborted.

(** The outcome of [_parse]: a status, the output value (meaningless when
    the status is [aborted]) and the issues pushed on the context. *)
Record ParseReturn : Type := mkReturn {
  status : ParseStatus;
  output : value;
  issues : list ZodIssue
}.

Definition OK (v : value) : ParseReturn := mkReturn valid v [].
Definition INVALID (errs : list ZodIssue) : ParseReturn := mkReturn aborted Undefined errs.

Definition merge_status (a b : ParseStatus) : ParseStatus :=
  match a, b with
  | aborted, _ | _, aborted => aborted
  | dirty, _ | _, dirty => dirty
  | valid, valid => valid
  end.

Definition number_check_issue (p : list PathElem) (n : number) (c : NumberCheck)
  : list ZodIssue :=
  match c with
  | CheckMin b inclusive =>
      let tooSmall := if inclusive then num_lt n (Finite b) else num_le n (Finite b) in
      if tooSmall
      then [mkIssue too_small p
              ("Number must be "
               ++ (if inclusive then "greater than or equal to " else "greater than ")
               ++ Number_toString (Finite b))]
      else []
  | CheckMax b inclusive =>
      let tooBig := if inclusive then num_lt (Finite b) n else num_le (Finite b) n in
      if tooBig
      then [mkIssue too_big p
              ("Number must be "
               ++ (if inclusive then "less than or equal to" else "less than")
               ++ " " ++ Number_toString (Finite b))]
      else []
  end.

(** The literal a member of a discriminated union declares for the
    discriminator key. *)
Definition discriminator_of (d : string) (t : ZodType) : option string :=
  match t with
  | ZObject shape =>
      match find (fun kv => String.eqb d (fst kv)) shape with
      | Some (_, ZLiteral s) => Some s
      | _ => None
      end
  | _ => None
  end.

Definition option_keys (d : string) (ts : list ZodType) : list string :=
  flat_map (fun t => match discriminator_of d t with Some s => [s] | None => [] end) ts.

(** [ParseStatus.mergeArray]: the issues of all elements are kept (they were
    pushed on the shared context); one aborted element aborts the array. *)
Definition mergeArray (results : list ParseReturn) : ParseReturn :=
  let st := fold_left merge_status (map status results) valid in
  mkReturn st
    (match st with aborted => Undefined | _ => Arr (map output results) end)
    (flat_map issues results).

(** [ParseStatus.mergeObjectSync] on the pairs (key, result, alwaysSet): a key
    is written when its value is not [undefined] or the key is in the input. *)
Definition mergeObjectSync (pairs : list (string * ParseReturn * bool)) : ParseReturn :=
  let st := fold_left merge_status (map (fun kr => status (snd (fst kr))) pairs) valid in
  mkReturn st
    (match st with
     | aborted => Undefined
     | _ =>
         Obj (flat_map
                (fun kr =>
                   match kr with
                   | (k, r, alwaysSet) =>
                       match output r, alwaysSet with
                       | Undefined, false => []
                       | v, _ => if String.eqb k "__proto__" then [] else [(k, v)]
                       end
                   end) pairs)
     end)
    (flat_map (fun kr => issues (snd (fst kr))) pairs).

(** [ZodUnion._parse]: the first valid option wins; failing that the first
    dirty one, with its own issues; failing that a single [invalid_union]
    issue at the union's path (the options' issues stay inside it). *)
Definition union_result (p : list PathElem) (results : list ParseReturn) : ParseReturn :=
  match find (fun r => match status r with valid => true | _ => false end) results with
  | Some r => OK (output r)
  | None =>
      match find (fun r => match status r with dirty => true | _ => false end) results with
      | Some r => r
      | None => INVALID [mkIssue invalid_union p "Invalid input"]
      end
  end.

(** The elements of an array with their indices. *)
Definition indexed {A} (l : list A) : list (nat * A) :=
  combine (seq 0 (length l)) l.

(** [optionsMap.get(discriminatorValue)] on the options paired with their
    results: the option whose literal is the discriminator's value. *)
Definition pick_option {A} (dv : value) (candidates : list (option string * A))
  : option A :=
  match dv with
  | Str s =>
      match find (fun c => match fst c with
                           | Some lit => String.eqb s lit
                           | None => false
                           end) candidates with
      | Some c => Some (snd c)
      | None => None
      end
  | _ => None
  end.

Fixpoint zparse (t : ZodType) (p : list PathElem) (data : value) {struct t} : ParseReturn :=
  match t with
  | ZString minLength =>
      match data with
      | Str s =>
          match minLength with
          | Some n =>
              if Nat.ltb (String.length s) n
              then mkReturn dirty data
                     [mkIssue too_small p
                        ("String must contain at least " ++ nat_to_string n ++ " character(s)")]
              else OK data
          | None => OK data
          end
      | _ => INVALID [invalid_type_issue p "string" data]
      end
  | ZNumber checks =>
      match data with
      | Num NaN => INVALID [invalid_type_issue p "number" data]
      | Num n =>
          match flat_map (number_check_issue p n) checks with
          | [] => OK data
          | errs => mkReturn dirty data errs
          end
      | _ => INVALID [invalid_type_issue p "number" data]
      end
  | ZBoolean =>
      match data with
      | Bool _ => OK data
      | _ => INVALID [invalid_type_issue p "boolean" data]
      end
  | ZUnknown => OK data
  | ZLiteral lit =>
      let bad := INVALID [mkIssue invalid_literal p
                            ("Invalid literal value, expected " ++ JSON_stringify (Str lit))] in
      match data with
      | Str s => if String.eqb s lit then OK data else bad
      | _ => bad
      end
  | ZEnum values =>
      match data with
      | Str s =>
          if existsb (String.eqb s) values then OK data
          else INVALID [mkIssue invalid_enum_value p
                          ("Invalid enum value. Expected " ++ joinValues values
                           ++ ", received '" ++ s ++ "'")]
      | _ => INVALID [invalid_type_issue p (joinValues values) data]
      end
  | ZArray element =>
      match data with
      | Arr elems =>
          mergeArray
            (map (fun ie => zparse element (p ++ [Index (fst ie)])%list (snd ie))
                 (indexed elems))
      | _ => INVALID [invalid_type_issue p "array" data]
      end
  | ZOptional inner =>
      match data with
      | Undefined => OK Undefined
      | _ => zparse inner p data
      end
  | ZUnion options =>
      union_result p (map (fun t' => zparse t' p data) options)
  | ZObject shape =>
      match data with
      | Obj props =>
          mergeObjectSync
            (map (fun kt =>
                    (fst kt,
                     zparse (snd kt) (p ++ [Key (fst kt)])%list (read_prop (fst kt) props),
                     has_prop (fst kt) props))
                 shape)
      | _ => INVALID [invalid_type_issue p "object" data]
      end
  | ZDiscriminatedUnion d options =>
      match data with
      | Obj props =>
          match pick_option (read_prop d props)
                  (map (fun t' => (discriminator_of d t', zparse t' p data)) options)
          with
          | Some r => r
          | None =>
              INVALID [mkIssue invalid_union_discriminator (p ++ [Key d])%list
                         ("Invalid discriminator value. Expected "
                          ++ joinValues (option_keys d options))]
          end
      | _ => INVALID [invalid_type_issue p "object" data]
      end
  end.

(** [schema.safeParse(data)]: success exactly when the status is [valid]. *)
Inductive SafeParseReturn : Type :=
| SafeParseSuccess (data : value)
| SafeParseError (errors : list ZodIssue).

Definition safeParse (t : ZodType) (data : value) : SafeParseReturn :=
  let r := zparse t [] data in
  match status r with
  | valid => SafeParseSuccess (output r)
  | _ => SafeParseError (issues r)
  end.

(* ===================================================================== *)
(** * protocol.ts: the command schemas *)
(* ===================================================================== *)

Definition baseCommandSchema : ZodType :=
  z_object [("id", z_string); ("action", z_string)].

Definition launchSchema : ZodType :=
  extend baseCommandSchema
    [("action", z_literal "launch");
     ("headless", optional z_boolean);
     ("viewport",
      optional (z_object [("width", positive z_number);
                          ("height", positive z_number)]));
     ("browser", optional (z_enum ["chromium"; "firefox"; "webkit"]))].

Definition navigateSchema : ZodType :=
  extend baseCommandSchema
    [("action", z_literal "navigate");
     ("url", z_string_min 1);
     ("waitUntil", optional (z_enum ["load"; "domcontentloaded"; "networkidle"]))].

Definition clickSchema : ZodType :=
  extend baseCommandSchema
    [("action", z_literal "click");
     ("selector", z_string_min 1);
     ("button", optional (z_enum ["left"; "right"; "middle"]));
     ("clickCount", optional (positive z_number));
     ("delay", optional (nonnegative z_number))].

Definition typeSchema : ZodType :=
  extend baseCommandSchema
    [("action", z_literal "type");
     ("selector", z_string_min 1);
     ("text", z_string);
     ("delay", optional (nonnegative z_number));
     ("clear", optional z_boolean)].

Definition pressSchema : ZodType :=
  extend baseCommandSchema
    [("action", z_literal "press");
     ("key", z_string_min 1);
     ("selector", optional (z_string_min 1))].

Definition screenshotSchema : ZodType :=
  extend baseCommandSchema
    [("action", z_literal "screenshot");
     ("path", optional z_string);
     ("fullPage", optional z_boolean);
     ("selector", optional (z_string_min 1));
     ("format", optional (z_enum ["png"; "jpeg"]));
     ("quality", optional (z_max 100 (z_min 0 z_number)))].

Definition snapshotSchema : ZodType :=
  extend baseCommandSchema [("action", z_literal "snapshot")].

Definition evaluateSchema : ZodType :=
  extend baseCommandSchema
    [("action", z_literal "evaluate");
     ("script", z_string_min 1);
     ("args", optional (z_array z_unknown))].

Definition waitSchema : ZodType :=
  extend baseCommandSchema
    [("action", z_literal "wait");
     ("selector", optional (z_string_min 1));
     ("timeout", optional (positive z_number));
     ("state", optional (z_enum ["attached"; "detached"; "visible"; "hidden"]))].

Definition scrollSchema : ZodType :=
  extend baseCommandSchema
    [("action", z_literal "scroll");
     ("selector", optional (z_string_min 1));
     ("x", optional z_number);
     ("y", optional z_number);
     ("direction", optional (z_enum ["up"; "down"; "left"; "right"]));
     ("amount", optional (positive z_number))].

Definition selectSchema : ZodType :=
  extend baseCommandSchema
    [("action", z_literal "select");
     ("selector", z_string_min 1);
     ("values", z_union [z_string; z_array z_string])].

Definition hoverSchema : ZodType :=
  extend baseCommandSchema
    [("action", z_literal "hover");
     ("selector", z_string_min 1)].

Definition contentSchema : ZodType :=
  extend baseCommandSchema
    [("action", z_literal "content");
     ("selector", optional (z_string_min 1))].

Definition closeSchema : ZodType :=
  extend baseCommandSchema [("action", z_literal "close")].

Definition tabNewSchema : ZodType :=
  extend baseCommandSchema [("action", z_literal "tab_new")].

Definition tabListSchema : ZodType :=
  extend baseCommandSchema [("action", z_literal "tab_list")].

Definition tabSwitchSchema : ZodType :=
  extend baseCommandSchema
    [("action", z_literal "tab_switch");
     ("index", nonnegative z_number)].

Definition tabCloseSchema : ZodType :=
  extend baseCommandSchema
    [("action", z_literal "tab_close");
     ("index", optional (nonnegative z_number))].

Definition windowNewSchema : ZodType :=
  extend baseCommandSchema
    [("action", z_literal "window_new");
     ("viewport",
      optional (z_object [("width", positive z_number);
                          ("height", positive z_number)]))].

Definition commandSchemas : list ZodType :=
  [launchSchema; navigateSchema; clickSchema; typeSchema; pressSchema;
   screenshotSchema; snapshotSchema; evaluateSchema; waitSchema; scrollSchema;
   selectSchema; hoverSchema; contentSchema; closeSchema; tabNewSchema;
   tabListSchema; tabSwitchSchema; tabCloseSchema; windowNewSchema].

Definition commandSchema : ZodType :=
  z_discriminatedUnion "action" commandSchemas.

(* ===================================================================== *)
(** * protocol.ts: parsing commands, building responses *)
(* ===================================================================== *)

(** [ParseResult].  The command of a success is the validated object
    ([result.data as Command]: the cast does nothing at run time);
    [Command_toJS] below gives the object a typed command is. *)
Inductive ParseResult : Type :=
| ParseSuccess (command : value)
| ParseFailure (error : string) (id : option string).

Definition path_elem_string (e : PathElem) : string :=
  match e with
  | Key k => k
  | Index i => nat_to_string i
  end.

(** [`${e.path.join('.')}: ${e.message}`] *)
Definition format_issue (e : ZodIssue) : string :=
  join "." (map path_elem_string (path e)) ++ ": " ++ message e.

(** The [id] taken from the parsed input for error responses:
    [typeof json === 'object' && json !== null && 'id' in json
       ? String(json.id) : undefined].
    An array is an object too, and carries no [id] key. *)
Definition extract_id (json : value) : Outcome (option string) :=
  match json with
  | Obj props =>
      if has_prop "id" props
      then match toString (read_prop "id" props) with
           | Returned text => Returned (Some text)
           | Threw e => Threw e
           end
      else Returned None
  | _ => Returned None
  end.

(** Only [JSON.parse] stands inside the [try]: what [String(json.id)]
    throws leaves [parseCommand]. *)
Definition parseCommand (input : string) : Outcome ParseResult :=
  match JSON_parse input with
  | None => Returned (ParseFailure "Invalid JSON" None)
  | Some json =>
      match extract_id json with
      | Threw e => Threw e
      | Returned id =>
          match safeParse commandSchema json with
          | SafeParseError errs =>
              let errors := join ", " (map format_issue errs) in
              Returned (ParseFailure ("Validation error: " ++ errors) id)
          | SafeParseSuccess data => Returned (ParseSuccess data)
          end
      end
  end.

(** [successResponse] and [errorResponse] build the two shapes of
    [Response] declared in [types.ts]. *)
Inductive Response : Type :=
| SuccessResponse (id : string) (data : value)
| ErrorResponse (id : string) (error : string).

Definition successResponse (id : string) (data : value) : Response :=
  SuccessResponse id data.

Definition errorResponse (id : string) (error : string) : Response :=
  ErrorResponse id error.

Definition response_id (r : Response) : string :=
  match r with
  | SuccessResponse id _ => id
  | ErrorResponse id _ => id
  end.

Definition response_success (r : Response) : bool :=
  match r with
  | SuccessResponse _ _ => true
  | ErrorResponse _ _ => false
  end.

(** [serializeResponse] *)
Definition Response_toJS (r : Response) : value :=
  match r with
  | SuccessResponse id data =>
      Obj [("id", Str id); ("success", Bool true); ("data", data)]
  | ErrorResponse id error =>
      Obj [("id", Str id); ("success", Bool false); ("error", Str error)]
  end.

Definition serializeResponse (r : Response) : string :=
  JSON_stringify (Response_toJS r).

End WithRuntime.

(* ===================================================================== *)
(** * types.ts: the typed commands *)
(* ===================================================================== *)

Inductive BrowserName : Type := chromium | firefox | webkit.
Inductive WaitUntil : Type := wu_load | wu_domcontentloaded | wu_networkidle.
Inductive MouseButton : Type := btn_left | btn_right | btn_middle.
Inductive ImageFormat : Type := png | jpeg.
Inductive ElementState : Type := st_attached | st_detached | st_visible | st_hidden.
Inductive Direction : Type := dir_up | dir_down | dir_left | dir_right.

Record Viewport : Type := mkViewport { width : number; height : number }.

(** [string | string[]] *)
Inductive SelectValues : Type :=
| OneValue (v : string)
| ManyValues (vs : list string).

Record LaunchCommand : Type := mkLaunch {
  launch_id : string;
  launch_headless : option bool;
  launch_viewport : option Viewport;
  launch_browser : option BrowserName
}.

Record NavigateCommand : Type := mkNavigate {
  navigate_id : string;
  navigate_url : string;
  navigate_waitUntil : option WaitUntil
}.

Record ClickCommand : Type := mkClick {
  click_id : string;
  click_selector : string;
  click_button : option MouseButton;
  click_clickCount : option number;
  click_delay : option number
}.

Record TypeCommand : Type := mkType {
  type_id : string;
  type_selector : string;
  type_text : string;
  type_delay : option number;
  type_clear : option bool
}.

Record PressCommand : Type := mkPress {
  press_id : string;
  press_key : string;
  press_selector : option string
}.

Record ScreenshotCommand : Type := mkScreenshot {
  screenshot_id : string;
  screenshot_path : option string;
  screenshot_fullPage : option bool;
  screenshot_selector : option string;
  screenshot_format : option ImageFormat;
  screenshot_quality : option number
}.

Record EvaluateCommand : Type := mkEvaluate {
  evaluate_id : string;
  evaluate_script : string;
  evaluate_args : option (list value)
}.

Record WaitCommand : Type := mkWait {
  wait_id : string;
  wait_selector : option string;
  wait_timeout : option number;
  wait_state : option ElementState
}.

Record ScrollCommand : Type := mkScroll {
  scroll_id : string;
  scroll_selector : option string;
  scroll_x : option number;
  scroll_y : option number;
  scroll_direction : option Direction;
  scroll_amount : option number
}.

Record SelectCommand : Type := mkSelect {
  select_id : string;
  select_selector : string;
  select_values : SelectValues
}.

Record HoverCommand : Type := mkHover {
  hover_id : string;
  hover_selector : string
}.

Record ContentCommand : Type := mkContent {
  content_id : string;
  content_selector : option string
}.

Record TabSwitchCommand : Type := mkTabSwitch {
  tab_switch_id : string;
  tab_switch_index : number
}.

Record TabCloseCommand : Type := mkTabClose {
  tab_close_id : string;
  tab_close_index : option number
}.

Record WindowNewCommand : Type := mkWindowNew {
  window_new_id : string;
  window_new_viewport : option Viewport
}.

(** The commands that carry nothing but the envelope: [snapshot], [close],
    [tab_new], [tab_list]. *)
Record BareCommand : Type := mkBare { bare_id : string }.

(** [BaseCommand]: the envelope alone, with an arbitrary [action]. *)
Record BaseCommand : Type := mkBase { base_id : string; base_action : string }.

(** The union [Command].  [CmdOther] stands for a value that carries an action
    outside the union; the type system rules it out, the dispatcher's
    [default] branch handles it all the same. *)
Inductive Command : Type :=
| CmdLaunch (c : LaunchCommand)
| CmdNavigate (c : NavigateCommand)
| CmdClick (c : ClickCommand)
| CmdType (c : TypeCommand)
| CmdPress (c : PressCommand)
| CmdScreenshot (c : ScreenshotCommand)
| CmdSnapshot (c : BareCommand)
| CmdEvaluate (c : EvaluateCommand)
| CmdWait (c : WaitCommand)
| CmdScroll (c : ScrollCommand)
| CmdSelect (c : SelectCommand)
| CmdHover (c : HoverCommand)
| CmdContent (c : ContentCommand)
| CmdClose (c : BareCommand)
| CmdTabNew (c : BareCommand)
| CmdTabList (c : BareCommand)
| CmdTabSwitch (c : TabSwitchCommand)
| CmdTabClose (c : TabCloseCommand)
| CmdWindowNew (c : WindowNewCommand)
| CmdOther (c : BaseCommand).

(** [command.id] *)
Definition command_id (c : Command) : string :=
  match c with
  | CmdLaunch c => launch_id c
  | CmdNavigate c => navigate_id c
  | CmdClick c => click_id c
  | CmdType c => type_id c
  | CmdPress c => press_id c
  | CmdScreenshot c => screenshot_id c
  | CmdSnapshot c | CmdClose c | CmdTabNew c | CmdTabList c => bare_id c
  | CmdEvaluate c => evaluate_id c
  | CmdWait c => wait_id c
  | CmdScroll c => scroll_id c
  | CmdSelect c => select_id c
  | CmdHover c => hover_id c
  | CmdContent c => content_id c
  | CmdTabSwitch c => tab_switch_id c
  | CmdTabClose c => tab_close_id c
  | CmdWindowNew c => window_new_id c
  | CmdOther c => base_id c
  end.

(** [command.action] *)
Definition command_action (c : Command) : string :=
  match c with
  | CmdLaunch _ => "launch"
  | CmdNavigate _ => "navigate"
  | CmdClick _ => "click"
  | CmdType _ => "type"
  | CmdPress _ => "press"
  | CmdScreenshot _ => "screenshot"
  | CmdSnapshot _ => "snapshot"
  | CmdEvaluate _ => "evaluate"
  | CmdWait _ => "wait"
  | CmdScroll _ => "scroll"
  | CmdSelect _ => "select"
  | CmdHover _ => "hover"
  | CmdContent _ => "content"
  | CmdClose _ => "close"
  | CmdTabNew _ => "tab_new"
  | CmdTabList _ => "tab_list"
  | CmdTabSwitch _ => "tab_switch"
  | CmdTabClose _ => "tab_close"
  | CmdWindowNew _ => "window_new"
  | CmdOther c => base_action c
  end.

(** ** The JavaScript object a typed command is *)

Definition BrowserName_string (b : BrowserName) : string :=
  match b with chromium => "chromium" | firefox => "firefox" | webkit => "webkit" end.

Definition WaitUntil_string (w : WaitUntil) : string :=
  match w with
  | wu_load => "load"
  | wu_domcontentloaded => "domcontentloaded"
  | wu_networkidle => "networkidle"
  end.

Definition MouseButton_string (b : MouseButton) : string :=
  match b with btn_left => "left" | btn_right => "right" | btn_middle => "middle" end.

Definition ImageFormat_string (f : ImageFormat) : string :=
  match f with png => "png" | jpeg => "jpeg" end.

Definition ElementState_string (s : ElementState) : string :=
  match s with
  | st_attached => "attached"
  | st_detached => "detached"
  | st_visible => "visible"
  | st_hidden => "hidden"
  end.

Definition Direction_string (d : Direction) : string :=
  match d with
  | dir_up => "up" | dir_down => "down" | dir_left => "left" | dir_right => "right"
  end.

Definition Viewport_toJS (v : Viewport) : value :=
  Obj [("width", Num (width v)); ("height", Num (height v))].

Definition SelectValues_toJS (v : SelectValues) : value :=
  match v with
  | OneValue s => Str s
  | ManyValues l => Arr (map Str l)
  end.

(** An optional field: the key is there when the field is. *)
Definition field {A} (k : string) (f : A -> value) (o : option A) : list (string * value) :=
  match o with
  | Some a => [(k, f a)]
  | None => []
  end.

Definition envelope (id action : string) : list (string * value) :=
  [("id", Str id); ("action", Str action)].

Definition Command_props (c : Command) : list (string * value) :=
  (envelope (command_id c) (command_action c) ++
  match c with
  | CmdLaunch c =>
      field "headless" Bool (launch_headless c)
      ++ field "viewport" Viewport_toJS (launch_viewport c)
      ++ field "browser" (fun b => Str (BrowserName_string b)) (launch_browser c)
  | CmdNavigate c =>
      [("url", Str (navigate_url c))]
      ++ field "waitUntil" (fun w => Str (WaitUntil_string w)) (navigate_waitUntil c)
  | CmdClick c =>
      [("selector", Str (click_selector c))]
      ++ field "button" (fun b => Str (MouseButton_string b)) (click_button c)
      ++ field "clickCount" Num (click_clickCount c)
      ++ field "delay" Num (click_delay c)
  | CmdType c =>
      [("selector", Str (type_selector c)); ("text", Str (type_text c))]
      ++ field "delay" Num (type_delay c)
      ++ field "clear" Bool (type_clear c)
  | CmdPress c =>
      [("key", Str (press_key c))]
      ++ field "selector" Str (press_selector c)
  | CmdScreenshot c =>
      field "path" Str (screenshot_path c)
      ++ field "fullPage" Bool (screenshot_fullPage c)
      ++ field "selector" Str (screenshot_selector c)
      ++ field "format" (fun f => Str (ImageFormat_string f)) (screenshot_format c)
      ++ field "quality" Num (screenshot_quality c)
  | CmdEvaluate c =>
      [("script", Str (evaluate_script c))]
      ++ field "args" Arr (evaluate_args c)
  | CmdWait c =>
      field "selector" Str (wait_selector c)
      ++ field "timeout" Num (wait_timeout c)
      ++ field "state" (fun s => Str (ElementState_string s)) (wait_state c)
  | CmdScroll c =>
      field "selector" Str (scroll_selector c)
      ++ field "x" Num (scroll_x c)
      ++ field "y" Num (scroll_y c)
      ++ field "direction" (fun d => Str (Direction_string d)) (scroll_direction c)
      ++ field "amount" Num (scroll_amount c)
  | CmdSelect c =>
      [("selector", Str (select_selector c));
       ("values", SelectValues_toJS (select_values c))]
  | CmdHover c => [("selector", Str (hover_selector c))]
  | CmdContent c => field "selector" Str (content_selector c)
  | CmdTabSwitch c => [("index", Num (tab_switch_index c))]
  | CmdTabClose c => field "index" Num (tab_close_index c)
  | CmdWindowNew c => field "viewport" Viewport_toJS (window_new_viewport c)
  | CmdSnapshot _ | CmdClose _ | CmdTabNew _ | CmdTabList _ | CmdOther _ => []
  end)%list.

Definition Command_toJS (c : Command) : value := Obj (Command_props c).

(* ===================================================================== *)
(** * A reference runtime *)
(* ===================================================================== *)

(** An executable instance of [JSRuntime], used to run the model on concrete
    inputs and nowhere else: no property below depends on it.  It is a JSON
    reader and writer over [string], the decimal text of a number and
    [parseInt].  Numbers are read exactly, where an engine rounds to the
    nearest double; the number text is the one JavaScript prints for integers
    below 10^21 and for decimal fractions of at most 17 digits that need no
    exponent. *)
Module RefRuntime.

Definition digit_char (d : Z) : ascii := ascii_of_nat (48 + Z.to_nat d).

Fixpoint digits_of (fuel : nat) (z : Z) (acc : string) : string :=
  match fuel with
  | O => acc
  | S f =>
      let acc' := String (digit_char (z mod 10)) acc in
      if (z / 10 =? 0)%Z then acc' else digits_of f (z / 10) acc'
  end.

(** Decimal text of a non-negative integer. *)
Definition Z_to_string (z : Z) : string :=
  digits_of (S (Z.to_nat (Z.log2 z))) z "".

(** The digits of [r / d] after the decimal point, for [0 <= r < d]; it stops
    when the remainder vanishes or after [fuel] digits. *)
Fixpoint fraction_digits (fuel : nat) (r d : Z) : string :=
  match fuel with
  | O => ""
  | S f =>
      if (r =? 0)%Z then ""
      else String (digit_char (r * 10 / d)) (fraction_digits f ((r * 10) mod d) d)
  end.

Definition Q_to_string (q : Q) : string :=
  let q' := Qred q in
  let n := Qnum q' in
  let d := Zpos (Qden q') in
  let a := Z.abs n in
  let sign := if (n <? 0)%Z then "-" else "" in
  let frac := fraction_digits 17 (a mod d) d in
  sign ++ Z_to_string (a / d) ++ (match frac with EmptyString => "" | _ => "." ++ frac end).

Definition number_to_string (n : number) : string :=
  match n with
  | NaN => "NaN"
  | Finite q => Q_to_string q
  | PosInfinity => "Infinity"
  | NegInfinity => "-Infinity"
  end.

(** ** Writing JSON *)

Definition hex_char (n : nat) : ascii :=
  if Nat.ltb n 10 then ascii_of_nat (48 + n) else ascii_of_nat (87 + n).

Definition escape_char (c : ascii) : string :=
  let n := nat_of_ascii c in
  if Nat.eqb n 34 then String "\" (String c "")
  else if Nat.eqb n 92 then "\\"
  else if Nat.eqb n 8 then "\b"
  else if Nat.eqb n 12 then "\f"
  else if Nat.eqb n 10 then "\n"
  else if Nat.eqb n 13 then "\r"
  else if Nat.eqb n 9 then "\t"
  else if Nat.ltb n 32
       then "\u00" ++ String (hex_char (n / 16)) (String (hex_char (n mod 16)) "")
       else String c "".

Definition quote_char : ascii := ascii_of_nat 34.

Fixpoint escape (s : string) : string :=
  match s with
  | EmptyString => ""
  | String c rest => escape_char c ++ escape rest
  end.

Definition quoted (s : string) : string :=
  String quote_char (escape s ++ String quote_char "").

(** [JSON.stringify] on plain data; a top-level [undefined] has no text. *)
Fixpoint stringify (v : value) : string :=
  match v with
  | Undefined => ""
  | Null => "null"
  | Bool true => "true"
  | Bool false => "false"
  | Num n => if isFinite n then number_to_string n else "null"
  | Str s => quoted s
  | Arr elems =>
      "[" ++ join "," (map (fun e => match e with
                                     | Undefined => "null"
                                     | _ => stringify e
                                     end) elems) ++ "]"
  | Obj props =>
      "{" ++ join ","
               ((fix members (ps : list (string * value)) : list string :=
                   match ps with
                   | [] => []
                   | (k, Undefined) :: rest => members rest
                   | (k, x) :: rest => (quoted k ++ ":" ++ stringify x) :: members rest
                   end) props) ++ "}"
  end.

(** ** Reading JSON *)

Definition is_ws (c : ascii) : bool :=
  let n := nat_of_ascii c in
  Nat.eqb n 32 || Nat.eqb n 9 || Nat.eqb n 10 || Nat.eqb n 13.

Definition is_digit (c : ascii) : bool :=
  let n := nat_of_ascii c in Nat.leb 48 n && Nat.leb n 57.

Definition digit_value (c : ascii) : Z := Z.of_nat (nat_of_ascii c - 48).

Fixpoint skip_ws (s : string) : string :=
  match s with
  | String c rest => if is_ws c then skip_ws rest else s
  | EmptyString => s
  end.

(** A run of digits: its value continuing from [acc], how many there were,
    and the rest of the input. *)
Fixpoint read_digits (s : string) (acc : Z) (count : nat) : Z * nat * string :=
  match s with
  | String c rest =>
      if is_digit c then read_digits rest (acc * 10 + digit_value c) (S count)
      else (acc, count, s)
  | EmptyString => (acc, count, s)
  end.

Definition pow10 (n : nat) : Z := Z.pow 10 (Z.of_nat n).

Definition read_exponent (s : string) : option (Z * string) :=
  match s with
  | String c rest =>
      if Ascii.eqb c "e" || Ascii.eqb c "E" then
        let '(negative, rest') :=
          match rest with
          | String "-" r => (true, r)
          | String "+" r => (false, r)
          | _ => (false, rest)
          end in
        match read_digits rest' 0 0 with
        | (_, O, _) => None
        | (e, _, rest'') => Some (if negative then (- e)%Z else e, rest'')
        end
      else Some (0%Z, s)
  | EmptyString => Some (0%Z, s)
  end.

Definition scale (q : Q) (e : Z) : Q :=
  if (0 <=? e)%Z then q * inject_Z (pow10 (Z.to_nat e))
  else q / inject_Z (pow10 (Z.to_nat (- e))).

(** A JSON number: [-]digits[.digits][(e|E)[+|-]digits]. *)
Definition read_number (s : string) : option (Q * string) :=
  let '(negative, s1) :=
    match s with
    | String "-" r => (true, r)
    | _ => (false, s)
    end in
  match read_digits s1 0 0 with
  | (_, O, _) => None
  | (whole, count, s2) =>
      if Nat.ltb 1 count && prefix "0" s1 then None else
      let after_fraction :=
        match s2 with
        | String "." r =>
            match read_digits r 0 0 with
            | (_, O, _) => None
            | (f, n, s3) => Some (inject_Z whole + inject_Z f / inject_Z (pow10 n), s3)
            end
        | _ => Some (inject_Z whole, s2)
        end in
      match after_fraction with
      | None => None
      | Some (q, s3) =>
          match read_exponent s3 with
          | None => None
          | Some (e, s4) =>
              let q' := Qred (scale q e) in
              Some (if negative then - q' else q', s4)
          end
      end
  end.

Definition hex_value (c : ascii) : option nat :=
  let n := nat_of_ascii c in
  if Nat.leb 48 n && Nat.leb n 57 then Some (n - 48)%nat
  else if Nat.leb 97 n && Nat.leb n 102 then Some (n - 87)%nat
  else if Nat.leb 65 n && Nat.leb n 70 then Some (n - 55)%nat
  else None.

(** The UTF-8 bytes of a code point of the basic plane. *)
Definition utf8 (cp : nat) : string :=
  if Nat.ltb cp 128 then String (ascii_of_nat cp) ""
  else if Nat.ltb cp 2048 then
    String (ascii_of_nat (192 + cp / 64)) (String (ascii_of_nat (128 + cp mod 64)) "")
  else
    String (ascii_of_nat (224 + cp / 4096))
      (String (ascii_of_nat (128 + (cp / 64) mod 64))
         (String (ascii_of_nat (128 + cp mod 64)) "")).

(** The body of a string literal, after its opening quote. *)
Fixpoint read_string (fuel : nat) (s : string) : option (string * string) :=
  match fuel with
  | O => None
  | S f =>
      match s with
      | EmptyString => None
      | String c rest =>
          if Ascii.eqb c quote_char then Some ("", rest)
          else if Ascii.eqb c "\" then
            match rest with
            | String e rest' =>
                let continue (decoded : string) (remaining : string) :=
                  match read_string f remaining with
                  | Some (tail, r) => Some (decoded ++ tail, r)
                  | None => None
                  end in
                if Ascii.eqb e quote_char then continue (String quote_char "") rest'
                else if Ascii.eqb e "\" then continue "\" rest'
                else if Ascii.eqb e "/" then continue "/" rest'
                else if Ascii.eqb e "b" then continue (String (ascii_of_nat 8) "") rest'
                else if Ascii.eqb e "f" then continue (String (ascii_of_nat 12) "") rest'
                else if Ascii.eqb e "n" then continue (String (ascii_of_nat 10) "") rest'
                else if Ascii.eqb e "r" then continue (String (ascii_of_nat 13) "") rest'
                else if Ascii.eqb e "t" then continue (String (ascii_of_nat 9) "") rest'
                else if Ascii.eqb e "u" then
                  match rest' with
                  | String h1 (String h2 (String h3 (String h4 rest''))) =>
                      match hex_value h1, hex_value h2, hex_value h3, hex_value h4 with
                      | Some a, Some b, Some c', Some d =>
                          continue (utf8 (((a * 16 + b) * 16 + c') * 16 + d)) rest''
                      | _, _, _, _ => None
                      end
                  | _ => None
                  end
                else None
            | EmptyString => None
            end
          else if Nat.ltb (nat_of_ascii c) 32 then None
          else
            match read_string f rest with
            | Some (tail, r) => Some (String c tail, r)
            | None => None
            end
      end
  end.

Definition expect (word : string) (v : value) (s : string) : option (value * string) :=
  if prefix word s
  then Some (v, substring (String.length word) (String.length s - String.length word) s)
  else None.

Fixpoint read_value (fuel : nat) (s : string) : option (value * string) :=
  match fuel with
  | O => None
  | S f =>
      match skip_ws s with
      | EmptyString => None
      | String c rest as s' =>
          if Ascii.eqb c quote_char then
            match read_string (S (String.length rest)) rest with
            | Some (str, r) => Some (Str str, r)
            | None => None
            end
          else if Ascii.eqb c "[" then
            match skip_ws rest with
            | String "]" r => Some (Arr [], r)
            | r => match read_elements f r with
                   | Some (es, r') => Some (Arr es, r')
                   | None => None
                   end
            end
          else if Ascii.eqb c "{" then
            match skip_ws rest with
            | String "}" r => Some (Obj [], r)
            | r => match read_members f r with
                   | Some (ps, r') => Some (Obj ps, r')
                   | None => None
                   end
            end
          else if Ascii.eqb c "t" then expect "true" (Bool true) s'
          else if Ascii.eqb c "f" then expect "false" (Bool false) s'
          else if Ascii.eqb c "n" then expect "null" Null s'
          else
            match read_number s' with
            | Some (q, r) => Some (Num (Finite q), r)
            | None => None
            end
      end
  end

with read_elements (fuel : nat) (s : string) : option (list value * string) :=
  match fuel with
  | O => None
  | S f =>
      match read_value f s with
      | Some (v, r) =>
          match skip_ws r with
          | String "]" r' => Some ([v], r')
          | String "," r' =>
              match read_elements f r' with
              | Some (vs, r'') => Some (v :: vs, r'')
              | None => None
              end
          | _ => None
          end
      | None => None
      end
  end

with read_members (fuel : nat) (s : string) : option (list (string * value) * string) :=
  match fuel with
  | O => None
  | S f =>
      match skip_ws s with
      | String c rest =>
          if Ascii.eqb c quote_char then
            match read_string (S (String.length rest)) rest with
            | Some (k, r) =>
                match skip_ws r with
                | String ":" r1 =>
                    match read_value f r1 with
                    | Some (v, r2) =>
                        match skip_ws r2 with
                        | String "}" r3 => Some ([(k, v)], r3)
                        | String "," r3 =>
                            match read_members f r3 with
                            | Some (ps, r4) => Some ((k, v) :: ps, r4)
                            | None => None
                            end
                        | _ => None
                        end
                    | None => None
                    end
                | _ => None
                end
            | None => None
            end
          else None
      | EmptyString => None
      end
  end.

(** A key that occurs twice keeps its first place and takes its last value. *)
Fixpoint dedupe (v : value) : value :=
  match v with
  | Arr elems => Arr (map dedupe elems)
  | Obj props =>
      Obj ((fix members (ps acc : list (string * value)) : list (string * value) :=
              match ps with
              | [] => acc
              | (k, x) :: rest => members rest (set_key k (dedupe x) acc)
              end) props [])
  | other => other
  end.

(** [JSON.parse]: one value, surrounded by optional white space. *)
Definition parse (s : string) : option value :=
  match read_value (2 * String.length s + 2) s with
  | Some (v, rest) =>
      match skip_ws rest with
      | EmptyString => Some (dedupe v)
      | _ => None
      end
  | None => None
  end.

(** [parseInt(s, 10)] on short inputs: leading ASCII white space, an
    optional sign, then the longest run of decimal digits, read exactly. *)
Definition is_space (c : ascii) : bool :=
  let n := nat_of_ascii c in
  Nat.eqb n 32 || (Nat.leb 9 n && Nat.leb n 13).

Fixpoint trimStart (s : string) : string :=
  match s with
  | String c rest => if is_space c then trimStart rest else s
  | EmptyString => s
  end.

Fixpoint leading_digits (s : string) (acc : option Z) : option Z :=
  match s with
  | String c rest =>
      let n := nat_of_ascii c in
      if Nat.leb 48 n && Nat.leb n 57
      then leading_digits rest
             (Some (match acc with Some a => a * 10 | None => 0 end + Z.of_nat (n - 48))%Z)
      else acc
  | EmptyString => acc
  end.

Definition parse_int (s : string) : number :=
  let '(negative, body) :=
    match trimStart s with
    | String "-" r => (true, r)
    | String "+" r => (false, r)
    | r => (false, r)
    end in
  match leading_digits body None with
  | Some z => Finite (inject_Z (if negative then - z else z))
  | None => NaN
  end.

Definition runtime : JSRuntime := {|
  JSON_parse := parse;
  JSON_stringify := stringify;
  Number_toString := number_to_string;
  Number_parseInt := parse_int;
  cannot_convert := "Cannot convert object to primitive value"
|}.

End RefRuntime.


(* ===================================================================== *)
(** * The automation capability *)
(* ===================================================================== *)

(** [buffer.toString('base64')] *)
Definition base64_char (n : nat) : ascii :=
  if Nat.ltb n 26 then ascii_of_nat (65 + n)
  else if Nat.ltb n 52 then ascii_of_nat (71 + n)
  else if Nat.ltb n 62 then ascii_of_nat (n - 4)
  else if Nat.eqb n 62 then "+"%char
  else "/"%char.

Fixpoint base64_nat (bytes : list nat) : string :=
  match bytes with
  | [] => ""
  | [a] =>
      String (base64_char (a / 4))
        (String (base64_char ((a mod 4) * 16)) "==")
  | [a; b] =>
      String (base64_char (a / 4))
        (String (base64_char ((a mod 4) * 16 + b / 16))
           (String (base64_char ((b mod 16) * 4)) "="))
  | a :: b :: c :: rest =>
      String (base64_char (a / 4))
        (String (base64_char ((a mod 4) * 16 + b / 16))
           (String (base64_char ((b mod 16) * 4 + c / 64))
              (String (base64_char (c mod 64)) (base64_nat rest))))
  end.

Definition Buffer : Type := list Byte.byte.

Definition base64 (b : Buffer) : string := base64_nat (map Byte.to_nat b).

(** What [types.ts] declares for the results of the tab operations. *)
Record TabInfo : Type := mkTabInfo {
  tab_index : number;
  tab_url : string;
  tab_title : string;
  tab_active : bool
}.

Record TabNewData : Type := mkTabNewData { new_index : number; new_total : number }.

Record TabCloseData : Type := mkTabCloseData { closed : number; remaining : number }.

Definition TabInfo_toJS (t : TabInfo) : value :=
  Obj [("index", Num (tab_index t)); ("url", Str (tab_url t));
       ("title", Str (tab_title t)); ("active", Bool (tab_active t))].

Definition TabNewData_toJS (d : TabNewData) : value :=
  Obj [("index", Num (new_index d)); ("total", Num (new_total d))].

Definition TabCloseData_toJS (d : TabCloseData) : value :=
  Obj [("closed", Num (closed d)); ("remaining", Num (remaining d))].

Section Capability.

(** The page objects the browser manager hands out. *)
Variable Page : Type.

(** [page.locator(selector)]: a lazy handle, building it touches nothing. *)
Record Locator : Type := mkLocator {
  locator_page : Page;
  locator_selector : string
}.

(** [Page | Locator], the receiver of [screenshot]. *)
Inductive Target : Type :=
| OnPage (p : Page)
| OnLocator (l : Locator).

Record ScreenshotOptions : Type := mkScreenshotOptions {
  opt_fullPage : option bool;
  opt_type : ImageFormat;
  opt_quality : option number;
  opt_path : option string
}.

Record ClickOptions : Type := mkClickOptions {
  opt_button : option MouseButton;
  opt_clickCount : option number;
  opt_delay : option number
}.

(** The operations of the capability the dispatcher calls: the methods of
    [BrowserManager] and of the pages and locators it gives access to.  The
    index is the type of the result. *)
Inductive Op : Type -> Type :=
| browser_launch (command : LaunchCommand) : Op unit
| browser_getPage : Op Page
| browser_close : Op unit
| browser_newTab : Op TabNewData
| browser_listTabs : Op (list TabInfo)
| browser_getActiveIndex : Op number
| browser_switchTo (index : number) : Op (list (string * value))
| browser_closeTab (index : option number) : Op TabCloseData
| browser_newWindow (viewport : option Viewport) : Op TabNewData
| page_goto (p : Page) (url : string) (waitUntil : WaitUntil) : Op unit
| page_url (p : Page) : Op string
| page_title (p : Page) : Op string
| page_click (p : Page) (selector : string) (options : ClickOptions) : Op unit
| page_fill (p : Page) (selector text : string) : Op unit
| page_type (p : Page) (selector text : string) (delay : option number) : Op unit
| page_press (p : Page) (selector key : string) : Op unit
| page_keyboard_press (p : Page) (key : string) : Op unit
| target_screenshot (t : Target) (options : ScreenshotOptions) : Op Buffer
| locator_ariaSnapshot (l : Locator) : Op (option string)
| page_evaluate (p : Page) (script : string) : Op value
| page_waitForSelector (p : Page) (selector : string) (state : ElementState)
    (timeout : option number) : Op unit
| page_waitForTimeout (p : Page) (timeout : number) : Op unit
| page_waitForLoadState (p : Page) (state : string) : Op unit
| locator_scrollIntoViewIfNeeded (l : Locator) : Op unit
| locator_scrollBy (l : Locator) (x y : number) : Op unit
    (* [element.evaluate((el, {x, y}) => el.scrollBy(x ?? 0, y ?? 0), ...)] *)
| page_selectOption (p : Page) (selector : string) (values : list string) : Op unit
| page_hover (p : Page) (selector : string) : Op unit
| locator_innerHTML (l : Locator) : Op string
| page_content (p : Page) : Op string.

(** One call and how it ended. *)
Inductive Event : Type :=
| Called {X : Type} (op : Op X) (result : Outcome X).

(** The state the capability works on (browser, pages, documents). *)
Variable World : Type.

(** A capability: what each operation does to the world, and whether it
    returns or throws. *)
Definition Capability : Type := forall X : Type, Op X -> World -> Outcome X * World.

Variable cap : Capability.

(** Computations against the capability: they thread the world, may end in a
    thrown value, and log each call. *)
Definition M (A : Type) : Type := World -> Outcome A * World * list Event.

Definition ret {A} (a : A) : M A := fun w => (Returned a, w, []).

(** An expression that returns or throws, touching nothing. *)
Definition lift {A} (r : Outcome A) : M A := fun w => (r, w, []).

Definition bind {A B} (m : M A) (k : A -> M B) : M B :=
  fun w =>
    match m w with
    | (Returned a, w1, log1) =>
        match k a w1 with
        | (r, w2, log2) => (r, w2, (log1 ++ log2)%list)
        end
    | (Threw e, w1, log1) => (Threw e, w1, log1)
    end.

(** [await op(...)] *)
Definition call {X} (op : Op X) : M X :=
  fun w =>
    match cap op w with
    | (r, w') => (r, w', [Called op r])
    end.

(** [try { body } catch (error) { handler }] *)
Definition try_catch {A} (body : M A) (handler : Thrown -> M A) : M A :=
  fun w =>
    match body w with
    | (Returned a, w1, log1) => (Returned a, w1, log1)
    | (Threw e, w1, log1) =>
        match handler e w1 with
        | (r, w2, log2) => (r, w2, (log1 ++ log2)%list)
        end
    end.

End Capability.

Arguments ret {Page World A} a.
Arguments lift {Page World A} r.
Arguments bind {Page World A B} m k.
Arguments call {Page World} cap {X} op.
Arguments try_catch {Page World A} body handler.
Arguments Called {Page X} op result.

Declare Scope exec_scope.
Delimit Scope exec_scope with exec.
Notation "x <- m ;; k" := (bind m (fun x => k))
  (at level 61, m at next level, right associativity) : exec_scope.
Notation "m ;; k" := (bind m (fun _ => k))
  (at level 61, right associativity) : exec_scope.

(* ===================================================================== *)
(** * The command dispatcher *)
(* ===================================================================== *)

Section Dispatcher.
Context {rt : JSRuntime}.
Variables Page World : Type.
Variable cap : Capability Page World.

Local Abbreviation Exec := (M Page World).
Local Abbreviation await := (call cap).
Local Open Scope exec_scope.

(** [if (command.field)] on an optional string field: an empty string is
    falsy, so it counts as not given. *)
Definition given (o : option string) : option string :=
  match o with
  | Some s => if truthy_string s then Some s else None
  | None => None
  end.

Definition handleLaunch (command : LaunchCommand) : Exec Response :=
  await (browser_launch Page command) ;;
  ret (successResponse (launch_id command) (Obj [("launched", Bool true)])).

Definition handleNavigate (command : NavigateCommand) : Exec Response :=
  page <- await (browser_getPage Page) ;;
  await (page_goto page (navigate_url command)
           (nullish (navigate_waitUntil command) wu_load)) ;;
  url <- await (page_url page) ;;
  title <- await (page_title page) ;;
  ret (successResponse (navigate_id command)
         (Obj [("url", Str url); ("title", Str title)])).

Definition handleClick (command : ClickCommand) : Exec Response :=
  page <- await (browser_getPage Page) ;;
  await (page_click page (click_selector command)
           {| opt_button := click_button command;
              opt_clickCount := click_clickCount command;
              opt_delay := click_delay command |}) ;;
  ret (successResponse (click_id command) (Obj [("clicked", Bool true)])).

Definition handleType (command : TypeCommand) : Exec Response :=
  page <- await (browser_getPage Page) ;;
  (match type_clear command with
   | Some true => await (page_fill page (type_selector command) "")
   | _ => ret tt
   end) ;;
  await (page_type page (type_selector command) (type_text command)
           (type_delay command)) ;;
  ret (successResponse (type_id command) (Obj [("typed", Bool true)])).

Definition handlePress (command : PressCommand) : Exec Response :=
  page <- await (browser_getPage Page) ;;
  (match given (press_selector command) with
   | Some selector => await (page_press page selector (press_key command))
   | None => await (page_keyboard_press page (press_key command))
   end) ;;
  ret (successResponse (press_id command) (Obj [("pressed", Bool true)])).

Definition handleScreenshot (command : ScreenshotCommand) : Exec Response :=
  page <- await (browser_getPage Page) ;;
  let options :=
    {| opt_fullPage := screenshot_fullPage command;
       opt_type := nullish (screenshot_format command) png;
       opt_quality :=
         match screenshot_format command, screenshot_quality command with
         | Some jpeg, Some quality => Some quality
         | _, _ => None
         end;
       opt_path := None |} in
  let target :=
    match given (screenshot_selector command) with
    | Some selector => OnLocator (mkLocator page selector)
    | None => OnPage page
    end in
  match given (screenshot_path command) with
  | Some path =>
      await (target_screenshot target
               {| opt_fullPage := opt_fullPage options;
                  opt_type := opt_type options;
                  opt_quality := opt_quality options;
                  opt_path := Some path |}) ;;
      ret (successResponse (screenshot_id command) (Obj [("path", Str path)]))
  | None =>
      buffer <- await (target_screenshot target options) ;;
      ret (successResponse (screenshot_id command)
             (Obj [("base64", Str (base64 buffer))]))
  end.

Definition handleSnapshot (command : BareCommand) : Exec Response :=
  page <- await (browser_getPage Page) ;;
  snapshot <- await (locator_ariaSnapshot (mkLocator page ":root")) ;;
  ret (successResponse (bare_id command)
         (Obj [("snapshot", Str (nullish snapshot "Empty page"))])).

Definition handleEvaluate (command : EvaluateCommand) : Exec Response :=
  page <- await (browser_getPage Page) ;;
  result <- await (page_evaluate page (evaluate_script command)) ;;
  ret (successResponse (evaluate_id command) (Obj [("result", result)])).

Definition handleWait (command : WaitCommand) : Exec Response :=
  page <- await (browser_getPage Page) ;;
  (match given (wait_selector command) with
   | Some selector =>
       await (page_waitForSelector page selector
                (nullish (wait_state command) st_visible)
                (wait_timeout command))
   | None =>
       match wait_timeout command with
       | Some timeout =>
           if truthy_number timeout
           then await (page_waitForTimeout page timeout)
           else await (page_waitForLoadState page "load")
       | None => await (page_waitForLoadState page "load")
       end
   end) ;;
  ret (successResponse (wait_id command) (Obj [("waited", Bool true)])).

(** The deltas of a whole-page scroll: the explicit ones, then the named
    direction written over its axis. *)
Definition scroll_deltas (command : ScrollCommand) : number * number :=
  let deltaX := nullish (scroll_x command) (Finite 0) in
  let deltaY := nullish (scroll_y command) (Finite 0) in
  match scroll_direction command with
  | Some direction =>
      let amount := nullish (scroll_amount command) (Finite 100) in
      match direction with
      | dir_up => (deltaX, neg amount)
      | dir_down => (deltaX, amount)
      | dir_left => (neg amount, deltaY)
      | dir_right => (amount, deltaY)
      end
  | None => (deltaX, deltaY)
  end.

Definition handleScroll (command : ScrollCommand) : Exec Response :=
  page <- await (browser_getPage Page) ;;
  (match given (scroll_selector command) with
   | Some selector =>
       let element := mkLocator page selector in
       await (locator_scrollIntoViewIfNeeded element) ;;
       match scroll_x command, scroll_y command with
       | None, None => ret tt
       | x, y => await (locator_scrollBy element (nullish x (Finite 0)) (nullish y (Finite 0)))
       end
   | None =>
       let '(deltaX, deltaY) := scroll_deltas command in
       await (page_evaluate page
                ("window.scrollBy(" ++ Number_toString deltaX ++ ", "
                 ++ Number_toString deltaY ++ ")")) ;;
       ret tt
   end) ;;
  ret (successResponse (scroll_id command) (Obj [("scrolled", Bool true)])).

Definition handleSelect (command : SelectCommand) : Exec Response :=
  page <- await (browser_getPage Page) ;;
  let values :=
    match select_values command with
    | ManyValues vs => vs
    | OneValue v => [v]
    end in
  await (page_selectOption page (select_selector command) values) ;;
  ret (successResponse (select_id command) (Obj [("selected", Arr (map Str values))])).

Definition handleHover (command : HoverCommand) : Exec Response :=
  page <- await (browser_getPage Page) ;;
  await (page_hover page (hover_selector command)) ;;
  ret (successResponse (hover_id command) (Obj [("hovered", Bool true)])).

Definition handleContent (command : ContentCommand) : Exec Response :=
  page <- await (browser_getPage Page) ;;
  html <- (match given (content_selector command) with
           | Some selector => await (locator_innerHTML (mkLocator page selector))
           | None => await (page_content page)
           end) ;;
  ret (successResponse (content_id command) (Obj [("html", Str html)])).

Definition handleClose (command : BareCommand) : Exec Response :=
  await (browser_close Page) ;;
  ret (successResponse (bare_id command) (Obj [("closed", Bool true)])).

Definition handleTabNew (command : BareCommand) : Exec Response :=
  result <- await (browser_newTab Page) ;;
  ret (successResponse (bare_id command) (TabNewData_toJS result)).

Definition handleTabList (command : BareCommand) : Exec Response :=
  tabs <- await (browser_listTabs Page) ;;
  active <- await (browser_getActiveIndex Page) ;;
  ret (successResponse (bare_id command)
         (Obj [("tabs", Arr (map TabInfo_toJS tabs)); ("active", Num active)])).

Definition handleTabSwitch (command : TabSwitchCommand) : Exec Response :=
  result <- await (browser_switchTo Page (tab_switch_index command)) ;;
  page <- await (browser_getPage Page) ;;
  title <- await (page_title page) ;;
  ret (successResponse (tab_switch_id command)
         (Obj (spread result [("title", Str title)]))).

Definition handleTabClose (command : TabCloseCommand) : Exec Response :=
  result <- await (browser_closeTab Page (tab_close_index command)) ;;
  ret (successResponse (tab_close_id command) (TabCloseData_toJS result)).

Definition handleWindowNew (command : WindowNewCommand) : Exec Response :=
  result <- await (browser_newWindow Page (window_new_viewport command)) ;;
  ret (successResponse (window_new_id command) (TabNewData_toJS result)).

(** The [switch] inside [executeCommand]'s [try]. *)
Definition dispatch (command : Command) : Exec Response :=
  match command with
  | CmdLaunch c => handleLaunch c
  | CmdNavigate c => handleNavigate c
  | CmdClick c => handleClick c
  | CmdType c => handleType c
  | CmdPress c => handlePress c
  | CmdScreenshot c => handleScreenshot c
  | CmdSnapshot c => handleSnapshot c
  | CmdEvaluate c => handleEvaluate c
  | CmdWait c => handleWait c
  | CmdScroll c => handleScroll c
  | CmdSelect c => handleSelect c
  | CmdHover c => handleHover c
  | CmdContent c => handleContent c
  | CmdClose c => handleClose c
  | CmdTabNew c => handleTabNew c
  | CmdTabList c => handleTabList c
  | CmdTabSwitch c => handleTabSwitch c
  | CmdTabClose c => handleTabClose c
  | CmdWindowNew c => handleWindowNew c
  | CmdOther c =>
      ret (errorResponse (base_id c) ("Unknown action: " ++ base_action c))
  end.

(** [error instanceof Error ? error.message : String(error)] *)
Definition error_message (e : Thrown) : Outcome string :=
  match e with
  | ThrownError message => Returned message
  | ThrownValue v => toString v
  end.

(** The conversion of the thrown value stands inside the [catch]: what it
    throws leaves [executeCommand]. *)
Definition executeCommand (command : Command) : Exec Response :=
  try_catch (dispatch command)
    (fun error =>
       message <- lift (error_message error) ;;
       ret (errorResponse (command_id command) message)).

End Dispatcher.

(* ===================================================================== *)
(** * The page collection of the daemon host *)
(* ===================================================================== *)

(** [browser.ts], where [BrowserManager] keeps its pages, is not among the
    sources; the dispatcher only forwards to it.  The part of it that
    [tab_close] needs is taken from the specification. *)

(** A tab index as a number, and a number as a tab index (a non-negative
    integer). *)
Definition number_of_nat (n : nat) : number := Finite (inject_Z (Z.of_nat n)).

Definition index_of_number (n : number) : option nat :=
  match n with
  | Finite q =>
      let q' := Qred q in
      if (Zpos (Qden q') =? 1)%Z && (0 <=? Qnum q')%Z
      then Some (Z.to_nat (Qnum q'))
      else None
  | _ => None
  end.

Section Tabs.
Variable Page : Type.

(** Modelled from the spec: the daemon host state of section 3, an ordered
    collection of open pages with a designated active index. *)
Record TabState : Type := mkTabState {
  pages : list Page;
  activeIndex : nat
}.

(** Section 3 invariant: the active index is a valid index into a non-empty
    collection. *)
Definition tabs_ok (st : TabState) : Prop :=
  (activeIndex st < length (pages st))%nat.

(** The specification leaves open what closing the last page does: it is
    rejected, or it closes the daemon. *)
Inductive LastPagePolicy : Type := RejectLastPage | CloseDaemon.

Definition remove_at (i : nat) (l : list Page) : list Page :=
  (firstn i l ++ skipn (S i) l)%list.

(** Modelled from the spec: [closeTab(index?)] of the missing [browser.ts]
    (the capability contract's [closePage(index?) -> {closedIndex,
    remainingCount}]).  Without an index it targets the active tab; a
    referenced index must exist; after the removal the new active index is
    the lowest remaining index, and [remaining] is the count before the
    close minus one. *)
Definition closeTab (policy : LastPagePolicy) (index : option number) (st : TabState)
  : Outcome TabCloseData * TabState :=
  let target :=
    match index with
    | None => Some (activeIndex st)
    | Some n => index_of_number n
    end in
  match target with
  | Some i =>
      if Nat.ltb i (length (pages st)) then
        match policy, length (pages st) with
        | RejectLastPage, 1%nat => (Threw (ThrownError "Cannot close the last tab"), st)
        | _, previousCount =>
            (Returned {| closed := number_of_nat i;
                         remaining := number_of_nat (previousCount - 1) |},
             {| pages := remove_at i (pages st); activeIndex := 0 |})
        end
      else (Threw (ThrownError "Invalid tab index"), st)
  | None => (Threw (ThrownError "Invalid tab index"), st)
  end.

(** A capability whose [closeTab] is the one above, on the tab state it
    keeps inside its world. *)
Definition closeTab_as_specified (World : Type) (cap : Capability Page World)
  (policy : LastPagePolicy) (tabs : World -> TabState) : Prop :=
  forall (index : option number) (w : World),
    fst (cap _ (browser_closeTab Page index) w) = fst (closeTab policy index (tabs w))
    /\ tabs (snd (cap _ (browser_closeTab Page index) w))
       = snd (closeTab policy index (tabs w)).

End Tabs.

(* ===================================================================== *)
(** * The CLI entry point: from the arguments to the command sent *)
(* ===================================================================== *)

Module Cli.

(** [s.startsWith(p)] *)
Definition startsWith (s p : string) : bool := prefix p s.

(** [args.includes(x)] *)
Definition includes (x : string) (args : list string) : bool :=
  existsb (String.eqb x) args.

(** [parseInt(arg, 10)], a built-in.  An absent argument reads as the text
    of [undefined], which has no digit. *)
Definition parseInt {rt : JSRuntime} (arg : option string) : number :=
  match arg with
  | None => NaN
  | Some s => Number_parseInt s
  end.

Definition isNaN (n : number) : bool :=
  match n with NaN => true | _ => false end.

(** [a || b] on numbers *)
Definition or_number (a b : number) : number := if truthy_number a then a else b.

(** A possibly absent string as a property value. *)
Definition opt_str (o : option string) : value :=
  match o with Some s => Str s | None => Undefined end.

(** [!x] on a possibly absent string *)
Definition missing (o : option string) : bool :=
  match o with Some s => negb (truthy_string s) | None => true end.

(** The arguments left once the flags and the values of [--selector], [-s]
    and [--session] are dropped; [prev] is [args[i - 1]]. *)
Fixpoint cleanArgs_from (prev : option string) (args : list string) : list string :=
  match args with
  | [] => []
  | a :: rest =>
      let keep :=
        if startsWith a "-" then false
        else match prev with
             | Some p =>
                 if String.eqb p "--selector" || String.eqb p "-s" then false
                 else if String.eqb p "--session" then false
                 else true
             | None => true
             end in
      if keep then a :: cleanArgs_from (Some a) rest else cleanArgs_from (Some a) rest
  end.

Definition cleanArgs (args : list string) : list string := cleanArgs_from None args.

(** The value that follows the first [--selector] or [-s], when it is there
    and not empty. *)
Fixpoint selectorOverride (args : list string) : option string :=
  match args with
  | [] => None
  | a :: rest =>
      if String.eqb a "--selector" || String.eqb a "-s"
      then match rest with
           | v :: _ => if truthy_string v then Some v else None
           | [] => None
           end
      else selectorOverride rest
  end.

(** What [main] does next: leave with an exit code, or send a command. *)
Inductive Step : Type :=
| Exit (code : nat)
| Send (cmd : value).

(** The [switch (command)] of [main], up to the call of [send]; [id] is the
    identifier [genId] drew. *)
Definition build {rt : JSRuntime} (args : list string) (id : string) : Step :=
  if (Nat.eqb (length args) 0 || includes "--help" args || includes "-h" args)%bool
  then Exit 0
  else
    let fullPage := (includes "--full" args || includes "-f" args)%bool in
    let textMode := (includes "--text" args || includes "-t" args)%bool in
    let clean := cleanArgs args in
    let arg (i : nat) : option string := nth_error clean i in
    let override := selectorOverride args in
    let command (name : string) : bool :=
      match arg 0%nat with Some c => String.eqb c name | None => false end in
    if (command "open" || command "goto" || command "navigate")%bool then
      match arg 1%nat with
      | Some url =>
          if truthy_string url then
            let fullUrl := if startsWith url "http" then url else "https://" ++ url in
            Send (Obj [("id", Str id); ("action", Str "navigate"); ("url", Str fullUrl)])
          else Exit 1
      | None => Exit 1
      end
    else if command "click" then
      if missing (arg 1%nat) then Exit 1
      else Send (Obj [("id", Str id); ("action", Str "click");
                      ("selector", opt_str (arg 1%nat))])
    else if command "type" then
      let text := join " " (skipn 2 clean) in
      if (missing (arg 1%nat) || negb (truthy_string text))%bool then Exit 1
      else Send (Obj [("id", Str id); ("action", Str "type");
                      ("selector", opt_str (arg 1%nat)); ("text", Str text);
                      ("clear", Bool true)])
    else if command "press" then
      if missing (arg 1%nat) then Exit 1
      else Send (Obj [("id", Str id); ("action", Str "press");
                      ("key", opt_str (arg 1%nat)); ("selector", opt_str override)])
    else if command "wait" then
      match arg 1%nat with
      | Some target =>
          if truthy_string target then
            let ms := parseInt (Some target) in
            if negb (isNaN ms)
            then Send (Obj [("id", Str id); ("action", Str "wait"); ("timeout", Num ms)])
            else if textMode
            then Send (Obj [("id", Str id); ("action", Str "wait");
                            ("selector", Str ("text=" ++ target))])
            else Send (Obj [("id", Str id); ("action", Str "wait");
                            ("selector", Str target)])
          else Exit 1
      | None => Exit 1
      end
    else if (command "screenshot" || command "ss")%bool then
      Send (Obj [("id", Str id); ("action", Str "screenshot");
                 ("path", opt_str (arg 1%nat)); ("fullPage", Bool fullPage);
                 ("selector", opt_str override)])
    else if (command "snapshot" || command "aria" || command "a11y")%bool then
      Send (Obj [("id", Str id); ("action", Str "snapshot")])
    else if (command "extract" || command "html" || command "content")%bool then
      let selector := if missing (arg 1%nat) then override else arg 1%nat in
      Send (Obj [("id", Str id); ("action", Str "content");
                 ("selector", opt_str selector)])
    else if (command "eval" || command "js")%bool then
      let script := join " " (skipn 1 clean) in
      if truthy_string script
      then Send (Obj [("id", Str id); ("action", Str "evaluate"); ("script", Str script)])
      else Exit 1
    else if command "scroll" then
      let amount := or_number (parseInt (arg 2%nat)) (Finite 300) in
      match arg 1%nat with
      | Some dirOrAmount =>
          if includes dirOrAmount ["up"; "down"; "left"; "right"]
          then Send (Obj [("id", Str id); ("action", Str "scroll");
                          ("direction", Str dirOrAmount); ("amount", Num amount);
                          ("selector", opt_str override)])
          else Send (Obj [("id", Str id); ("action", Str "scroll");
                          ("y", Num (or_number (parseInt (Some dirOrAmount)) (Finite 300)));
                          ("selector", opt_str override)])
      | None =>
          Send (Obj [("id", Str id); ("action", Str "scroll");
                     ("y", Num (or_number (parseInt None) (Finite 300)));
                     ("selector", opt_str override)])
      end
    else if command "hover" then
      if missing (arg 1%nat) then Exit 1
      else Send (Obj [("id", Str id); ("action", Str "hover");
                      ("selector", opt_str (arg 1%nat))])
    else if command "select" then
      if (missing (arg 1%nat) || missing (arg 2%nat))%bool then Exit 1
      else Send (Obj [("id", Str id); ("action", Str "select");
                      ("selector", opt_str (arg 1%nat)); ("values", opt_str (arg 2%nat))])
    else if (command "close" || command "quit" || command "exit")%bool then
      Send (Obj [("id", Str id); ("action", Str "close")])
    else if command "tab" then
      match arg 1%nat with
      | Some subCmd =>
          if String.eqb subCmd "new"
          then Send (Obj [("id", Str id); ("action", Str "tab_new")])
          else if (String.eqb subCmd "list" || String.eqb subCmd "ls")%bool
          then Send (Obj [("id", Str id); ("action", Str "tab_list")])
          else if String.eqb subCmd "close"
          then Send (Obj [("id", Str id); ("action", Str "tab_close");
                          ("index", match arg 2%nat with
                                    | Some a => Num (parseInt (Some a))
                                    | None => Undefined
                                    end)])
          else
            let tabIndex := parseInt (Some subCmd) in
            if isNaN tabIndex then Exit 1
            else Send (Obj [("id", Str id); ("action", Str "tab_switch");
                            ("index", Num tabIndex)])
      | None => Send (Obj [("id", Str id); ("action", Str "tab_list")])
      end
    else if command "window" then
      match arg 1%nat with
      | Some subCmd =>
          if String.eqb subCmd "new"
          then Send (Obj [("id", Str id); ("action", Str "window_new")])
          else Exit 1
      | None => Exit 1
      end
    else if command "session" then Exit 0
    else Exit 1.

(** A URL scheme (RFC 3986): a letter, then letters, digits, [+], [-] or [.],
    up to a colon. *)
Definition is_alpha (c : ascii) : bool :=
  let n := nat_of_ascii c in
  (Nat.leb 65 n && Nat.leb n 90) || (Nat.leb 97 n && Nat.leb n 122).

Definition is_scheme_char (c : ascii) : bool :=
  let n := nat_of_ascii c in
  is_alpha c || (Nat.leb 48 n && Nat.leb n 57)
  || Nat.eqb n 43 || Nat.eqb n 45 || Nat.eqb n 46.

Fixpoint scheme_rest (s : string) : bool :=
  match s with
  | String c rest =>
      if Ascii.eqb c ":" then true
      else if is_scheme_char c then scheme_rest rest
      else false
  | EmptyString => false
  end.

Definition has_scheme (url : string) : bool :=
  match url with
  | String c rest => is_alpha c && scheme_rest rest
  | EmptyString => false
  end.

End Cli.

(* ===================================================================== *)
(** * Notions the properties are stated with *)
(* ===================================================================== *)

Section Notions.
Context {rt : JSRuntime}.

(** A value the command schema accepts. *)
Definition accepts (t : ZodType) (v : value) : bool :=
  match status (zparse t [] v) with
  | valid => true
  | _ => false
  end.

(** A valid command: one whose object the command schema accepts. *)
Definition valid_command (c : Command) : Prop :=
  accepts commandSchema (Command_toJS c) = true.

(** The catalogue: the fields the schema of an action tag declares. *)
Definition catalogue (tag : string) : option (list (string * ZodType)) :=
  match
    find (fun t => match discriminator_of "action" t with
                   | Some lit => String.eqb tag lit
                   | None => false
                   end) commandSchemas
  with
  | Some (ZObject shape) => Some shape
  | _ => None
  end.

(** Types with no object inside: what they accept they return unchanged. *)
Fixpoint object_free (t : ZodType) : bool :=
  match t with
  | ZObject _ | ZDiscriminatedUnion _ _ => false
  | ZArray element => object_free element
  | ZOptional inner => object_free inner
  | ZUnion options => forallb object_free options
  | _ => true
  end.

(** Types whose arrays and unions hold no object. *)
Fixpoint plain (t : ZodType) : bool :=
  match t with
  | ZArray element => object_free element
  | ZUnion options => forallb object_free options
  | ZOptional inner => plain inner
  | ZObject shape => forallb (fun kt => plain (snd kt)) shape
  | ZDiscriminatedUnion _ options => forallb plain options
  | _ => true
  end.

(** What the validator returns for a value it accepts: the declared keys the
    object holds, in the order of the declaration; the other keys are
    stripped. *)
Fixpoint normal (t : ZodType) (v : value) : value :=
  match t with
  | ZObject shape =>
      match v with
      | Obj props =>
          Obj (flat_map
                 (fun kt =>
                    match get_prop (fst kt) props with
                    | Some x =>
                        if String.eqb (fst kt) "__proto__" then []
                        else [(fst kt, normal (snd kt) x)]
                    | None => []
                    end) shape)
      | _ => v
      end
  | ZOptional inner => normal inner v
  | ZDiscriminatedUnion d options =>
      match v with
      | Obj props =>
          match pick_option (read_prop d props)
                  (map (fun t' => (discriminator_of d t', normal t' v)) options)
          with
          | Some v' => v'
          | None => v
          end
      | _ => v
      end
  | _ => v
  end.

(** A type that lets [undefined] through: a field so declared may be left
    out.  Every other field is required. *)
Fixpoint accepts_undefined (t : ZodType) : bool :=
  match t with
  | ZOptional _ | ZUnknown => true
  | ZUnion options => existsb accepts_undefined options
  | _ => false
  end.

(** The validator rejects what the object holds under [k] (nothing, when
    the key is absent) for a field declared with type [t]. *)
Definition field_rejected (k : string) (t : ZodType) (props : list (string * value)) : Prop :=
  status (zparse t [Key k] (read_prop k props)) <> valid.

(** The result of parsing one declared field of an object. *)
Definition field_result (p : list PathElem) (props : list (string * value))
           (kt : string * ZodType) : string * ParseReturn * bool :=
  (fst kt,
   zparse (snd kt) (p ++ [Key (fst kt)])%list (read_prop (fst kt) props),
   has_prop (fst kt) props).

End Notions.

(** The text [error] has [k] in it. *)
Definition mentions (error k : string) : Prop :=
  exists before after, error = before ++ k ++ after.

(** Values that JSON text carries as they are: no [undefined], no [NaN], no
    infinity, at any depth. *)
Fixpoint json_value (v : value) : bool :=
  match v with
  | Undefined => false
  | Null | Bool _ | Str _ => true
  | Num n => isFinite n
  | Arr elems => forallb json_value elems
  | Obj props =>
      (fix all (ps : list (string * value)) : bool :=
         match ps with
         | [] => true
         | (_, x) :: rest => json_value x && all rest
         end) props
  end.

Definition finite_opt (o : option number) : bool :=
  match o with Some n => isFinite n | None => true end.

Definition finite_viewport (o : option Viewport) : bool :=
  match o with Some v => isFinite (width v) && isFinite (height v) | None => true end.

(** A command JSON text carries as it is: its numbers are finite and the
    arguments of [evaluate] are JSON values. *)
Definition representable (c : Command) : bool :=
  match c with
  | CmdLaunch c => finite_viewport (launch_viewport c)
  | CmdClick c => finite_opt (click_clickCount c) && finite_opt (click_delay c)
  | CmdType c => finite_opt (type_delay c)
  | CmdScreenshot c => finite_opt (screenshot_quality c)
  | CmdEvaluate c =>
      match evaluate_args c with Some args => forallb json_value args | None => true end
  | CmdWait c => finite_opt (wait_timeout c)
  | CmdScroll c =>
      finite_opt (scroll_x c) && finite_opt (scroll_y c) && finite_opt (scroll_amount c)
  | CmdTabSwitch c => isFinite (tab_switch_index c)
  | CmdTabClose c => finite_opt (tab_close_index c)
  | CmdWindowNew c => finite_viewport (window_new_viewport c)
  | _ => true
  end.

(* ===================================================================== *)
(** * Capabilities to run the dispatcher against *)
(* ===================================================================== *)

(** A capability in which every operation returns: one page, an image of
    three bytes, empty texts.  Its world counts the calls. *)
Definition calm : Capability unit nat :=
  fun X op w =>
    (match op in Op _ X return Outcome X with
     | browser_launch _ _ => Returned tt
     | browser_getPage _ => Returned tt
     | browser_close _ => Returned tt
     | browser_newTab _ => Returned (mkTabNewData (Finite 1) (Finite 2))
     | browser_listTabs _ => Returned []
     | browser_getActiveIndex _ => Returned (Finite 0)
     | browser_switchTo _ i => Returned [("index", Num i); ("url", Str "about:blank")]
     | browser_closeTab _ _ => Returned (mkTabCloseData (Finite 0) (Finite 1))
     | browser_newWindow _ _ => Returned (mkTabNewData (Finite 1) (Finite 2))
     | page_goto _ _ _ => Returned tt
     | page_url _ => Returned "about:blank"
     | page_title _ => Returned ""
     | page_click _ _ _ => Returned tt
     | page_fill _ _ _ => Returned tt
     | page_type _ _ _ _ => Returned tt
     | page_press _ _ _ => Returned tt
     | page_keyboard_press _ _ => Returned tt
     | target_screenshot _ _ => Returned [Byte.x4d; Byte.x61; Byte.x6e]
     | locator_ariaSnapshot _ => Returned None
     | page_evaluate _ _ => Returned Undefined
     | page_waitForSelector _ _ _ _ => Returned tt
     | page_waitForTimeout _ _ => Returned tt
     | page_waitForLoadState _ _ => Returned tt
     | locator_scrollIntoViewIfNeeded _ => Returned tt
     | locator_scrollBy _ _ _ => Returned tt
     | page_selectOption _ _ _ => Returned tt
     | page_hover _ _ => Returned tt
     | locator_innerHTML _ => Returned ""
     | page_content _ => Returned ""
     end, S w).

(** A capability that only manages tabs, the way the specification says;
    everything else throws. *)
Definition tabs_only (policy : LastPagePolicy) : Capability nat (TabState nat) :=
  fun X op st =>
    match op in Op _ X return Outcome X * TabState nat with
    | browser_closeTab _ index => closeTab policy index st
    | _ => (Threw (ThrownError "not available"), st)
    end.

(** A value [String] cannot convert: an object that holds a [toString] of
    its own that is no function.  JSON text can carry it. *)
Definition unconvertible : value := Obj [("toString", Num (Finite 1))].

(** A browser whose page cannot be had, and which throws that object, not
    an [Error]: everything else goes as with [calm]. *)
Definition hostile : Capability unit nat :=
  fun X op w =>
    match op in Op _ X return Outcome X * nat with
    | browser_getPage _ => (Threw (ThrownValue unconvertible), S w)
    | other => calm other w
    end.

(** The faults a log records: the values the capability threw, in order. *)
Definition fault_of {Page : Type} (ev : Event Page) : list Thrown :=
  match ev with
  | Called _ (Threw e) => [e]
  | Called _ (Returned _) => []
  end.

Definition faults {Page : Type} (log : list (Event Page)) : list Thrown :=
  flat_map fault_of log.

(** A computation is orderly when a run that returns logged no fault and
    satisfies [post], and a run that throws logged one fault: the value it
    throws. *)
Definition orderly {Page World A : Type} (post : A -> Prop) (m : M Page World A) : Prop :=
  forall w : World,
    match m w with
    | (Returned a, _, log) => post a /\ faults log = []
    | (Threw e, _, log) => faults log = [e]
    end.

(* ===================================================================== *)
(** * Example inputs *)
(* ===================================================================== *)

Definition click_example : Command :=
  CmdClick (mkClick "c1" "#submit" (Some btn_left) (Some (Finite 2)) (Some (Finite (1 # 2)))).

(** Two valid commands that JSON text cannot carry as they are: an
    [evaluate] with an undefined argument, a wait with an infinite timeout. *)
Definition evaluate_undefined : Command :=
  CmdEvaluate (mkEvaluate "e1" "f(x)" (Some [Undefined])).


Definition wait_forever : Command :=
  CmdWait (mkWait "w1" None (Some PosInfinity) None).

Definition navigate_no_url : list (string * value) :=
  [("id", Str "n1"); ("action", Str "navigate")].

Definition click_no_selector : list (string * value) :=
  [("id", Str "k1"); ("action", Str "click"); ("selector", Str "")].

(** Requests that fail the schema and whose [id] is no string: a number,
    and the object [String] cannot convert. *)
Definition snapshot_numeric_id : list (string * value) :=
  [("id", Num (Finite 42)); ("action", Str "snapshot")].

Definition navigate_unconvertible_id : list (string * value) :=
  [("id", unconvertible); ("action", Str "navigate")].

Definition navigate_example : Command :=
  CmdNavigate (mkNavigate "n1" "https://example.com" None).

Definition select_example : Command :=
  CmdSelect (mkSelect "s1" "#country" (OneValue "US")).

Definition wait_bare : WaitCommand := mkWait "w2" None None None.

Definition wait_bounded : WaitCommand :=
  mkWait "w3" (Some "#loading") (Some (Finite 2000)) None.

Definition screenshot_to_file : ScreenshotCommand :=
  mkScreenshot "p1" (Some "page.png") (Some true) None None None.

Definition screenshot_empty_path : ScreenshotCommand :=
  mkScreenshot "p2" (Some "") None None None None.

(** What the CLI sends for its scroll command with a selector and a named
    direction. *)
Definition scroll_container_down : ScrollCommand :=
  mkScroll "r1" (Some "#container") None None (Some dir_down) (Some (Finite 300)).

Definition three_tabs : TabState nat := mkTabState [10%nat; 11%nat; 12%nat] 1.

(* ===================================================================== *)
(** * Further notions *)
(* ===================================================================== *)

(** A type that lets [null] through.  No field of a command is declared
    with one. *)
Fixpoint accepts_null (t : ZodType) : bool :=
  match t with
  | ZUnknown => true
  | ZOptional inner => accepts_null inner
  | ZUnion options => existsb accepts_null options
  | _ => false
  end.

(** The action tags of the command union, in the order of [commandSchema]. *)
Definition action_tags : list string :=
  ["launch"; "navigate"; "click"; "type"; "press"; "screenshot"; "snapshot";
   "evaluate"; "wait"; "scroll"; "select"; "hover"; "content"; "close";
   "tab_new"; "tab_list"; "tab_switch"; "tab_close"; "window_new"].

(** The commands whose handler starts by asking the browser for its page. *)
Definition needs_page (c : Command) : bool :=
  match c with
  | CmdNavigate _ | CmdClick _ | CmdType _ | CmdPress _ | CmdScreenshot _
  | CmdSnapshot _ | CmdEvaluate _ | CmdWait _ | CmdScroll _ | CmdSelect _
  | CmdHover _ | CmdContent _ => true
  | _ => false
  end.

(** No string occurs twice. *)
Fixpoint distinct (l : list string) : bool :=
  match l with
  | [] => true
  | x :: rest => negb (existsb (String.eqb x) rest) && distinct rest
  end.

(** Object types whose keys are distinct and not [__proto__], at every
    depth.  The command schemas are so. *)
Fixpoint well_keyed (t : ZodType) : bool :=
  match t with
  | ZObject shape =>
      distinct (map fst shape)
      && negb (existsb (String.eqb "__proto__") (map fst shape))
      && forallb (fun kt => well_keyed (snd kt)) shape
  | ZOptional inner => well_keyed inner
  | ZDiscriminatedUnion _ options => forallb well_keyed options
  | _ => true
  end.

(** The properties an accepted object comes back with. *)
Definition normal_props (shape : list (string * ZodType)) (props : list (string * value))
  : list (string * value) :=
  flat_map
    (fun kt =>
       match get_prop (fst kt) props with
       | Some x =>
           if String.eqb (fst kt) "__proto__" then []
           else [(fst kt, normal (snd kt) x)]
       | None => []
       end) shape.


(** A computation halts at the first fault: a run that returns logged no
    fault; a run that throws logged the throwing call last, after calls
    that all returned. *)
Definition halting {Page World A : Type} (m : M Page World A) : Prop :=
  forall w : World,
    match m w with
    | (Returned _, _, log) => faults log = []
    | (Threw e, _, log) =>
        exists (pre : list (Event Page)) (X : Type) (op : Op Page X),
          log = (pre ++ [Called op (Threw e)])%list /\ faults pre = []
    end.

(** A browser that was not launched: asking for the page throws, and so
    does everything but [launch]. *)
Definition unlaunched : Capability unit nat :=
  fun X op w =>
    (match op in Op _ X return Outcome X with
     | browser_launch _ _ => Returned tt
     | _ => Threw (ThrownError "Browser not launched. Call launch first.")
     end, S w).

(** The flags of the CLI that are followed by a value. *)
Definition takes_value (flag : string) : bool :=
  String.eqb flag "--selector" || String.eqb flag "-s" || String.eqb flag "--session".

(** [args[i - 1]] once the filter of [Cli.cleanArgs] has gone over [args],
    having started with [prev] before them. *)
Definition arg_before (prev : option string) (args : list string) : option string :=
  fold_left (fun _ a => Some a) args prev.

(** A browser whose page cannot reach the network: navigation throws,
    everything else goes as with [calm]. *)
Definition offline : Capability unit nat :=
  fun X op w =>
    match op in Op _ X return Outcome X * nat with
    | page_goto _ _ _ => (Threw (ThrownError "net::ERR_INTERNET_DISCONNECTED"), S w)
    | other => calm other w
    end.

(* ===================================================================== *)
(** * Further example inputs *)
(* ===================================================================== *)

Definition reload_request : list (string * value) :=
  [("id", Str "u1"); ("action", Str "reload")].

Definition click_null_selector : list (string * value) :=
  [("id", Str "n1"); ("action", Str "click"); ("selector", Null)].

Definition snapshot_verbose : list (string * value) :=
  [("id", Str "s1"); ("action", Str "snapshot"); ("verbose", Bool true)].

Definition navigate_idle : NavigateCommand :=
  mkNavigate "n1" "https://example.com" (Some wu_networkidle).

Definition navigate_plain : NavigateCommand :=
  mkNavigate "n2" "https://example.com" None.

Definition type_email : TypeCommand :=
  mkType "t1" "#email" "a@b.c" None (Some true).

Definition press_enter : PressCommand := mkPress "k1" "Enter" None.

Definition screenshot_hero : ScreenshotCommand :=
  mkScreenshot "p3" None None (Some "#hero") (Some png) (Some (Finite 80)).

Definition content_main : ContentCommand := mkContent "h1" (Some "#main").

Definition switch_to_second : TabSwitchCommand := mkTabSwitch "t2" (Finite 1).

Definition scroll_page_up : ScrollCommand :=
  mkScroll "r2" None None (Some (Finite 40)) (Some dir_up) None.

Definition scroll_container_by : ScrollCommand :=
  mkScroll "r3" (Some "#list") None (Some (Finite 250)) None None.

(* ===================================================================== *)
(** * The CLI: printing the response and leaving *)
(* ===================================================================== *)

Module Terminal.

(** What [printResponse] needs of the engine besides [JSRuntime]: the
    indented form of [JSON.stringify], the length of a string, and the
    messages of the two type errors that reading a response can end in. *)
Class Engine : Type := {
  JSON_stringify_indented : value -> string;    (* [JSON.stringify(v, null, 2)] *)
  String_length : string -> number;             (* [s.length] *)
  cannot_read : value -> string -> string;      (* reading [k] of [undefined] or [null] *)
  not_a_function : string -> string             (* calling what is not a function *)
}.

Inductive Color : Type :=
| reset | bold | dim | red | green | yellow | blue | magenta | cyan.

Definition escape_char : string := String (ascii_of_nat 27) "".

Definition colors (color : Color) : string :=
  escape_char ++
  match color with
  | reset => "[0m"
  | bold => "[1m"
  | dim => "[2m"
  | red => "[31m"
  | green => "[32m"
  | yellow => "[33m"
  | blue => "[34m"
  | magenta => "[35m"
  | cyan => "[36m"
  end.

Definition c (color : Color) (text : string) : string :=
  colors color ++ text ++ colors reset.

(** The check mark, the ballot cross and the arrow of the source text, in
    UTF-8. *)
Definition check_mark : string :=
  String (ascii_of_nat 226) (String (ascii_of_nat 156) (String (ascii_of_nat 147) "")).
Definition ballot_cross : string :=
  String (ascii_of_nat 226) (String (ascii_of_nat 156) (String (ascii_of_nat 151) "")).
Definition arrow : string :=
  String (ascii_of_nat 226) (String (ascii_of_nat 134) (String (ascii_of_nat 146) "")).

(** A call of [console.log] or of [console.error], with its arguments. *)
Inductive Output : Type :=
| Log (args : list value)
| Error (args : list value).

(** How a computation of the CLI ends: it returns, it leaves the process
    with an exit code, or it throws. *)
Inductive Ending (A : Type) : Type :=
| Done (a : A)
| Exited (code : nat)
| Raised (e : Thrown).
Arguments Done {A} a.
Arguments Exited {A} code.
Arguments Raised {A} e.

Definition Proc (A : Type) : Type := list Output * Ending A.

Definition done {A} (a : A) : Proc A := ([], Done a).

Definition raise {A} (e : Thrown) : Proc A := ([], Raised e).

(** [first; then] *)
Definition andThen {A B} (first : Proc A) (next : A -> Proc B) : Proc B :=
  match first with
  | (out, Done a) => ((out ++ fst (next a))%list, snd (next a))
  | (out, Exited code) => (out, Exited code)
  | (out, Raised e) => (out, Raised e)
  end.

(** [console.log(...args)] *)
Definition log (args : list value) : Proc unit := ([Log args], Done tt).

Declare Scope proc_scope.
Delimit Scope proc_scope with proc.
Notation "x <- m ;; k" := (andThen m (fun x => k))
  (at level 61, m at next level, right associativity) : proc_scope.
Notation "m ;; k" := (andThen m (fun _ => k))
  (at level 61, right associativity) : proc_scope.

(** [v.k] where [v] is neither [undefined] nor [null]: a property of an
    object; none of the keys read here is a property of a string, an array,
    a number or a boolean. *)
Definition property (v : value) (k : string) : value :=
  match v with
  | Obj props => read_prop k props
  | _ => Undefined
  end.

Definition is_nothing (v : value) : bool :=
  match v with Undefined | Null => true | _ => false end.

Definition is_undefined (v : value) : bool :=
  match v with Undefined => true | _ => false end.

(** [typeof v === 'object'] *)
Definition typeof_object (v : value) : bool :=
  match v with Null | Arr _ | Obj _ => true | _ => false end.

Section WithEngine.
Context {rt : JSRuntime} {engine : Engine}.
Local Open Scope proc_scope.

(** The conversion of [v] inside a template literal. *)
Definition text (v : value) : Proc string :=
  match String_ v with
  | Some s => done s
  | None => raise (ThrownError cannot_convert)
  end.

(** [v.length] for a [v] that is truthy *)
Definition length_of (v : value) : value :=
  match v with
  | Str s => Num (String_length s)
  | Arr elems => Num (number_of_nat (length elems))
  | Obj props => read_prop "length" props
  | _ => Undefined
  end.

(** The body of [tabs.forEach(tab => ...)] *)
Definition print_tab (tab : value) : Proc unit :=
  if is_nothing tab then raise (ThrownError (cannot_read tab "active"))
  else
    let marker := if truthy (property tab "active") then c green arrow else " " in
    index <- text (property tab "index") ;;
    let idx := c cyan ("[" ++ index ++ "]") in
    title <- (if truthy (property tab "title")
              then text (property tab "title")
              else done (c dim "(untitled)")) ;;
    log [Str (marker ++ " " ++ idx ++ " " ++ title)] ;;
    if truthy (property tab "url")
    then url <- text (property tab "url") ;;
         log [Str (c dim ("     " ++ url))]
    else done tt.

Fixpoint forEach (f : value -> Proc unit) (elems : list value) : Proc unit :=
  match elems with
  | [] => done tt
  | e :: rest => f e ;; forEach f rest
  end.

(** The pretty printer of [printResponse], for the data of a success
    response. *)
Definition print_data (data : value) : Proc unit :=
  if is_nothing data then raise (ThrownError (cannot_read data "url"))
  else
    let get := property data in
    let tick := Str (c green check_mark) in
    if truthy (get "url") && truthy (get "title") then
      title <- text (get "title") ;;
      log [tick; Str (c bold title)] ;;
      url <- text (get "url") ;;
      log [Str (c dim ("  " ++ url))]
    else if truthy (get "html") then log [get "html"]
    else if truthy (get "snapshot") then log [get "snapshot"]
    else if negb (is_undefined (get "result")) then
      if typeof_object (get "result")
      then log [Str (JSON_stringify_indented (get "result"))]
      else log [get "result"]
    else if truthy (get "base64") then
      log [tick; Str "Screenshot captured (base64)"] ;;
      size <- text (length_of (get "base64")) ;;
      log [Str (c dim ("  " ++ size ++ " bytes"))]
    else if truthy (get "path") then
      path <- text (get "path") ;;
      log [tick; Str ("Saved to " ++ path)]
    else if truthy (get "clicked") || truthy (get "typed") || truthy (get "pressed")
            || truthy (get "hovered") || truthy (get "scrolled")
            || truthy (get "selected") || truthy (get "waited") then
      log [tick; Str "Done"]
    else if truthy (get "launched") then log [tick; Str "Browser launched"]
    else if match get "closed" with Bool true => true | _ => false end then
      log [tick; Str "Browser closed"]
    else if truthy (get "tabs") then
      match get "tabs" with
      | Arr tabs => forEach print_tab tabs
      | _ => raise (ThrownError (not_a_function "tabs.forEach"))
      end
    else if negb (is_undefined (get "index")) && negb (is_undefined (get "total")) then
      index <- text (get "index") ;;
      total <- text (get "total") ;;
      log [tick; Str ("Tab " ++ index ++ " created (" ++ total ++ " total)")]
    else if negb (is_undefined (get "remaining")) then
      remaining <- text (get "remaining") ;;
      log [tick; Str ("Tab closed (" ++ remaining ++ " remaining)")]
    else log [tick; Str (JSON_stringify data)].

Definition printResponse (response : Response) (jsonMode : bool) : Proc unit :=
  if jsonMode then log [Str (JSON_stringify (Response_toJS response))]
  else
    match response with
    | ErrorResponse _ error =>
        ([Error [Str (c red (ballot_cross ++ " Error:")); Str error]], Exited 1)
    | SuccessResponse _ data => print_data data
    end.

(** The end of [main]: the command is sent, the response printed, and the
    process left.  [reply] is what [send] came back with, and [sent] what
    had been written by then: the debug output that [setDebug] switches on
    and [send] writes ([client.ts] is not among the sources).  The result is
    all that was written, and the exit code; where the conversion of the
    thrown value throws inside the [catch], nothing catches it and [main]
    ends in that. *)
Definition finish (jsonMode : bool) (id : string) (sent : list Output)
           (reply : Outcome Response) : list Output * Outcome nat :=
  let caught (out : list Output) (error : Thrown) : list Output * Outcome nat :=
    match error_message error with
    | Returned message =>
        ((out ++ [if jsonMode
                  then Log [Str (JSON_stringify
                                   (Obj [("id", Str id); ("success", Bool false);
                                         ("error", Str message)]))]
                  else Error [Str (c red (ballot_cross ++ " Error:")); Str message]])%list,
         Returned 1%nat)
    | Threw e => (out, Threw e)
    end in
  match reply with
  | Returned response =>
      match printResponse response jsonMode with
      | (out, Done _) => ((sent ++ out)%list, Returned 0%nat)
      | (out, Exited code) => ((sent ++ out)%list, Returned code)
      | (out, Raised error) => caught (sent ++ out)%list error
      end
  | Threw error => caught sent error
  end.

End WithEngine.

(** The lines written to standard error. *)
Definition is_error (o : Output) : bool :=
  match o with Error _ => true | Log _ => false end.

(** What a computation wrote went to standard output only, it did not
    leave the process, and if it threw, it threw an [Error]. *)
Definition quiet {A} (p : Proc A) : Prop :=
  Forall (fun o => is_error o = false) (fst p)
  /\ (forall code, snd p <> Exited code)
  /\ (forall v, snd p <> Raised (ThrownValue v)).

End Terminal.

(* ===================================================================== *)
(** * The CLI: the sessions that are alive *)
(* ===================================================================== *)

Module Sessions.

(** The file system and the process table as [listSessions] reads them,
    and the two library functions it calls on texts and paths. *)
Class Host : Type := {
  tmpdir : string;                                  (* [os.tmpdir()] *)
  readdirSync : string -> Outcome (list string);    (* [fs.readdirSync(dir)] *)
  readFileSync : string -> Outcome string;          (* [fs.readFileSync(file, 'utf8')] *)
  path_join : string -> string -> string;           (* [path.join(dir, file)] *)
  trim : string -> string;                          (* [text.trim()] *)
  kill : number -> Outcome unit                     (* [process.kill(pid, 0)] *)
}.

(** A line terminator occurs in the text: a line feed, a carriage return,
    U+2028 or U+2029 (in UTF-8 the bytes 226 128 168 and 226 128 169).  These
    are the characters the dot of a regular expression does not match. *)
Fixpoint has_line_terminator (s : string) : bool :=
  match s with
  | EmptyString => false
  | String a rest =>
      Nat.eqb (nat_of_ascii a) 10 || Nat.eqb (nat_of_ascii a) 13
      || match rest with
         | String b (String d _) =>
             Nat.eqb (nat_of_ascii a) 226 && Nat.eqb (nat_of_ascii b) 128
             && (Nat.eqb (nat_of_ascii d) 168 || Nat.eqb (nat_of_ascii d) 169)
         | _ => false
         end
      || has_line_terminator rest
  end.

(** [s.endsWith(suffix)], giving what stands before the suffix *)
Fixpoint before_suffix (suffix s : string) : option string :=
  if String.eqb s suffix then Some EmptyString
  else match s with
       | EmptyString => None
       | String a rest =>
           match before_suffix suffix rest with
           | Some front => Some (String a front)
           | None => None
           end
       end.

(** [s.startsWith(start)], giving what stands after the start *)
Fixpoint after_prefix (start s : string) : option string :=
  match start, s with
  | EmptyString, _ => Some s
  | String a start', String b s' => if Ascii.eqb a b then after_prefix start' s' else None
  | String _ _, EmptyString => None
  end.

(** [file.match(/^veb-(.+)\.pid$/)]: the first group of the match, when
    there is one. *)
Definition session_of (file : string) : option string :=
  match after_prefix "veb-" file with
  | Some rest =>
      match before_suffix ".pid" rest with
      | Some name =>
          if String.eqb name "" || has_line_terminator name then None else Some name
      | None => None
      end
  | None => None
  end.

Section WithHost.
Context {rt : JSRuntime} {host : Host}.

Definition listSessions : list string :=
  match readdirSync tmpdir with
  | Returned files =>
      flat_map
        (fun file =>
           match session_of file with
           | Some name =>
               match readFileSync (path_join tmpdir file) with
               | Returned text =>
                   match kill (Cli.parseInt (Some (trim text))) with
                   | Returned _ => [name]
                   | Threw _ => []
                   end
               | Threw _ => []
               end
           | None => []
           end) files
  | Threw _ => []
  end.

End WithHost.

End Sessions.

(* ===================================================================== *)
(** * An engine and a host to run the CLI against *)
(* ===================================================================== *)

(** An engine whose indented JSON is not indented; the lengths are counted
    in bytes. *)
Definition test_engine : Terminal.Engine := {|
  Terminal.JSON_stringify_indented := RefRuntime.stringify;
  Terminal.String_length := fun s => number_of_nat (String.length s);
  Terminal.cannot_read := fun v k =>
    "Cannot read properties of " ++ match v with Null => "null" | _ => "undefined" end
    ++ " (reading '" ++ k ++ "')";
  Terminal.not_a_function := fun f => f ++ " is not a function"
|}.

(** A temporary directory with the pid files of two sessions and one other
    file; only process 4242 is alive. *)
Definition two_pid_files : Sessions.Host := {|
  Sessions.tmpdir := "/tmp";
  Sessions.readdirSync := fun _ =>
    Returned ["veb-default.pid"; "notes.txt"; "veb-agent1.pid"; "veb-.pid"];
  Sessions.readFileSync := fun file =>
    if String.eqb file "/tmp/veb-default.pid" then Returned "4242"
    else if String.eqb file "/tmp/veb-agent1.pid" then Returned "17"
    else Threw (ThrownError "ENOENT");
  Sessions.path_join := fun dir file => dir ++ "/" ++ file;
  Sessions.trim := fun text => text;
  Sessions.kill := fun pid =>
    match pid with
    | Finite q => if Qeq_bool q 4242 then Returned tt else Threw (ThrownError "ESRCH")
    | _ => Threw (ThrownError "ERR_INVALID_ARG_TYPE")
    end
|}.

(** A list of two tabs, the second of which is [null]. *)
Definition tabs_with_null : value :=
  Obj [("tabs",
        Arr [Obj [("index", Num (Finite 0)); ("url", Str "about:blank");
                  ("title", Str ""); ("active", Bool true)];
             Null]);
       ("active", Num (Finite 0))].
(* ===================================================================== *)
(** * Properties of the validator *)
(* ===================================================================== *)

Section SchemaFacts.
Context {rt : JSRuntime}.

Lemma fold_merge_status_valid (l : list ParseStatus) (a : ParseStatus) :
  fold_left merge_status l a = valid <-> a = valid /\ Forall (fun s => s = valid) l.
Proof.
  revert a. induction l as [| s l IH]; intros a; simpl.
  - split; [ auto | tauto ].
  - rewrite IH. split.
    + intros [Hm Hl]. destruct a, s; try discriminate. auto.
    + intros [-> Hl]. inversion Hl; subst. auto.
Qed.

(** An object is valid exactly when each of its fields is. *)
Lemma mergeObjectSync_valid (pairs : list (string * ParseReturn * bool)) :
  status (mergeObjectSync pairs) = valid
  <-> Forall (fun kr => status (snd (fst kr)) = valid) pairs.
Proof.
  unfold mergeObjectSync. simpl. rewrite fold_merge_status_valid.
  rewrite Forall_map. tauto.
Qed.

Lemma mergeArray_valid (results : list ParseReturn) :
  status (mergeArray results) = valid <-> Forall (fun r => status r = valid) results.
Proof.
  unfold mergeArray. simpl. rewrite fold_merge_status_valid.
  rewrite Forall_map. tauto.
Qed.

Lemma pick_option_find A (s d : string) (f : ZodType -> A) (options : list ZodType) :
  pick_option (Str s) (map (fun t' => (discriminator_of d t', f t')) options)
  = option_map f
      (find (fun t => match discriminator_of d t with
                      | Some lit => String.eqb s lit
                      | None => false
                      end) options).
Proof.
  unfold pick_option.
  induction options as [| t rest IH]; simpl; [ reflexivity | ].
  destruct (discriminator_of d t) as [lit |]; [ destruct (String.eqb s lit) | ];
    try reflexivity; exact IH.
Qed.

Lemma zparse_discriminated (d : string) (ts : list ZodType) (p : list PathElem)
      (props : list (string * value)) :
  zparse (ZDiscriminatedUnion d ts) p (Obj props)
  = match pick_option (read_prop d props)
            (map (fun t' => (discriminator_of d t', zparse t' p (Obj props))) ts)
    with
    | Some r => r
    | None =>
        INVALID [mkIssue invalid_union_discriminator (p ++ [Key d])%list
                   ("Invalid discriminator value. Expected "
                    ++ joinValues (option_keys d ts))]
    end.
Proof. reflexivity. Qed.

(** An object whose action tag is in the catalogue is parsed by the schema
    of that tag. *)
Lemma command_dispatch (props : list (string * value)) (tag : string)
      (shape : list (string * ZodType)) (p : list PathElem) :
  read_prop "action" props = Str tag ->
  catalogue tag = Some shape ->
  zparse commandSchema p (Obj props) = zparse (ZObject shape) p (Obj props).
Proof.
  intros Htag Hcat. unfold catalogue in Hcat.
  unfold commandSchema, z_discriminatedUnion.
  rewrite zparse_discriminated.
  rewrite Htag, pick_option_find.
  destruct (find _ commandSchemas) as [t |]; [ | discriminate ].
  destruct t; try discriminate. inversion Hcat; subst. reflexivity.
Qed.

Lemma zparse_object (shape : list (string * ZodType)) (p : list PathElem)
      (props : list (string * value)) :
  zparse (ZObject shape) p (Obj props) = mergeObjectSync (map (field_result p props) shape).
Proof. reflexivity. Qed.

(** A command object is valid exactly when every field its tag declares is. *)
Lemma command_valid_iff (props : list (string * value)) (tag : string)
      (shape : list (string * ZodType)) :
  read_prop "action" props = Str tag ->
  catalogue tag = Some shape ->
  (status (zparse commandSchema [] (Obj props)) = valid
   <-> Forall (fun kt => status (zparse (snd kt) [Key (fst kt)] (read_prop (fst kt) props))
                         = valid) shape).
Proof.
  intros Htag Hcat.
  rewrite (command_dispatch props [] Htag Hcat), zparse_object, mergeObjectSync_valid.
  rewrite Forall_map. reflexivity.
Qed.

Lemma accepts_valid (t : ZodType) (v : value) :
  accepts t v = true <-> status (zparse t [] v) = valid.
Proof.
  unfold accepts. destruct (status (zparse t [] v)); split; congruence.
Qed.

Lemma read_action (c : Command) :
  read_prop "action" (Command_props c) = Str (command_action c).
Proof. reflexivity. Qed.

(** In a valid command every field the schema of its action declares is
    valid. *)
Lemma valid_command_field (c : Command) (shape : list (string * ZodType))
      (k : string) (t : ZodType) :
  catalogue (command_action c) = Some shape ->
  valid_command c ->
  In (k, t) shape ->
  status (zparse t [Key k] (read_prop k (Command_props c))) = valid.
Proof.
  intros Hcat Hvalid Hin.
  unfold valid_command in Hvalid. rewrite accepts_valid in Hvalid.
  unfold Command_toJS in Hvalid.
  rewrite (command_valid_iff _ (read_action c) Hcat) in Hvalid.
  rewrite Forall_forall in Hvalid. exact (Hvalid (k, t) Hin).
Qed.

(** ** Induction on schemas *)

(** The schemas nest through lists; the induction hypothesis is wanted for
    every member of those lists. *)
Lemma ZodType_induction (P : ZodType -> Prop) :
  (forall m, P (ZString m)) ->
  (forall cs, P (ZNumber cs)) ->
  P ZBoolean ->
  P ZUnknown ->
  (forall s, P (ZLiteral s)) ->
  (forall vs, P (ZEnum vs)) ->
  (forall t, P t -> P (ZArray t)) ->
  (forall t, P t -> P (ZOptional t)) ->
  (forall ts, Forall P ts -> P (ZUnion ts)) ->
  (forall shape, Forall (fun kt => P (snd kt)) shape -> P (ZObject shape)) ->
  (forall d ts, Forall P ts -> P (ZDiscriminatedUnion d ts)) ->
  forall t, P t.
Proof.
  intros Hstr Hnum Hbool Hunk Hlit Henum Harr Hopt Huni Hobj Hdis.
  fix IH 1. intros t.
  destruct t as [m | cs | | | s | vs | t | t | ts | shape | d ts].
  - apply Hstr.
  - apply Hnum.
  - apply Hbool.
  - apply Hunk.
  - apply Hlit.
  - apply Henum.
  - apply Harr, IH.
  - apply Hopt, IH.
  - apply Huni. induction ts as [| t ts IHts]; constructor; [ apply IH | exact IHts ].
  - apply Hobj. induction shape as [| [k t] shape IHs]; constructor;
      [ apply IH | exact IHs ].
  - apply Hdis. induction ts as [| t ts IHts]; constructor; [ apply IH | exact IHts ].
Qed.

(** ** What a failed parse reports *)

Lemma flat_map_empty A B (f : A -> list B) (l : list A) :
  flat_map f l = [] -> forall x, In x l -> f x = [].
Proof.
  induction l as [| a l IH]; simpl; intros Hnil x Hin; [ contradiction | ].
  apply app_eq_nil in Hnil. destruct Hnil as [Ha Hl].
  destruct Hin as [<- | Hin]; auto.
Qed.

Lemma fold_merge_status_not_valid (l : list ParseReturn) :
  fold_left merge_status (map status l) valid <> valid ->
  exists r, In r l /\ status r <> valid.
Proof.
  intros H. rewrite fold_merge_status_valid in H.
  assert (Hex : Exists (fun r => status r <> valid) l).
  { apply neg_Forall_Exists_neg.
    - intros r. destruct (status r); [ left | right | right ]; congruence.
    - intros Hall. apply H. split; [ reflexivity | ].
      rewrite Forall_map. exact Hall. }
  apply Exists_exists in Hex. exact Hex.
Qed.

Lemma mergeObjectSync_not_valid (pairs : list (string * ParseReturn * bool)) :
  status (mergeObjectSync pairs) <> valid ->
  exists kr, In kr pairs /\ status (snd (fst kr)) <> valid.
Proof.
  intros H. rewrite mergeObjectSync_valid in H.
  apply neg_Forall_Exists_neg in H.
  - apply Exists_exists in H. exact H.
  - intros kr. destruct (status (snd (fst kr))); [ left | right | right ]; congruence.
Qed.

(** A parse that is not valid has pushed at least one issue. *)
Lemma zparse_rejects_with_issue (t : ZodType) :
  forall (p : list PathElem) (v : value),
    status (zparse t p v) <> valid -> issues (zparse t p v) <> [].
Proof.
  induction t as [m | cs | | | s | vs | t IHt | t IHt | ts IHts | shape IHs | d ts IHts]
    using ZodType_induction; intros p v Hst.
  - destruct v; simpl in *; try discriminate.
    destruct m as [n |]; [ | contradiction ].
    destruct (Nat.ltb (String.length s) n); simpl in *; [ discriminate | contradiction ].
  - destruct v as [| | b | n | s | es | ps]; simpl in *; try discriminate.
    destruct n; simpl in *; try discriminate;
      destruct (flat_map _ cs); simpl in *; try contradiction; discriminate.
  - destruct v; simpl in *; try discriminate; contradiction.
  - simpl in Hst. contradiction.
  - destruct v; simpl in *; try discriminate.
    destruct (String.eqb s0 s); simpl in *; [ contradiction | discriminate ].
  - destruct v; simpl in *; try discriminate.
    destruct (existsb _ vs); simpl in *; [ contradiction | discriminate ].
  - destruct v as [| | b | n | s | es | ps]; simpl in *; try discriminate.
    apply fold_merge_status_not_valid in Hst.
    destruct Hst as [r [Hin Hr]].
    apply in_map_iff in Hin. destruct Hin as [[i e] [<- Hie]].
    specialize (IHt _ _ Hr).
    intros Hnil. apply IHt.
    apply (flat_map_empty _ _ Hnil).
    apply in_map_iff. exists (i, e). auto.
  - destruct v; simpl in *; try contradiction; apply IHt; exact Hst.
  - simpl in *. unfold union_result in *.
    destruct (find _ (map _ ts)) as [r |] eqn:Hvalid; [ simpl in Hst; contradiction | ].
    destruct (find (fun r => match status r with dirty => true | _ => false end)
                   (map (fun t' => zparse t' p v) ts)) as [r |] eqn:Hdirty;
      [ | simpl; discriminate ].
    apply find_some in Hdirty. destruct Hdirty as [Hin Hr].
    apply in_map_iff in Hin. destruct Hin as [t' [<- Ht']].
    rewrite Forall_forall in IHts. apply (IHts t' Ht'). exact Hst.
  - destruct v as [| | b | n | s | es | ps]; try (simpl in *; discriminate).
    rewrite zparse_object in *. unfold field_result in *.
    apply mergeObjectSync_not_valid in Hst.
    destruct Hst as [[[k r'] b'] [Hin Hr]]. simpl in Hr.
    apply in_map_iff in Hin. destruct Hin as [[k' t'] [Heq Hin]].
    inversion Heq; subst; clear Heq.
    rewrite Forall_forall in IHs. specialize (IHs _ Hin _ _ Hr).
    intros Hnil. apply IHs.
    exact (flat_map_empty _ _ Hnil _ (in_map _ _ _ Hin)).
  - destruct v as [| | b | n | s | es | ps]; try (simpl in *; discriminate).
    rewrite zparse_discriminated in *.
    destruct (read_prop d ps) as [| | b | n | s | es' | ps'] eqn:Hd;
      try (simpl in *; discriminate).
    rewrite pick_option_find in *.
    destruct (find _ ts) as [t' |] eqn:Hfind; simpl in *; [ | discriminate ].
    apply find_some in Hfind. destruct Hfind as [Hin _].
    rewrite Forall_forall in IHts. apply (IHts t' Hin). exact Hst.
Qed.

(** Every issue carries a path that extends the path of the value parsed. *)
Lemma zparse_issue_paths (t : ZodType) :
  forall (p : list PathElem) (v : value) (e : ZodIssue),
    In e (issues (zparse t p v)) -> exists rest, path e = (p ++ rest)%list.
Proof.
  assert (Hhere : forall (p : list PathElem) (e e' : ZodIssue),
             path e' = p -> In e [e'] -> exists rest, path e = (p ++ rest)%list).
  { intros p e e' Hp [<- | []]. exists []. rewrite app_nil_r. exact Hp. }
  assert (Htype : forall p expected v, path (invalid_type_issue p expected v) = p).
  { intros. reflexivity. }
  induction t as [m | cs | | | s | vs | t IHt | t IHt | ts IHts | shape IHs | d ts IHts]
    using ZodType_induction; intros p v e Hin.
  - destruct v; simpl in Hin; try (eapply Hhere; [ | exact Hin ]; reflexivity).
    destruct m as [n |]; [ | contradiction ].
    destruct (Nat.ltb (String.length s) n); simpl in Hin; [ | contradiction ].
    eapply Hhere; [ | exact Hin ]; reflexivity.
  - destruct v as [| | b | n | s | es | ps]; simpl in Hin;
      try (eapply Hhere; [ | exact Hin ]; reflexivity).
    assert (Hchecks : In e (flat_map (number_check_issue p n) cs) ->
                      exists rest, path e = (p ++ rest)%list).
    { intros H. apply in_flat_map in H. destruct H as [c [_ Hc]].
      destruct c as [b inc | b inc]; simpl in Hc;
        match type of Hc with
        | In _ (if ?x then _ else _) => destruct x
        end; try contradiction; (eapply Hhere; [ | exact Hc ]; reflexivity). }
    destruct n; simpl in Hin;
      try (eapply Hhere; [ | exact Hin ]; reflexivity);
      destruct (flat_map _ cs) eqn:Hfm; simpl in Hin; try contradiction;
      apply Hchecks; exact Hin.
  - destruct v; simpl in Hin; try contradiction;
      (eapply Hhere; [ | exact Hin ]; reflexivity).
  - simpl in Hin. contradiction.
  - destruct v; simpl in Hin; try (eapply Hhere; [ | exact Hin ]; reflexivity).
    destruct (String.eqb s0 s); simpl in Hin; [ contradiction | ].
    eapply Hhere; [ | exact Hin ]; reflexivity.
  - destruct v; simpl in Hin; try (eapply Hhere; [ | exact Hin ]; reflexivity).
    destruct (existsb _ vs); simpl in Hin; [ contradiction | ].
    eapply Hhere; [ | exact Hin ]; reflexivity.
  - destruct v as [| | b | n | s | es | ps]; simpl in Hin;
      try (eapply Hhere; [ | exact Hin ]; reflexivity).
    apply in_flat_map in Hin. destruct Hin as [r [Hr He]].
    apply in_map_iff in Hr. destruct Hr as [[i x] [<- _]].
    apply IHt in He. destruct He as [rest Hrest]. simpl in Hrest.
    exists (Index i :: rest). rewrite Hrest, <- app_assoc. reflexivity.
  - destruct v; simpl in Hin; try contradiction; apply IHt in Hin; exact Hin.
  - simpl in Hin. unfold union_result in Hin.
    destruct (find _ (map _ ts)) as [r |] eqn:Hvalid; [ simpl in Hin; contradiction | ].
    destruct (find (fun r => match status r with dirty => true | _ => false end)
                   (map (fun t' => zparse t' p v) ts)) as [r |] eqn:Hdirty.
    + apply find_some in Hdirty. destruct Hdirty as [Hr _].
      apply in_map_iff in Hr. destruct Hr as [t' [<- Ht']].
      rewrite Forall_forall in IHts. apply (IHts t' Ht' _ _ _ Hin).
    + eapply Hhere; [ | exact Hin ]; reflexivity.
  - destruct v as [| | b | n | s | es | ps];
      try (simpl in Hin; eapply Hhere; [ | exact Hin ]; reflexivity).
    rewrite zparse_object in Hin. simpl in Hin.
    apply in_flat_map in Hin. destruct Hin as [[[k r] b'] [Hr He]]. simpl in He.
    apply in_map_iff in Hr. destruct Hr as [[k' t'] [Heq Hkt]].
    unfold field_result in Heq. inversion Heq; subst; clear Heq.
    rewrite Forall_forall in IHs. apply (IHs _ Hkt) in He.
    destruct He as [rest Hrest]. simpl in Hrest.
    exists (Key k :: rest). rewrite Hrest, <- app_assoc. reflexivity.
  - destruct v as [| | b | n | s | es | ps];
      try (simpl in Hin; eapply Hhere; [ | exact Hin ]; reflexivity).
    rewrite zparse_discriminated in Hin.
    destruct (read_prop d ps) as [| | b | n | s | es' | ps'] eqn:Hd;
      try (simpl in Hin; destruct Hin as [<- | []]; exists [Key d]; reflexivity).
    rewrite pick_option_find in Hin.
    destruct (find _ ts) as [t' |] eqn:Hfind; simpl in Hin.
    + apply find_some in Hfind. destruct Hfind as [Ht' _].
      rewrite Forall_forall in IHts. apply (IHts t' Ht' _ _ _ Hin).
    + destruct Hin as [<- | []]. exists [Key d]. reflexivity.
Qed.


(** A rejected field of a catalogued command makes the command invalid, with
    an issue whose path starts at that field. *)
Lemma rejected_field_reported (props : list (string * value)) (tag : string)
      (shape : list (string * ZodType)) (k : string) (t : ZodType) :
  read_prop "action" props = Str tag ->
  catalogue tag = Some shape ->
  In (k, t) shape ->
  field_rejected k t props ->
  status (zparse commandSchema [] (Obj props)) <> valid
  /\ exists e rest,
      In e (issues (zparse commandSchema [] (Obj props))) /\ path e = Key k :: rest.
Proof.
  intros Htag Hcat Hin Hrej. unfold field_rejected in Hrej.
  split.
  - rewrite (command_valid_iff _ Htag Hcat), Forall_forall.
    intros Hall. apply Hrej. exact (Hall (k, t) Hin).
  - rewrite (command_dispatch _ [] Htag Hcat), zparse_object.
    pose proof (zparse_rejects_with_issue _ _ _ Hrej) as Hsome.
    destruct (issues (zparse t [Key k] (read_prop k props))) as [| e es] eqn:He;
      [ congruence | ].
    assert (Hine : In e (issues (zparse t [Key k] (read_prop k props)))).
    { rewrite He. left. reflexivity. }
    pose proof (zparse_issue_paths _ _ _ _ Hine) as [rest Hrest].
    exists e, rest. split; [ | exact Hrest ].
    simpl. apply in_flat_map.
    exists (field_result [] props (k, t)). split.
    + apply in_map. exact Hin.
    + exact Hine.
Qed.

(** A field whose type does not let [undefined] through is rejected when it
    is left out. *)
Lemma required_rejects_undefined (t : ZodType) :
  forall p, accepts_undefined t = false -> status (zparse t p Undefined) <> valid.
Proof.
  induction t as [m | cs | | | s | vs | t IHt | t IHt | ts IHts | shape IHs | d ts IHts]
    using ZodType_induction; intros p Hreq; simpl in *; try discriminate.
  unfold union_result.
  destruct (find _ (map _ ts)) as [r |] eqn:Hvalid.
  - exfalso. apply find_some in Hvalid. destruct Hvalid as [Hr Hst].
    apply in_map_iff in Hr. destruct Hr as [t' [<- Ht']].
    rewrite Forall_forall in IHts.
    assert (Hno : accepts_undefined t' = false).
    { destruct (accepts_undefined t') eqn:Ha; [ | reflexivity ].
      assert (existsb accepts_undefined ts = true)
        by (apply existsb_exists; exists t'; auto).
      congruence. }
    apply (IHts t' Ht' p Hno).
    destruct (status (zparse t' p Undefined)); congruence.
  - destruct (find (fun r => match status r with dirty => true | _ => false end)
                   (map (fun t' => zparse t' p Undefined) ts)) as [r |] eqn:Hdirty.
    + apply find_some in Hdirty. destruct Hdirty as [_ Hst].
      destruct (status r); congruence.
    + simpl. discriminate.
Qed.

Lemma missing_required_rejected (k : string) (t : ZodType) (props : list (string * value)) :
  get_prop k props = None -> accepts_undefined t = false -> field_rejected k t props.
Proof.
  intros Hnone Hreq. unfold field_rejected, read_prop. rewrite Hnone.
  apply required_rejects_undefined. exact Hreq.
Qed.

(** ** What an accepted value comes back as *)

Lemma map_snd_combine_seq A (l : list A) (n : nat) :
  map snd (combine (seq n (length l)) l) = l.
Proof.
  revert n. induction l as [| a l IH]; intros n; simpl; [ reflexivity | ].
  rewrite IH. reflexivity.
Qed.

Lemma map_ext_Forall A B (f g : A -> B) (l : list A) :
  Forall (fun a => f a = g a) l -> map f l = map g l.
Proof.
  induction 1 as [| a l Ha _ IH]; simpl; [ reflexivity | ].
  rewrite Ha, IH. reflexivity.
Qed.

Lemma flat_map_ext_Forall A B (f g : A -> list B) (l : list A) :
  Forall (fun a => f a = g a) l -> flat_map f l = flat_map g l.
Proof.
  induction 1 as [| a l Ha _ IH]; simpl; [ reflexivity | ].
  rewrite Ha, IH. reflexivity.
Qed.

Lemma zparse_array (t : ZodType) (p : list PathElem) (es : list value) :
  zparse (ZArray t) p (Arr es)
  = mergeArray (map (fun ie => zparse t (p ++ [Index (fst ie)])%list (snd ie))
                    (indexed es)).
Proof. reflexivity. Qed.

Lemma merge_valid_output_array (results : list ParseReturn) :
  status (mergeArray results) = valid ->
  output (mergeArray results) = Arr (map output results).
Proof.
  unfold mergeArray. simpl. intros ->. reflexivity.
Qed.

(** A type with no object inside returns what it accepts. *)
Lemma zparse_valid_leaf (t : ZodType) :
  object_free t = true ->
  forall (p : list PathElem) (v : value),
    status (zparse t p v) = valid -> output (zparse t p v) = v.
Proof.
  induction t as [m | cs | | | s | vs | t IHt | t IHt | ts IHts | shape IHs | d ts IHts]
    using ZodType_induction; intros Hfree p v Hst; simpl in Hfree; try discriminate.
  - destruct v; simpl in *; try discriminate.
    destruct m as [n |]; [ | reflexivity ].
    destruct (Nat.ltb (String.length s) n); simpl in *; [ discriminate | reflexivity ].
  - destruct v as [| | b | n | s | es | ps]; simpl in *; try discriminate.
    destruct n; simpl in *; try discriminate;
      destruct (flat_map _ cs); simpl in *; try discriminate; reflexivity.
  - destruct v; simpl in *; try discriminate; reflexivity.
  - reflexivity.
  - destruct v; simpl in *; try discriminate.
    destruct (String.eqb s0 s); simpl in *; [ reflexivity | discriminate ].
  - destruct v; simpl in *; try discriminate.
    destruct (existsb _ vs); simpl in *; [ reflexivity | discriminate ].
  - destruct v as [| | b | n | s | es | ps]; try (simpl in *; discriminate).
    rewrite zparse_array in Hst |- *.
    rewrite (merge_valid_output_array _ Hst).
    apply mergeArray_valid in Hst. rewrite Forall_map in Hst.
    rewrite map_map. f_equal.
    rewrite <- (map_snd_combine_seq es 0) at 2.
    apply map_ext_Forall. unfold indexed in Hst |- *.
    eapply Forall_impl; [ | exact Hst ].
    intros ie Hie. apply (IHt Hfree). exact Hie.
  - destruct v; simpl in *; try reflexivity; apply (IHt Hfree); exact Hst.
  - simpl in *. unfold union_result in *.
    destruct (find _ (map _ ts)) as [r |] eqn:Hvalid.
    + simpl. apply find_some in Hvalid. destruct Hvalid as [Hr Hrv].
      apply in_map_iff in Hr. destruct Hr as [t' [<- Ht']].
      rewrite Forall_forall in IHts. rewrite forallb_forall in Hfree.
      apply (IHts t' Ht' (Hfree t' Ht')).
      destruct (status (zparse t' p v)); congruence.
    + destruct (find (fun r => match status r with dirty => true | _ => false end)
                     (map (fun t' => zparse t' p v) ts)) as [r |] eqn:Hdirty.
      * apply find_some in Hdirty. destruct Hdirty as [_ Hr].
        rewrite Hst in Hr. discriminate.
      * simpl in Hst. discriminate.
Qed.

Lemma normal_undefined (t : ZodType) : normal t Undefined = Undefined.
Proof.
  induction t using ZodType_induction; simpl; auto.
Qed.

Lemma object_free_normal (t : ZodType) (v : value) :
  object_free t = true -> normal t v = v.
Proof.
  induction t using ZodType_induction; simpl; intros Hfree; try discriminate; auto.
Qed.

Lemma merge_valid_output_object (pairs : list (string * ParseReturn * bool)) :
  status (mergeObjectSync pairs) = valid ->
  output (mergeObjectSync pairs)
  = Obj (flat_map
           (fun kr =>
              match kr with
              | (k, r, alwaysSet) =>
                  match output r, alwaysSet with
                  | Undefined, false => []
                  | v, _ => if String.eqb k "__proto__" then [] else [(k, v)]
                  end
              end) pairs).
Proof.
  unfold mergeObjectSync. simpl. intros ->. reflexivity.
Qed.

(** An accepted value comes back in normal form. *)
Lemma zparse_valid_normal (t : ZodType) :
  plain t = true ->
  forall (p : list PathElem) (v : value),
    status (zparse t p v) = valid -> output (zparse t p v) = normal t v.
Proof.
  induction t as [m | cs | | | s | vs | t IHt | t IHt | ts IHts | shape IHs | d ts IHts]
    using ZodType_induction; intros Hplain p v Hst;
    try (apply zparse_valid_leaf; [ reflexivity | exact Hst ]).
  - rewrite object_free_normal by exact Hplain.
    apply zparse_valid_leaf; [ exact Hplain | exact Hst ].
  - simpl in Hplain. destruct v; simpl in Hst |- *;
      try (apply (IHt Hplain); exact Hst).
    symmetry. apply normal_undefined.
  - rewrite object_free_normal by exact Hplain.
    apply zparse_valid_leaf; [ exact Hplain | exact Hst ].
  - destruct v as [| | b | n | s | es | ps]; try (simpl in Hst; discriminate).
    rewrite zparse_object in Hst |- *.
    rewrite (merge_valid_output_object _ Hst).
    apply mergeObjectSync_valid in Hst. rewrite Forall_map in Hst.
    simpl. f_equal. rewrite flat_map_concat_map, map_map, <- flat_map_concat_map.
    apply flat_map_ext_Forall.
    simpl in Hplain. rewrite forallb_forall in Hplain.
    rewrite Forall_forall in IHs, Hst |- *.
    intros [k t'] Hin. specialize (Hst _ Hin). simpl in Hst |- *.
    pose proof (IHs _ Hin (Hplain _ Hin) _ _ Hst) as Hout.
    simpl in Hout. rewrite Hout.
    unfold read_prop, has_prop.
    destruct (get_prop k ps) as [x |].
    + destruct (normal t' x); reflexivity.
    + rewrite normal_undefined. reflexivity.
  - destruct v as [| | b | n | s | es | ps]; try (simpl in Hst; discriminate).
    rewrite zparse_discriminated in Hst |- *.
    simpl normal.
    destruct (read_prop d ps) as [| | b | n | s | es' | ps'] eqn:Hd;
      try (simpl in Hst; discriminate).
    rewrite pick_option_find in Hst |- *. rewrite pick_option_find.
    destruct (find _ ts) as [t' |] eqn:Hfind; simpl in Hst |- *; [ | discriminate ].
    apply find_some in Hfind. destruct Hfind as [Ht' _].
    simpl in Hplain. rewrite forallb_forall in Hplain.
    rewrite Forall_forall in IHts.
    apply (IHts t' Ht' (Hplain t' Ht')). exact Hst.
Qed.

End SchemaFacts.
(* ===================================================================== *)
(** * Properties of [parseCommand] *)
(* ===================================================================== *)

Lemma append_assoc (a b c : string) : (a ++ b) ++ c = a ++ b ++ c.
Proof. induction a as [| ch a IH]; simpl; [ reflexivity | rewrite IH; reflexivity ]. Qed.

Lemma append_empty_r (a : string) : a ++ "" = a.
Proof. induction a as [| ch a IH]; simpl; [ reflexivity | rewrite IH; reflexivity ]. Qed.

Lemma mentions_self (k tail : string) : mentions (k ++ tail) k.
Proof. exists "", tail. reflexivity. Qed.

Lemma mentions_inside (a b c k : string) : mentions b k -> mentions (a ++ b ++ c) k.
Proof.
  intros [before [after ->]].
  exists (a ++ before), (after ++ c).
  rewrite !append_assoc. reflexivity.
Qed.

Lemma mentions_after (a b k : string) : mentions b k -> mentions (a ++ b) k.
Proof.
  intros H. rewrite <- (append_empty_r b). apply mentions_inside. exact H.
Qed.

(** A joined list mentions what each of its items mentions. *)
Lemma join_mentions (sep x k : string) (l : list string) :
  In x l -> mentions x k -> mentions (join sep l) k.
Proof.
  intros Hin Hx. induction l as [| a l IH]; [ contradiction | ].
  destruct Hin as [-> | Hin].
  - destruct l as [| b l]; simpl; [ exact Hx | ].
    change (mentions ("" ++ x ++ (sep ++ join sep (b :: l))) k).
    apply mentions_inside. exact Hx.
  - specialize (IH Hin). destruct l as [| b l]; [ contradiction | ].
    change (mentions (a ++ sep ++ join sep (b :: l)) k).
    apply mentions_after, mentions_after. exact IH.
Qed.

(** The text of an issue starts with the first element of its path. *)
Lemma format_issue_names_field (e : ZodIssue) (k : string) (rest : list PathElem) :
  path e = Key k :: rest -> mentions (format_issue e) k.
Proof.
  intros Hp. unfold format_issue. rewrite Hp.
  change (map path_elem_string (Key k :: rest)) with (k :: map path_elem_string rest).
  destruct (map path_elem_string rest) as [| b l].
  - apply mentions_self.
  - change (join "." (k :: b :: l)) with (k ++ "." ++ join "." (b :: l)).
    rewrite append_assoc. apply mentions_self.
Qed.

Section ProtocolFacts.
Context {rt : JSRuntime}.


(** An object that holds a [toString] of its own has no text: what JSON text
    can put there is no function. *)
Lemma String_own_toString (ps : list (string * value)) (x : value) :
  get_prop "toString" ps = Some x -> String_ (Obj ps) = None.
Proof. intros H. simpl. unfold has_prop. rewrite H. reflexivity. Qed.

(** The [id] that is taken from an object. *)
Lemma extract_id_absent (props : list (string * value)) :
  get_prop "id" props = None -> extract_id (Obj props) = Returned None.
Proof. intros H. unfold extract_id, has_prop. rewrite H. reflexivity. Qed.

Lemma extract_id_text (props : list (string * value)) (idv : value) (text : string) :
  get_prop "id" props = Some idv ->
  String_ idv = Some text ->
  extract_id (Obj props) = Returned (Some text).
Proof.
  intros Hid Htext. unfold extract_id, has_prop, read_prop, toString.
  rewrite Hid, Htext. reflexivity.
Qed.

Lemma extract_id_throws (props : list (string * value)) (idv : value) :
  get_prop "id" props = Some idv ->
  String_ idv = None ->
  extract_id (Obj props) = Threw (ThrownError cannot_convert).
Proof.
  intros Hid Htext. unfold extract_id, has_prop, read_prop, toString.
  rewrite Hid, Htext. reflexivity.
Qed.

(** What [parseCommand] answers when the schema rejects the parsed input. *)
Lemma parseCommand_invalid (input : string) (json : value) (id : option string) :
  JSON_parse input = Some json ->
  status (zparse commandSchema [] json) <> valid ->
  extract_id json = Returned id ->
  parseCommand input
  = Returned
      (ParseFailure
         ("Validation error: "
          ++ join ", " (map format_issue (issues (zparse commandSchema [] json))))
         id).
Proof.
  intros Hparse Hst Hid. unfold parseCommand, safeParse. rewrite Hparse, Hid.
  destruct (status (zparse commandSchema [] json)); [ congruence | | ]; reflexivity.
Qed.

(** Where the [id] cannot be converted, the conversion throws before the
    schema is consulted. *)
Lemma parseCommand_throws (input : string) (json : value) (e : Thrown) :
  JSON_parse input = Some json ->
  extract_id json = Threw e ->
  parseCommand input = Threw e.
Proof.
  intros Hparse Hid. unfold parseCommand. rewrite Hparse, Hid. reflexivity.
Qed.

(** C3, and where the code departs from it.  For every input whose action
    tag is in the catalogue and which omits a required field of that tag, or
    holds under a field a value that violates the field's constraint,
    [parseCommand] returns a failure as long as the input has no [id] or an
    [id] that [String] can convert: among the reported issues one has a path
    that starts with the offending field, so the error message names the
    field, and the failure carries the converted [id].  Where the [id] is an
    object that [String] cannot convert, one that holds a [toString] of its
    own for instance, [parseCommand] returns nothing: the conversion, which
    stands outside the [try], throws a [TypeError]. *)
Theorem parseCommand_rejects_bad_field (input : string) (props : list (string * value))
        (tag : string) (shape : list (string * ZodType)) (k : string) (t : ZodType) :
  JSON_parse input = Some (Obj props) ->
  read_prop "action" props = Str tag ->
  catalogue tag = Some shape ->
  In (k, t) shape ->
  (get_prop k props = None /\ accepts_undefined t = false) \/ field_rejected k t props ->
  let names_field (id : option string) :=
    exists errs : list ZodIssue,
      parseCommand input
      = Returned (ParseFailure ("Validation error: " ++ join ", " (map format_issue errs)) id)
      /\ (exists e rest, In e errs /\ path e = Key k :: rest)
      /\ mentions ("Validation error: " ++ join ", " (map format_issue errs)) k in
  (get_prop "id" props = None -> names_field None)
  /\ (forall idv text,
        get_prop "id" props = Some idv -> String_ idv = Some text ->
        names_field (Some text))
  /\ (forall idv,
        get_prop "id" props = Some idv -> String_ idv = None ->
        parseCommand input = Threw (ThrownError cannot_convert))
  /\ (forall ps x,
        get_prop "id" props = Some (Obj ps) -> get_prop "toString" ps = Some x ->
        parseCommand input = Threw (ThrownError cannot_convert)).
Proof.
  intros Hparse Htag Hcat Hin Hbad names_field.
  assert (Hrej : field_rejected k t props).
  { destruct Hbad as [[Hnone Hreq] | Hrej]; [ | exact Hrej ].
    apply missing_required_rejected; assumption. }
  destruct (rejected_field_reported Htag Hcat Hin Hrej) as [Hst [e [rest [He Hp]]]].
  assert (Hgood : forall id, extract_id (Obj props) = Returned id -> names_field id).
  { intros id Hid.
    exists (issues (zparse commandSchema [] (Obj props))).
    split; [ apply parseCommand_invalid; assumption | ].
    split; [ exists e, rest; auto | ].
    apply mentions_after.
    apply join_mentions with (x := format_issue e).
    - apply in_map. exact He.
    - apply format_issue_names_field with (rest := rest). exact Hp. }
  split; [ | split; [ | split ] ].
  - intros Hid. apply Hgood, extract_id_absent. exact Hid.
  - intros idv text Hid Htext. apply Hgood. exact (extract_id_text _ Hid Htext).
  - intros idv Hid Htext.
    apply (parseCommand_throws _ Hparse). exact (extract_id_throws _ Hid Htext).
  - intros ps x Hid Hown.
    apply (parseCommand_throws _ Hparse).
    exact (extract_id_throws _ Hid (String_own_toString _ Hown)).
Qed.

(** Every schema of the command union is an object schema. *)
Lemma commandSchemas_objects :
  Forall (fun t => exists shape, t = ZObject shape) commandSchemas.
Proof. repeat constructor; eexists; reflexivity. Qed.



(** ** The round trip through JSON text *)

Lemma value_induction (P : value -> Prop) :
  P Undefined -> P Null ->
  (forall b, P (Bool b)) -> (forall n, P (Num n)) -> (forall s, P (Str s)) ->
  (forall es, Forall P es -> P (Arr es)) ->
  (forall ps, Forall (fun kv => P (snd kv)) ps -> P (Obj ps)) ->
  forall v, P v.
Proof.
  intros Hu Hn Hb Hnum Hs Ha Ho.
  fix IH 1. intros v.
  destruct v as [| | b | n | s | es | ps];
    [ exact Hu | exact Hn | apply Hb | apply Hnum | apply Hs | | ].
  - apply Ha. induction es as [| e es IHes]; constructor; [ apply IH | exact IHes ].
  - apply Ho. induction ps as [| [k x] ps IHps]; constructor; [ apply IH | exact IHps ].
Qed.

(** JSON text carries a JSON value as it is. *)
Lemma jsonify_json_value (v : value) : json_value v = true -> jsonify v = v.
Proof.
  induction v as [| | b | n | s | es IHes | ps IHps] using value_induction;
    simpl; intros Hv; try reflexivity; try discriminate.
  - rewrite Hv. reflexivity.
  - f_equal. induction IHes as [| e es He _ IH]; simpl in *; [ reflexivity | ].
    apply andb_true_iff in Hv. destruct Hv as [Hv1 Hv2].
    rewrite (He Hv1), (IH Hv2).
    destruct e; try reflexivity. discriminate.
  - f_equal. induction IHps as [| [k x] ps Hx _ IH]; simpl in *; [ reflexivity | ].
    apply andb_true_iff in Hv. destruct Hv as [Hv1 Hv2].
    rewrite (Hx Hv1), (IH Hv2).
    destruct x; try reflexivity. discriminate.
Qed.

Lemma jsonify_elements (es : list value) :
  forallb json_value es = true ->
  map (fun e => match jsonify e with Undefined => Null | e' => e' end) es = es.
Proof.
  intros H. pose proof (jsonify_json_value (Arr es) H) as Harr.
  simpl in Harr. inversion Harr as [Heq]. rewrite Heq. exact Heq.
Qed.

Lemma jsonify_strings (vs : list string) :
  map (fun e => match jsonify e with Undefined => Null | e' => e' end) (map Str vs)
  = map Str vs.
Proof.
  induction vs as [| v vs IH]; simpl; [ reflexivity | rewrite IH; reflexivity ].
Qed.

(** A representable command is a JSON value: serialising loses nothing. *)
Lemma jsonify_command (c : Command) :
  representable c = true -> jsonify (Command_toJS c) = Command_toJS c.
Proof.
  intros Hrep.
  destruct c as [c|c|c|c|c|c|c|c|c|c|c|c|c|c|c|c|c|c|c|c]; destruct c; simpl in Hrep;
    unfold finite_opt, finite_viewport in Hrep;
    repeat match goal with
           | o : option _ |- _ => destruct o
           | v : Viewport |- _ => destruct v
           | v : SelectValues |- _ => destruct v
           end;
    simpl in Hrep;
    repeat match goal with
           | H : _ && _ = true |- _ => apply andb_true_iff in H; destruct H
           end;
    unfold Command_toJS; simpl;
    repeat match goal with
           | H : isFinite ?n = true |- _ => rewrite H; clear H
           end;
    try rewrite jsonify_strings;
    try (rewrite jsonify_elements by assumption);
    reflexivity.
Qed.

Lemma plain_commandSchema : plain commandSchema = true.
Proof. reflexivity. Qed.

(** A command of the union is in normal form: its keys are the declared
    ones, in the declared order. *)
Lemma normal_command (c : Command) :
  (forall b, c <> CmdOther b) ->
  normal commandSchema (Command_toJS c) = Command_toJS c.
Proof.
  intros Hunion.
  destruct c as [c|c|c|c|c|c|c|c|c|c|c|c|c|c|c|c|c|c|c|c];
    try (exfalso; eapply Hunion; reflexivity);
    destruct c;
    repeat match goal with
           | o : option _ |- _ => destruct o
           | v : Viewport |- _ => destruct v
           end;
    reflexivity.
Qed.

(** The validator returns a valid command as it is. *)
Lemma valid_command_output (c : Command) :
  valid_command c ->
  output (zparse commandSchema [] (Command_toJS c)) = Command_toJS c.
Proof.
  intros Hvalid. unfold valid_command in Hvalid. rewrite accepts_valid in Hvalid.
  rewrite (zparse_valid_normal _ plain_commandSchema _ _ Hvalid).
  destruct c as [c|c|c|c|c|c|c|c|c|c|c|c|c|c|c|c|c|c|c|b];
    try (apply normal_command; intros b'; discriminate).
  (* an action from outside the union: the schema that accepted it declares
     no key beyond the two of the envelope that the object holds *)
  destruct b as [id action].
  unfold Command_toJS, commandSchema, z_discriminatedUnion in Hvalid |- *.
  rewrite zparse_discriminated in Hvalid.
  cbn [normal].
  change (read_prop "action" (Command_props (CmdOther (mkBase id action))))
    with (Str action) in Hvalid |- *.
  rewrite pick_option_find in Hvalid |- *.
  destruct (find _ commandSchemas) as [t |] eqn:Hfind; [ | discriminate Hvalid ].
  apply find_some in Hfind. destruct Hfind as [Hin _].
  simpl option_map.
  simpl in Hin.
  repeat (destruct Hin as [<- | Hin]; [ reflexivity | ]).
  contradiction.
Qed.

(** The [id] of a command is a string. *)
Lemma extract_id_command (c : Command) :
  extract_id (Command_toJS c) = Returned (Some (command_id c)).
Proof. destruct c; reflexivity. Qed.

(** C2, amended.  For every valid command whose numbers are finite and
    whose [evaluate] arguments are JSON values, decoding its JSON
    serialization gives the command back:
    [parseCommand(JSON.stringify(command))] succeeds with a command equal to
    the original.  The reader and the writer of JSON are the runtime's; they
    are taken to agree on this text the way the language standard says
    ([JSON.parse] reads back what [JSON.stringify] kept of the value). *)
Theorem parse_stringify_roundtrip (c : Command) :
  valid_command c ->
  representable c = true ->
  JSON_parse (JSON_stringify (Command_toJS c)) = Some (jsonify (Command_toJS c)) ->
  parseCommand (JSON_stringify (Command_toJS c)) = Returned (ParseSuccess (Command_toJS c)).
Proof.
  intros Hvalid Hrep Hjson.
  rewrite (jsonify_command _ Hrep) in Hjson.
  unfold parseCommand, safeParse. rewrite Hjson, extract_id_command.
  pose proof (valid_command_output Hvalid) as Hout.
  unfold valid_command in Hvalid. rewrite accepts_valid in Hvalid.
  rewrite Hvalid, Hout. reflexivity.
Qed.

End ProtocolFacts.
(* ===================================================================== *)
(** * Properties of the dispatcher *)
(* ===================================================================== *)

Section DispatcherFacts.
Context {rt : JSRuntime}.
Variables Page World : Type.
Variable cap : Capability Page World.

Lemma faults_app (l1 l2 : list (Event Page)) :
  faults (l1 ++ l2) = (faults l1 ++ faults l2)%list.
Proof. unfold faults. apply flat_map_app. Qed.

Lemma orderly_ret A (post : A -> Prop) (a : A) :
  post a -> orderly post (ret (Page := Page) (World := World) a).
Proof. intros Ha w. simpl. auto. Qed.

Lemma orderly_call X (op : Op Page X) :
  orderly (fun _ => True) (call cap op).
Proof.
  intros w. unfold call.
  destruct (cap op w) as [[x | e] w1]; simpl; auto.
Qed.

Lemma orderly_bind A B (pre : A -> Prop) (post : B -> Prop)
      (m : M Page World A) (k : A -> M Page World B) :
  orderly pre m ->
  (forall a, pre a -> orderly post (k a)) ->
  orderly post (bind m k).
Proof.
  intros Hm Hk w. unfold bind.
  specialize (Hm w).
  destruct (m w) as [[[a | e] w1] log1].
  - destruct Hm as [Ha Hlog1].
    specialize (Hk a Ha w1).
    destruct (k a w1) as [[[b | e] w2] log2]; rewrite faults_app, Hlog1; simpl; auto.
  - exact Hm.
Qed.

Lemma orderly_weaken A (pre post : A -> Prop) (m : M Page World A) :
  (forall a, pre a -> post a) -> orderly pre m -> orderly post m.
Proof.
  intros Himp Hm w. specialize (Hm w).
  destruct (m w) as [[[a | e] w1] log1]; intuition.
Qed.

(** Sequencing after a capability call. *)
Lemma orderly_after_call X B (post : B -> Prop) (op : Op Page X)
      (k : X -> M Page World B) :
  (forall x, orderly post (k x)) ->
  orderly post (bind (call cap op) k).
Proof.
  intros Hk. apply orderly_bind with (pre := fun _ => True).
  - apply orderly_call.
  - intros x _. apply Hk.
Qed.

Ltac orderly_steps :=
  repeat first
    [ apply orderly_after_call; intros
    | apply orderly_ret; reflexivity
    | apply orderly_ret; exact I
    | apply orderly_call
    | match goal with
      | |- orderly _ (bind (match ?x with _ => _ end) _) => destruct x
      | |- orderly _ (bind (if ?b then _ else _) _) => destruct b
      | |- orderly _ (match ?x with _ => _ end) => destruct x
      | |- orderly _ (if ?b then _ else _) => destruct b
      | |- orderly _ (bind (ret _) _) =>
          apply orderly_bind with (pre := fun _ => True);
          [ apply orderly_ret; exact I | intros ]
      | |- orderly _ (let '(_, _) := ?p in _) => destruct p
      | |- orderly _ (bind (bind _ _) _) =>
          apply orderly_bind with (pre := fun _ => True); [ | intros ]
      end ].

(** Every handler answers with the identifier of its command, and throws
    only what the capability threw. *)
Lemma dispatch_orderly (c : Command) :
  orderly (fun r => response_id r = command_id c) (dispatch cap c).
Proof.
  destruct c as [c|c|c|c|c|c|c|c|c|c|c|c|c|c|c|c|c|c|c|c]; simpl;
    [ unfold handleLaunch | unfold handleNavigate | unfold handleClick
    | unfold handleType | unfold handlePress | unfold handleScreenshot
    | unfold handleSnapshot | unfold handleEvaluate | unfold handleWait
    | unfold handleScroll | unfold handleSelect | unfold handleHover
    | unfold handleContent | unfold handleClose | unfold handleTabNew
    | unfold handleTabList | unfold handleTabSwitch | unfold handleTabClose
    | unfold handleWindowNew | idtac ];
    orderly_steps.
Qed.

(** What the [catch] of [executeCommand] makes of a thrown value. *)
Lemma executeCommand_run (c : Command) (w : World) :
  executeCommand cap c w
  = match dispatch cap c w with
    | (Returned r, w1, log) => (Returned r, w1, log)
    | (Threw e, w1, log) =>
        match error_message e with
        | Returned message => (Returned (ErrorResponse (command_id c) message), w1, log)
        | Threw t => (Threw t, w1, log)
        end
    end.
Proof.
  unfold executeCommand, try_catch.
  destruct (dispatch cap c w) as [[[r | e] w1] log]; [ reflexivity | ].
  unfold bind, lift, ret, errorResponse.
  destruct (error_message e); simpl; rewrite ?app_nil_r; reflexivity.
Qed.

(** C1, and where the code departs from it.  A run of [executeCommand] in
    which no operation of the capability throws returns the handler's
    response, and every response returned carries the identifier of the
    command.  A fault thrown by an operation is converted into the error
    response with the command's identifier and the fault's text: the message
    of an [Error], the text of any other value that [String] can convert (a
    thrown string is its own text).  A thrown object that [String] cannot
    convert, one that holds a [toString] of its own for instance, is not
    converted into a response: the conversion, which stands in the [catch],
    throws a [TypeError], and [executeCommand] ends in that. *)
Theorem executeCommand_responds_or_escapes (c : Command) (w : World) :
  exists (result : Outcome Response) (w' : World) (log : list (Event Page)),
    executeCommand cap c w = (result, w', log)
    /\ (forall r, result = Returned r -> response_id r = command_id c)
    /\ (faults log = [] ->
          exists r, result = Returned r /\ dispatch cap c w = (Returned r, w', log))
    /\ (forall e, In e (faults log) ->
          (forall message, e = ThrownError message ->
             result = Returned (ErrorResponse (command_id c) message))
          /\ (forall s, e = ThrownValue (Str s) ->
                result = Returned (ErrorResponse (command_id c) s))
          /\ (forall v text, e = ThrownValue v -> String_ v = Some text ->
                result = Returned (ErrorResponse (command_id c) text))
          /\ (forall v, e = ThrownValue v -> String_ v = None ->
                result = Threw (ThrownError cannot_convert))
          /\ (forall ps x, e = ThrownValue (Obj ps) -> get_prop "toString" ps = Some x ->
                result = Threw (ThrownError cannot_convert))).
Proof.
  rewrite executeCommand_run.
  pose proof (dispatch_orderly c w) as H.
  destruct (dispatch cap c w) as [[[r | e] w1] log].
  - destruct H as [Hid Hlog].
    exists (Returned r), w1, log. split; [ reflexivity | ].
    split; [ intros r' Hr; inversion Hr; subst; exact Hid | ].
    split; [ intros _; exists r; auto | ].
    intros e He. rewrite Hlog in He. contradiction.
  - assert (Hfault : forall e', In e' (faults log) -> e' = e).
    { intros e' He'. rewrite H in He'. destruct He' as [<- | []]. reflexivity. }
    destruct e as [message | v]; simpl.
    + exists (Returned (ErrorResponse (command_id c) message)), w1, log.
      split; [ reflexivity | ].
      split; [ intros r Hr; inversion Hr; reflexivity | ].
      split; [ intros Hnone; rewrite H in Hnone; discriminate | ].
      intros e' He'. apply Hfault in He'. subst e'.
      repeat split; intros; try discriminate; congruence.
    + unfold toString. destruct (String_ v) as [text |] eqn:Htext.
      * exists (Returned (ErrorResponse (command_id c) text)), w1, log.
        split; [ reflexivity | ].
        split; [ intros r Hr; inversion Hr; reflexivity | ].
        split; [ intros Hnone; rewrite H in Hnone; discriminate | ].
        intros e' He'. apply Hfault in He'. subst e'.
        repeat split; intros; try discriminate;
          repeat match goal with
                 | Hs : ThrownValue _ = ThrownValue _ |- _ => inversion Hs; subst; clear Hs
                 | Hown : get_prop "toString" _ = Some _ |- _ =>
                     apply String_own_toString in Hown
                 end;
          first [ congruence | simpl in Htext; congruence ].
      * exists (Threw (ThrownError cannot_convert)), w1, log.
        split; [ reflexivity | ].
        split; [ intros r Hr; discriminate | ].
        split; [ intros Hnone; rewrite H in Hnone; discriminate | ].
        intros e' He'. apply Hfault in He'. subst e'.
        repeat split; intros; try discriminate;
          repeat match goal with
                 | Hs : ThrownValue _ = ThrownValue _ |- _ => inversion Hs; subst; clear Hs
                 end;
          first [ congruence | simpl in Htext; congruence ].
Qed.

End DispatcherFacts.

Section HandlerFacts.
Context {rt : JSRuntime}.
Variables Page World : Type.
Variable cap : Capability Page World.

(** Take a finished run apart: one case per outcome of each call. *)
Ltac run_unfold H :=
  unfold executeCommand, try_catch, dispatch in H;
  unfold handleScreenshot, handleWait, handleScroll, handleSelect,
    handleTabClose, given in H;
  unfold bind, call, ret, lift in H.

Ltac run_split H :=
  repeat match type of H with
         | context [cap ?op ?w] =>
             destruct (cap op w) as [[? | ?] ?] eqn:?; simpl in H
         | context [error_message ?e] =>
             destruct (error_message e) as [? | ?]; simpl in H
         end;
  inversion H; subst; clear H.

Ltac run_cases H := run_unfold H; run_split H.

(** C9.  For every select command, the dispatcher hands the capability an
    array: a scalar [values] string is wrapped into a one-element array
    before [selectOption] is called, an array is passed as it is.  The
    success response echoes that array of strings in [data.selected], so a
    command that supplied the single string [v] gets the array holding [v]
    back, not the scalar. *)
Theorem handleSelect_wraps_scalar (c : SelectCommand) (w w' : World)
        (r : Response) (log : list (Event Page)) :
  executeCommand cap (CmdSelect c) w = (Returned r, w', log) ->
  response_success r = true ->
  exists (page : Page) (values : list string),
    log = [Called (browser_getPage Page) (Returned page);
           Called (page_selectOption page (select_selector c) values) (Returned tt)]
    /\ r = SuccessResponse (select_id c) (Obj [("selected", Arr (map Str values))])
    /\ (forall v, select_values c = OneValue v -> values = [v])
    /\ (forall vs, select_values c = ManyValues vs -> values = vs).
Proof.
  intros Hrun Hok.
  run_cases Hrun; try discriminate.
  match goal with u : unit |- _ => destruct u end.
  eexists; eexists; repeat split; try reflexivity.
  - intros v Hv. rewrite Hv. reflexivity.
  - intros vs Hvs. rewrite Hvs. reflexivity.
Qed.

(** A valid wait command has no empty selector. *)
Lemma valid_wait_selector (c : WaitCommand) (sel : string) :
  valid_command (CmdWait c) -> wait_selector c = Some sel -> truthy_string sel = true.
Proof.
  intros Hvalid Hsel.
  destruct sel as [| ch rest]; [ exfalso | reflexivity ].
  pose proof (@valid_command_field _ (CmdWait c) _ "selector"
                (optional (z_string_min 1)) eq_refl Hvalid) as H.
  destruct c as [id s t st]. simpl in Hsel. subst s.
  specialize (H ltac:(simpl; tauto)).
  cbn in H. discriminate.
Qed.

(** A wait command that names neither a selector nor a timeout is valid. *)
Lemma bare_wait_valid (c : WaitCommand) :
  wait_selector c = None -> wait_timeout c = None -> valid_command (CmdWait c).
Proof.
  destruct c as [id s t st]. simpl. intros -> ->.
  unfold valid_command, accepts.
  destruct st as [[]|]; reflexivity.
Qed.

(** C10.  A wait command with neither a selector nor a timeout is valid, and
    it is handled by waiting for the page's load state; the run that succeeds
    answers [{waited: true}].  When both a selector and a timeout are
    present, the timeout is passed to [waitForSelector] as the bound on the
    wait for the selector: there is no call of [waitForTimeout], no fixed
    sleep. *)
Theorem handleWait_modes (c : WaitCommand) :
  (wait_selector c = None -> wait_timeout c = None -> valid_command (CmdWait c))
  /\ forall (w w' : World) (r : Response) (log : list (Event Page)),
      valid_command (CmdWait c) ->
      executeCommand cap (CmdWait c) w = (Returned r, w', log) ->
      response_success r = true ->
      r = SuccessResponse (wait_id c) (Obj [("waited", Bool true)])
      /\ exists page : Page,
          (wait_selector c = None -> wait_timeout c = None ->
           log = [Called (browser_getPage Page) (Returned page);
                  Called (page_waitForLoadState page "load") (Returned tt)])
          /\ (forall sel t,
                wait_selector c = Some sel -> wait_timeout c = Some t ->
                log = [Called (browser_getPage Page) (Returned page);
                       Called (page_waitForSelector page sel
                                 (nullish (wait_state c) st_visible) (Some t))
                              (Returned tt)]).
Proof.
  split; [ apply bare_wait_valid | ].
  intros w w' r log Hvalid Hrun Hok.
  pose proof (@valid_wait_selector c) as Hsel.
  destruct c as [id s t st]. simpl in *.
  destruct s as [sel |].
  - specialize (Hsel sel Hvalid eq_refl).
    destruct sel as [| ch rest]; [ discriminate | ].
    run_cases Hrun; try discriminate.
    match goal with u : unit |- _ => destruct u end.
    split; [ reflexivity | ].
    eexists. split.
    + intros Hnone. discriminate.
    + intros sel' t' Hs Ht. inversion Hs; subst. reflexivity.
  - destruct t as [t |].
    + run_unfold Hrun.
      cbn [wait_selector wait_timeout wait_state wait_id] in Hrun.
      destruct (truthy_number t);
        run_split Hrun; try discriminate;
        match goal with u : unit |- _ => destruct u end;
        (split; [ reflexivity | ]);
        match goal with pg : Page |- _ => exists pg end;
        (split; [ intros _ Hnone; discriminate | intros sel' t' Hs; discriminate ]).
    + run_cases Hrun; try discriminate.
      match goal with u : unit |- _ => destruct u end.
      split; [ reflexivity | ].
      eexists. split.
      * intros _ _. reflexivity.
      * intros sel' t' Hs. discriminate.
Qed.

(** C7, amended.  For every screenshot command whose run succeeds there is
    one call of [screenshot] and the response has one of two shapes, decided
    by whether [path] is a non-empty string: with a non-empty path the
    capability is given the path (it writes the file) and the data is
    [{path}], echoing it; with no path, or an empty one, the capability is
    given no path (it returns the bytes) and the data is [{base64}], their
    base64 encoding. *)
Theorem handleScreenshot_shape (c : ScreenshotCommand) (w w' : World)
        (r : Response) (log : list (Event Page)) :
  executeCommand cap (CmdScreenshot c) w = (Returned r, w', log) ->
  response_success r = true ->
  exists (page : Page) (target : Target Page) (options : ScreenshotOptions)
         (buffer : Buffer),
    log = [Called (browser_getPage Page) (Returned page);
           Called (target_screenshot target options) (Returned buffer)]
    /\ (forall p, screenshot_path c = Some p -> p <> "" ->
          opt_path options = Some p
          /\ r = SuccessResponse (screenshot_id c) (Obj [("path", Str p)]))
    /\ (screenshot_path c = None \/ screenshot_path c = Some "" ->
          opt_path options = None
          /\ r = SuccessResponse (screenshot_id c)
                   (Obj [("base64", Str (base64 buffer))])).
Proof.
  intros Hrun Hok.
  destruct c as [id path fullPage selector format quality].
  run_unfold Hrun.
  cbn [screenshot_id screenshot_path screenshot_fullPage screenshot_selector
       screenshot_format screenshot_quality] in Hrun.
  destruct path as [[| ch rest] |]; destruct selector as [[| ch' rest'] |];
    cbn [truthy_string] in Hrun;
    run_split Hrun; try discriminate;
    do 4 eexists; (split; [ reflexivity | ]); cbn; split;
    try (intros p Hp Hne; inversion Hp; subst; try congruence; split; reflexivity);
    try (intros [Hp | Hp]; try discriminate; split; reflexivity).
Qed.

(** C6, where the code departs from it.  With a target selector and no
    explicit [x] or [y], the handler scrolls the element into view and stops
    there: whatever the direction and the amount of the command, no delta is
    applied within the element.  (The claim has the delta applied within the
    element whether it is given as [x]/[y] or as a direction; the
    whole-document branch and the explicit deltas do behave as claimed, see
    [handleScroll_document], [scroll_deltas_direction] and
    [handleScroll_element_explicit].) *)
Theorem handleScroll_element_ignores_direction (c : ScrollCommand) (sel : string)
        (w w' : World) (r : Response) (log : list (Event Page)) :
  scroll_selector c = Some sel ->
  sel <> "" ->
  scroll_x c = None ->
  scroll_y c = None ->
  executeCommand cap (CmdScroll c) w = (Returned r, w', log) ->
  response_success r = true ->
  exists page : Page,
    log = [Called (browser_getPage Page) (Returned page);
           Called (locator_scrollIntoViewIfNeeded (mkLocator page sel)) (Returned tt)]
    /\ r = SuccessResponse (scroll_id c) (Obj [("scrolled", Bool true)]).
Proof.
  intros Hsel Hne Hx Hy Hrun Hok.
  destruct c as [id s x y d a]. simpl in Hsel, Hx, Hy. subst s x y.
  destruct sel as [| ch rest]; [ congruence | ].
  run_cases Hrun; try discriminate.
  match goal with u : unit |- _ => destruct u end.
  eexists. split; reflexivity.
Qed.

(** The whole-document branch of [handleScroll]: without a selector the page
    is scrolled by the deltas of [scroll_deltas]. *)
Lemma handleScroll_document (c : ScrollCommand) (w w' : World)
      (r : Response) (log : list (Event Page)) :
  scroll_selector c = None ->
  executeCommand cap (CmdScroll c) w = (Returned r, w', log) ->
  response_success r = true ->
  exists (page : Page) (result : value),
    log = [Called (browser_getPage Page) (Returned page);
           Called (page_evaluate page
                     ("window.scrollBy(" ++ Number_toString (fst (scroll_deltas c))
                      ++ ", " ++ Number_toString (snd (scroll_deltas c)) ++ ")"))
                  (Returned result)]
    /\ r = SuccessResponse (scroll_id c) (Obj [("scrolled", Bool true)]).
Proof.
  intros Hsel Hrun Hok.
  destruct c as [id s x y d a]. simpl in Hsel. subst s.
  run_unfold Hrun.
  cbn [scroll_selector scroll_id] in Hrun.
  destruct (scroll_deltas _) as [dx dy] eqn:Hd.
  run_split Hrun; try discriminate.
  do 2 eexists. split; reflexivity.
Qed.

(** A named direction gives a signed delta on its axis: down and right are
    positive, up and left negative, and the magnitude is 100 when [amount]
    is not given. *)
Lemma scroll_deltas_direction (c : ScrollCommand) (d : Direction) :
  scroll_direction c = Some d ->
  let amount := nullish (scroll_amount c) (Finite 100) in
  scroll_deltas c =
  match d with
  | dir_up => (nullish (scroll_x c) (Finite 0), neg amount)
  | dir_down => (nullish (scroll_x c) (Finite 0), amount)
  | dir_left => (neg amount, nullish (scroll_y c) (Finite 0))
  | dir_right => (amount, nullish (scroll_y c) (Finite 0))
  end.
Proof.
  intros Hd. unfold scroll_deltas. rewrite Hd. destruct d; reflexivity.
Qed.

(** X22.  The element branch with explicit deltas: the element is scrolled
    into view, then scrolled by [x] and [y], an absent one counting as 0. *)
Lemma handleScroll_element_explicit (c : ScrollCommand) (sel : string)
      (w w' : World) (r : Response) (log : list (Event Page)) :
  scroll_selector c = Some sel ->
  sel <> "" ->
  scroll_x c <> None \/ scroll_y c <> None ->
  executeCommand cap (CmdScroll c) w = (Returned r, w', log) ->
  response_success r = true ->
  exists page : Page,
    log = [Called (browser_getPage Page) (Returned page);
           Called (locator_scrollIntoViewIfNeeded (mkLocator page sel)) (Returned tt);
           Called (locator_scrollBy (mkLocator page sel)
                     (nullish (scroll_x c) (Finite 0))
                     (nullish (scroll_y c) (Finite 0)))
                  (Returned tt)]
    /\ r = SuccessResponse (scroll_id c) (Obj [("scrolled", Bool true)]).
Proof.
  intros Hsel Hne Hxy Hrun Hok.
  destruct c as [id s x y d a]. simpl in Hsel, Hxy. subst s.
  destruct sel as [| ch rest]; [ congruence | ].
  destruct x as [x |]; destruct y as [y |];
    try (destruct Hxy; congruence);
    run_cases Hrun; try discriminate;
    repeat match goal with u : unit |- _ => destruct u end;
    eexists; split; reflexivity.
Qed.

End HandlerFacts.

(* ===================================================================== *)
(** * Closing a tab *)
(* ===================================================================== *)

Section TabFacts.
Context {rt : JSRuntime}.
Variables Page World : Type.
Variable cap : Capability Page World.
Variable policy : LastPagePolicy.
Variable tabs : World -> TabState Page.

Lemma remove_at_length (i : nat) (l : list Page) :
  (i < length l)%nat -> length (remove_at i l) = (length l - 1)%nat.
Proof.
  intros Hi. unfold remove_at.
  rewrite length_app, length_firstn, length_skipn. lia.
Qed.

(** C5.  For every tab_close command with no index, the currently active tab
    is the one closed; after the close the new active index is the lowest
    remaining index, which is 0; and the response's [remaining] is the tab
    count before the close minus one.  The page collection is the one the
    specification describes (at least two tabs are open, so that a tab
    remains). *)
Theorem tab_close_targets_active (c : TabCloseCommand) (w : World) :
  closeTab_as_specified cap policy tabs ->
  tab_close_index c = None ->
  tabs_ok (tabs w) ->
  (2 <= length (pages (tabs w)))%nat ->
  exists w' : World,
    executeCommand cap (CmdTabClose c) w
    = (Returned
         (SuccessResponse (tab_close_id c)
            (Obj [("closed", Num (number_of_nat (activeIndex (tabs w))));
                  ("remaining", Num (number_of_nat (length (pages (tabs w)) - 1)))])),
       w',
       [Called (browser_closeTab Page None)
          (Returned {| closed := number_of_nat (activeIndex (tabs w));
                       remaining := number_of_nat (length (pages (tabs w)) - 1) |})])
    /\ pages (tabs w') = remove_at (activeIndex (tabs w)) (pages (tabs w))
    /\ length (pages (tabs w')) = (length (pages (tabs w)) - 1)%nat
    /\ activeIndex (tabs w') = 0%nat
    /\ (activeIndex (tabs w') < length (pages (tabs w')))%nat.
Proof.
  intros Hspec Hnone Hok Hcount.
  destruct (Hspec None w) as [Hres Hstate].
  assert (Hclose :
            closeTab policy None (tabs w)
            = (Returned {| closed := number_of_nat (activeIndex (tabs w));
                           remaining := number_of_nat (length (pages (tabs w)) - 1) |},
               {| pages := remove_at (activeIndex (tabs w)) (pages (tabs w));
                  activeIndex := 0 |})).
  { unfold closeTab. unfold tabs_ok in Hok.
    apply Nat.ltb_lt in Hok. rewrite Hok.
    destruct policy; [ | reflexivity ].
    destruct (length (pages (tabs w))) as [| [| n]] eqn:Hlen; try lia; reflexivity. }
  rewrite Hclose in Hres, Hstate. simpl in Hres, Hstate.
  destruct c as [id index]. simpl in Hnone. subst index.
  unfold executeCommand, try_catch, dispatch, handleTabClose, bind, call, ret.
  cbn [tab_close_index tab_close_id].
  destruct (cap (browser_closeTab Page None) w) as [res w1] eqn:Hcap.
  simpl in Hres, Hstate. subst res.
  exists w1. rewrite Hstate. simpl.
  repeat split.
  - apply remove_at_length. exact Hok.
  - rewrite remove_at_length by exact Hok. lia.
Qed.

End TabFacts.

(* ===================================================================== *)
(** * The CLI: the URL of the navigate command *)
(* ===================================================================== *)

Module CliFacts.
Import Cli.

Section Facts.
Context {rt : JSRuntime}.

(** The URL the navigate command carries: the argument itself when it
    starts with the text http, the argument behind https:// otherwise. *)
Lemma open_url_rule (args rest : list string) (verb url id : string) :
  includes "--help" args = false ->
  includes "-h" args = false ->
  cleanArgs args = verb :: url :: rest ->
  verb = "open" \/ verb = "goto" \/ verb = "navigate" ->
  url <> "" ->
  build args id
  = Send (Obj [("id", Str id); ("action", Str "navigate");
               ("url", Str (if startsWith url "http" then url else "https://" ++ url))]).
Proof.
  intros Hhelp Hh Hclean Hverb Hurl.
  unfold build. rewrite Hhelp, Hh, Hclean.
  assert (Hlen : Nat.eqb (length args) 0 = false).
  { destruct args; [ discriminate Hclean | reflexivity ]. }
  rewrite Hlen. cbn [orb nth_error].
  assert (Htruthy : truthy_string url = true).
  { destruct url; [ congruence | reflexivity ]. }
  destruct Hverb as [-> | [-> | ->]]; cbn; rewrite Htruthy; reflexivity.
Qed.

(** A text with a scheme is not empty. *)
Lemma has_scheme_not_empty (url : string) : has_scheme url = true -> url <> "".
Proof. intros H ->. discriminate H. Qed.

(** C8, where the code departs from it.  The CLI puts https:// in front of
    the URL argument of open, goto and navigate exactly when the argument
    does not start with the text http; an argument that starts with http is
    forwarded as it is.  So an argument that lacks a scheme and starts with
    http, such as httpbin.org, reaches the engine without a scheme: the test
    looks at the first four characters, not at whether a scheme is there. *)
Theorem open_forwards_http_without_scheme (args rest : list string)
        (verb url id : string) :
  includes "--help" args = false ->
  includes "-h" args = false ->
  cleanArgs args = verb :: url :: rest ->
  verb = "open" \/ verb = "goto" \/ verb = "navigate" ->
  url <> "" ->
  exists sent : string,
    build args id
    = Send (Obj [("id", Str id); ("action", Str "navigate"); ("url", Str sent)])
    /\ (startsWith url "http" = false -> sent = "https://" ++ url)
    /\ (startsWith url "http" = true -> sent = url)
    /\ (startsWith url "http" = true -> has_scheme url = false ->
          has_scheme sent = false /\ sent <> "https://" ++ url).
Proof.
  intros Hhelp Hh Hclean Hverb Hurl.
  exists (if startsWith url "http" then url else "https://" ++ url).
  split; [ apply (open_url_rule args id Hhelp Hh Hclean Hverb Hurl) | ].
  split; [ intros ->; reflexivity | ].
  split; [ intros ->; reflexivity | ].
  intros -> Hscheme. split; [ exact Hscheme | ].
  intros Heq. rewrite Heq in Hscheme. discriminate Hscheme.
Qed.

End Facts.

End CliFacts.

(* ===================================================================== *)
(** * More on [parseCommand]: what is turned away, what comes out *)
(* ===================================================================== *)

Section MoreProtocolFacts.
Context {rt : JSRuntime}.

Lemma catalogue_find (tag : string) :
  catalogue tag = None ->
  find (fun t => match discriminator_of "action" t with
                 | Some lit => String.eqb tag lit
                 | None => false
                 end) commandSchemas = None.
Proof.
  unfold catalogue. intros Hcat.
  destruct (find _ commandSchemas) as [t |] eqn:Hfind; [ exfalso | reflexivity ].
  apply find_some in Hfind. destruct Hfind as [Hin _].
  pose proof commandSchemas_objects as Hobj. rewrite Forall_forall in Hobj.
  destruct (Hobj t Hin) as [shape ->]. discriminate.
Qed.

(** X1.  An object whose [action] is missing, is not a string, or is a
    string outside the nineteen action tags is rejected, provided its [id],
    if it has one, can be converted to text: the error names [action], lists
    the tags, and carries the text of the id. *)
Theorem unknown_action_rejected (input : string) (props : list (string * value))
        (id : option string) :
  JSON_parse input = Some (Obj props) ->
  (forall tag, read_prop "action" props = Str tag -> catalogue tag = None) ->
  (get_prop "id" props = None /\ id = None)
  \/ (exists idv text, get_prop "id" props = Some idv /\ String_ idv = Some text
                       /\ id = Some text) ->
  parseCommand input
  = Returned
      (ParseFailure
         ("Validation error: action: Invalid discriminator value. Expected "
          ++ joinValues action_tags)
         id).
Proof.
  intros Hparse Hunknown Hid.
  assert (Hextract : extract_id (Obj props) = Returned id).
  { destruct Hid as [[Hnone ->] | [idv [text [Hsome [Htext ->]]]]].
    - apply extract_id_absent. exact Hnone.
    - exact (extract_id_text _ Hsome Htext). }
  assert (Hz : zparse commandSchema [] (Obj props)
               = INVALID [mkIssue invalid_union_discriminator [Key "action"]
                            ("Invalid discriminator value. Expected "
                             ++ joinValues action_tags)]).
  { unfold commandSchema, z_discriminatedUnion. rewrite zparse_discriminated.
    destruct (read_prop "action" props) as [| | b | n | s | es | ps] eqn:Hact;
      try reflexivity.
    rewrite pick_option_find, (catalogue_find _ (Hunknown s eq_refl)). reflexivity. }
  rewrite (@parseCommand_invalid _ input (Obj props) id Hparse)
    by (try exact Hextract; rewrite Hz; discriminate).
  rewrite Hz. reflexivity.
Qed.

(** X2.  JSON that is not an object (null, a boolean, a number, a string, an
    array) is rejected with no id; the error has an empty path and names the
    type received. *)
Theorem non_object_rejected (input : string) (v : value) :
  JSON_parse input = Some v ->
  v <> Undefined ->
  (forall props, v <> Obj props) ->
  parseCommand input
  = Returned
      (ParseFailure
         ("Validation error: : Expected object, received "
          ++ parsedType_name (getParsedType v))
         None).
Proof.
  intros Hparse Hdef Hobj.
  assert (Hz : zparse commandSchema [] v
               = INVALID [invalid_type_issue [] "object" v]).
  { destruct v; try reflexivity. exfalso. eapply Hobj. reflexivity. }
  assert (Hextract : extract_id v = Returned None).
  { destruct v; try reflexivity. exfalso. eapply Hobj. reflexivity. }
  rewrite (@parseCommand_invalid _ input v None Hparse)
    by (try exact Hextract; rewrite Hz; discriminate).
  rewrite Hz.
  destruct v as [| | b | [] | s | es | ps];
    first [ reflexivity | congruence | exfalso; eapply Hobj; reflexivity ].
Qed.

Lemma null_rejected (t : ZodType) :
  forall p, accepts_null t = false -> status (zparse t p Null) <> valid.
Proof.
  induction t as [m | cs | | | s | vs | t IHt | t IHt | ts IHts | shape IHs | d ts IHts]
    using ZodType_induction; intros p Hno; simpl in *; try discriminate.
  - apply IHt. exact Hno.
  - unfold union_result.
    destruct (find _ (map _ ts)) as [r |] eqn:Hvalid.
    + exfalso. apply find_some in Hvalid. destruct Hvalid as [Hr Hst].
      apply in_map_iff in Hr. destruct Hr as [t' [<- Ht']].
      rewrite Forall_forall in IHts.
      assert (Hno' : accepts_null t' = false).
      { destruct (accepts_null t') eqn:Ha; [ | reflexivity ].
        assert (existsb accepts_null ts = true)
          by (apply existsb_exists; exists t'; auto).
        congruence. }
      apply (IHts t' Ht' p Hno').
      destruct (status (zparse t' p Null)); congruence.
    + destruct (find (fun r => match status r with dirty => true | _ => false end)
                     (map (fun t' => zparse t' p Null) ts)) as [r |] eqn:Hdirty.
      * apply find_some in Hdirty. destruct Hdirty as [_ Hst].
        destruct (status r); congruence.
      * simpl. discriminate.
Qed.

(** The shape the catalogue gives for a tag is the shape of one of the
    schemas of the union. *)
Lemma catalogue_member (tag : string) (shape : list (string * ZodType)) :
  catalogue tag = Some shape ->
  In (ZObject shape) commandSchemas
  /\ discriminator_of "action" (ZObject shape) = Some tag.
Proof.
  unfold catalogue. intros Hcat.
  destruct (find _ commandSchemas) as [t |] eqn:Hfind; [ | discriminate ].
  apply find_some in Hfind. destruct Hfind as [Hin Hd].
  destruct t; try discriminate. inversion Hcat; subst.
  split; [ exact Hin | ].
  destruct (discriminator_of "action" (ZObject shape)) as [lit |]; [ | discriminate ].
  apply String.eqb_eq in Hd. congruence.
Qed.

(** No field of any command is declared with a type that accepts [null]. *)
Lemma declared_types_reject_null (tag : string) (shape : list (string * ZodType))
      (k : string) (t : ZodType) :
  catalogue tag = Some shape -> In (k, t) shape -> accepts_null t = false.
Proof.
  intros Hcat Hkt. apply catalogue_member in Hcat. destruct Hcat as [Hin _].
  assert (Hall : forallb (fun s => match s with
                                   | ZObject sh =>
                                       forallb (fun kt => negb (accepts_null (snd kt))) sh
                                   | _ => true
                                   end) commandSchemas = true) by reflexivity.
  rewrite forallb_forall in Hall. specialize (Hall _ Hin). simpl in Hall.
  rewrite forallb_forall in Hall. specialize (Hall _ Hkt). simpl in Hall.
  destruct (accepts_null t); [ discriminate | reflexivity ].
Qed.

(** X3.  [null] never stands for an absent field: an object with a
    catalogued action that holds [null] under any key its schema declares,
    optional or not, is rejected, and an issue is reported under that key.
    The failure carries the text of the object's [id]; the [id] is taken to
    be one that can be converted to text, a string for one. *)
Theorem null_field_rejected (input : string) (props : list (string * value))
        (tag : string) (shape : list (string * ZodType)) (k : string) (t : ZodType)
        (idv : value) (id : string) :
  JSON_parse input = Some (Obj props) ->
  read_prop "action" props = Str tag ->
  catalogue tag = Some shape ->
  In (k, t) shape ->
  get_prop k props = Some Null ->
  get_prop "id" props = Some idv ->
  String_ idv = Some id ->
  exists errs : list ZodIssue,
    parseCommand input
    = Returned
        (ParseFailure ("Validation error: " ++ join ", " (map format_issue errs))
           (Some id))
    /\ (exists e rest, In e errs /\ path e = Key k :: rest)
    /\ (forall s, idv = Str s -> id = s).
Proof.
  intros Hparse Htag Hcat Hkt Hnull Hid Htext.
  assert (Hrej : field_rejected k t props).
  { unfold field_rejected, read_prop. rewrite Hnull.
    apply null_rejected. eapply declared_types_reject_null; eassumption. }
  destruct (rejected_field_reported Htag Hcat Hkt Hrej) as [Hst Hissue].
  exists (issues (zparse commandSchema [] (Obj props))).
  split; [ | split; [ exact Hissue | ] ].
  - apply parseCommand_invalid; [ assumption | assumption | ].
    exact (extract_id_text _ Hid Htext).
  - intros s ->. simpl in Htext. congruence.
Qed.

(** ** The command that comes out *)

Lemma get_prop_app (k : string) (l1 l2 : list (string * value)) :
  get_prop k (l1 ++ l2)
  = match get_prop k l1 with
    | Some v => Some v
    | None => get_prop k l2
    end.
Proof.
  induction l1 as [| [k' v] l1 IH]; simpl; [ reflexivity | ].
  destruct (String.eqb k k'); [ reflexivity | exact IH ].
Qed.

Lemma distinct_spec (x : string) (rest : list string) :
  distinct (x :: rest) = true -> ~ In x rest /\ distinct rest = true.
Proof.
  simpl. intros H. apply andb_true_iff in H. destruct H as [Hx Hrest].
  split; [ | exact Hrest ].
  intros Hin. apply negb_true_iff in Hx.
  assert (existsb (String.eqb x) rest = true).
  { apply existsb_exists. exists x. split; [ exact Hin | apply String.eqb_refl ]. }
  congruence.
Qed.

Lemma normal_object (shape : list (string * ZodType)) (props : list (string * value)) :
  normal (ZObject shape) (Obj props) = Obj (normal_props shape props).
Proof. reflexivity. Qed.

Lemma normal_props_absent (shape : list (string * ZodType))
      (props : list (string * value)) (k : string) :
  ~ In k (map fst shape) -> get_prop k (normal_props shape props) = None.
Proof.
  unfold normal_props.
  induction shape as [| [k' t'] shape IH]; simpl; intros Hnot; [ reflexivity | ].
  rewrite get_prop_app.
  assert (Hne : String.eqb k k' = false).
  { apply String.eqb_neq. intros ->. apply Hnot. left. reflexivity. }
  destruct (get_prop k' props) as [x |].
  - destruct (String.eqb k' "__proto__"); simpl; [ | rewrite Hne ];
      apply IH; intros Hin; apply Hnot; right; exact Hin.
  - simpl. apply IH. intros Hin. apply Hnot. right. exact Hin.
Qed.

(** Under a declared key, the object that comes back holds the normal form
    of what the input held there. *)
Lemma normal_props_lookup (shape : list (string * ZodType))
      (props : list (string * value)) (k : string) (t : ZodType) :
  distinct (map fst shape) = true ->
  existsb (String.eqb "__proto__") (map fst shape) = false ->
  In (k, t) shape ->
  get_prop k (normal_props shape props) = option_map (normal t) (get_prop k props).
Proof.
  unfold normal_props.
  induction shape as [| [k' t'] shape IH]; simpl; intros Hdis Hproto Hin;
    [ contradiction | ].
  apply orb_false_iff in Hproto. destruct Hproto as [Hk' Hproto].
  apply andb_true_iff in Hdis. destruct Hdis as [Hfresh Hdis].
  rewrite get_prop_app.
  assert (Hnp : String.eqb k' "__proto__" = false).
  { rewrite String.eqb_sym. exact Hk'. }
  rewrite Hnp.
  destruct Hin as [Heq | Hin].
  - inversion Heq; subst; clear Heq.
    destruct (get_prop k props) as [x |]; simpl.
    + rewrite String.eqb_refl. reflexivity.
    + apply (normal_props_absent shape props).
      intros Hin. apply negb_true_iff in Hfresh.
      assert (existsb (String.eqb k) (map fst shape) = true).
      { apply existsb_exists. exists k. split; [ exact Hin | apply String.eqb_refl ]. }
      congruence.
  - assert (Hne : String.eqb k k' = false).
    { apply String.eqb_neq. intros ->. apply negb_true_iff in Hfresh.
      assert (existsb (String.eqb k') (map fst shape) = true).
      { apply existsb_exists. exists k'. split; [ | apply String.eqb_refl ].
        apply in_map_iff. exists (k', t). auto. }
      congruence. }
    destruct (get_prop k' props) as [x |]; simpl; [ rewrite Hne | ];
      apply IH; assumption.
Qed.

Lemma normal_props_keys (shape : list (string * ZodType))
      (props : list (string * value)) (kv : string * value) :
  In kv (normal_props shape props) -> In (fst kv) (map fst shape).
Proof.
  unfold normal_props. intros Hin.
  apply in_flat_map in Hin. destruct Hin as [[k t] [Hkt Hkv]]. simpl in Hkv.
  destruct (get_prop k props); [ | contradiction ].
  destruct (String.eqb k "__proto__"); [ contradiction | ].
  destruct Hkv as [<- | []]. simpl.
  apply in_map_iff. exists (k, t). auto.
Qed.

Lemma well_keyed_commandSchema : well_keyed commandSchema = true.
Proof. reflexivity. Qed.

(** What the parser hands over is what the validator returned for the
    parsed text. *)
Lemma parseCommand_success (input : string) (data : value) :
  parseCommand input = Returned (ParseSuccess data) ->
  exists json,
    JSON_parse input = Some json
    /\ status (zparse commandSchema [] json) = valid
    /\ data = normal commandSchema json.
Proof.
  unfold parseCommand, safeParse. intros H.
  destruct (JSON_parse input) as [json |]; [ | discriminate ].
  exists json. split; [ reflexivity | ].
  destruct (extract_id json) as [id | e]; [ | discriminate ].
  destruct (status (zparse commandSchema [] json)) eqn:Hst; try discriminate.
  split; [ reflexivity | ].
  assert (Hd : data = output (zparse commandSchema [] json)) by congruence.
  rewrite Hd.
  apply zparse_valid_normal; [ apply plain_commandSchema | exact Hst ].
Qed.

(** An object the command schema accepts has a catalogued action. *)
Lemma valid_object_tag (props : list (string * value)) :
  status (zparse commandSchema [] (Obj props)) = valid ->
  exists tag shape,
    read_prop "action" props = Str tag /\ catalogue tag = Some shape.
Proof.
  intros Hst. unfold commandSchema, z_discriminatedUnion in Hst.
  rewrite zparse_discriminated in Hst.
  destruct (read_prop "action" props) as [| | b | n | s | es | ps] eqn:Hact;
    try (simpl in Hst; discriminate).
  rewrite pick_option_find in Hst.
  destruct (find _ commandSchemas) as [t |] eqn:Hfind; [ | simpl in Hst; discriminate ].
  pose proof (find_some _ _ Hfind) as [Hin _].
  pose proof commandSchemas_objects as Hobj. rewrite Forall_forall in Hobj.
  destruct (Hobj t Hin) as [shape ->].
  exists s, shape. split; [ reflexivity | ].
  unfold catalogue. rewrite Hfind. reflexivity.
Qed.

(** Every schema of the union declares [id] as a string and [action] as its
    own literal. *)
Lemma catalogue_envelope (tag : string) (shape : list (string * ZodType)) :
  catalogue tag = Some shape ->
  In ("id", z_string) shape /\ In ("action", z_literal tag) shape.
Proof.
  intros Hcat. apply catalogue_member in Hcat. destruct Hcat as [Hin Hd].
  assert (Hall : forallb
                   (fun s => match s with
                             | ZObject ((k1, ZString None) :: (k2, ZLiteral _) :: _) =>
                                 String.eqb k1 "id" && String.eqb k2 "action"
                             | _ => false
                             end) commandSchemas = true) by reflexivity.
  rewrite forallb_forall in Hall. specialize (Hall _ Hin). simpl in Hall.
  destruct shape as [| [k1 t1] [| [k2 t2] rest]]; try discriminate;
    destruct t1 as [[n |] | | | | | | | | | |]; try discriminate.
  destruct t2; try discriminate.
  apply andb_true_iff in Hall. destruct Hall as [H1 H2].
  apply String.eqb_eq in H1. apply String.eqb_eq in H2. subst k1 k2.
  simpl in Hd. inversion Hd; subst.
  split; [ left; reflexivity | right; left; reflexivity ].
Qed.

Lemma well_keyed_catalogue (tag : string) (shape : list (string * ZodType)) :
  catalogue tag = Some shape ->
  distinct (map fst shape) = true
  /\ existsb (String.eqb "__proto__") (map fst shape) = false
  /\ forallb (fun kt => well_keyed (snd kt)) shape = true
  /\ forallb (fun kt => plain (snd kt)) shape = true.
Proof.
  intros Hcat. apply catalogue_member in Hcat. destruct Hcat as [Hin _].
  assert (Hwk : forallb well_keyed commandSchemas = true) by reflexivity.
  assert (Hpl : forallb plain commandSchemas = true) by reflexivity.
  rewrite forallb_forall in Hwk, Hpl.
  specialize (Hwk _ Hin). specialize (Hpl _ Hin).
  cbn [well_keyed plain] in Hwk, Hpl.
  apply andb_true_iff in Hwk. destruct Hwk as [Hwk Hfields].
  apply andb_true_iff in Hwk. destruct Hwk as [Hdis Hproto].
  apply negb_true_iff in Hproto. auto.
Qed.

(** X4.  Whatever text the parser accepts, the command it hands over is an
    object with a string [id] and an [action] from the catalogue, and it
    holds no key beyond those the schema of that action declares: unknown
    keys of the input are stripped. *)
Theorem parsed_command_shape (input : string) (data : value) :
  parseCommand input = Returned (ParseSuccess data) ->
  exists (props : list (string * value)) (tag id : string)
         (shape : list (string * ZodType)),
    data = Obj props
    /\ catalogue tag = Some shape
    /\ get_prop "action" props = Some (Str tag)
    /\ get_prop "id" props = Some (Str id)
    /\ forall kv, In kv props -> In (fst kv) (map fst shape).
Proof.
  intros Hok. apply parseCommand_success in Hok.
  destruct Hok as [json [Hparse [Hst ->]]].
  destruct json as [| | b | n | s | es | jprops]; try (simpl in Hst; discriminate).
  destruct (valid_object_tag _ Hst) as [tag [shape [Htag Hcat]]].
  pose proof (catalogue_envelope _ Hcat) as [Hid Hact].
  pose proof (well_keyed_catalogue _ Hcat) as [Hdis [Hproto _]].
  pose proof (proj1 (command_valid_iff _ Htag Hcat) Hst) as Hfields.
  rewrite Forall_forall in Hfields.
  pose proof (Hfields _ Hid) as Hidv. pose proof (Hfields _ Hact) as Hactv.
  simpl in Hidv, Hactv.
  assert (Hnorm : normal commandSchema (Obj jprops) = Obj (normal_props shape jprops)).
  { unfold commandSchema, z_discriminatedUnion. cbn [normal].
    rewrite Htag, pick_option_find.
    unfold catalogue in Hcat.
    destruct (find _ commandSchemas) as [t |]; [ | discriminate ].
    destruct t; try discriminate. inversion Hcat; subst. reflexivity. }
  unfold read_prop in Hidv, Hactv, Htag.
  destruct (get_prop "id" jprops) as [idv |] eqn:Hgid; [ | simpl in Hidv; discriminate ].
  destruct idv as [| | b | n | id | es | ps]; try (simpl in Hidv; discriminate).
  destruct (get_prop "action" jprops) as [av |] eqn:Hgact; [ | discriminate ].
  subst av.
  exists (normal_props shape jprops), tag, id, shape.
  split; [ exact Hnorm | ]. split; [ exact Hcat | ].
  split; [ | split ].
  - rewrite (@normal_props_lookup shape jprops _ _ Hdis Hproto Hact), Hgact. reflexivity.
  - rewrite (@normal_props_lookup shape jprops _ _ Hdis Hproto Hid), Hgid. reflexivity.
  - apply normal_props_keys.
Qed.

Lemma read_prop_normal_props (shape : list (string * ZodType))
      (props : list (string * value)) (k : string) (t : ZodType) :
  distinct (map fst shape) = true ->
  existsb (String.eqb "__proto__") (map fst shape) = false ->
  In (k, t) shape ->
  read_prop k (normal_props shape props) = normal t (read_prop k props).
Proof.
  intros Hdis Hproto Hin. unfold read_prop.
  rewrite (@normal_props_lookup shape props _ _ Hdis Hproto Hin).
  destruct (get_prop k props); simpl; [ reflexivity | ].
  symmetry. apply normal_undefined.
Qed.

(** The literal a member of a discriminated union declares sits in its
    shape under the discriminator. *)
Lemma discriminator_field (d lit : string) (t : ZodType) :
  discriminator_of d t = Some lit ->
  exists shape, t = ZObject shape /\ In (d, ZLiteral lit) shape.
Proof.
  destruct t; simpl; try discriminate. intros H. exists shape. split; [ reflexivity | ].
  destruct (find _ shape) as [[k t'] |] eqn:Hfind; [ | discriminate ].
  destruct t'; try discriminate. inversion H; subst.
  apply find_some in Hfind. destruct Hfind as [Hin Hk]. simpl in Hk.
  apply String.eqb_eq in Hk. subst k. exact Hin.
Qed.

(** What the validator returned, it accepts again, and returns unchanged. *)
Lemma zparse_normal_again (t : ZodType) :
  plain t = true ->
  well_keyed t = true ->
  forall (p : list PathElem) (v : value),
    status (zparse t p v) = valid ->
    status (zparse t p (normal t v)) = valid /\ normal t (normal t v) = normal t v.
Proof.
  assert (Hleaf : forall t, object_free t = true ->
            forall p v, status (zparse t p v) = valid ->
              status (zparse t p (normal t v)) = valid
              /\ normal t (normal t v) = normal t v).
  { intros t0 Hfree p v Hst. rewrite !(object_free_normal _ _ Hfree). auto. }
  induction t as [m | cs | | | s | vs | t IHt | t IHt | ts IHts | shape IHs | d ts IHts]
    using ZodType_induction; intros Hplain Hkeys p v Hst;
    try (apply Hleaf; [ reflexivity | exact Hst ]).
  - apply Hleaf; [ exact Hplain | exact Hst ].
  - cbn [plain well_keyed] in Hplain, Hkeys. cbn [normal].
    assert (Hopt : forall x, zparse (ZOptional t) p x
                             = match x with
                               | Undefined => OK Undefined
                               | _ => zparse t p x
                               end) by (intros x; destruct x; reflexivity).
    destruct v as [| | b | n | s | es | ps];
      [ rewrite !normal_undefined; split; reflexivity | .. ];
      (rewrite Hopt in Hst; cbv iota in Hst;
       destruct (IHt Hplain Hkeys p _ Hst) as [Hv Hn]; split; [ | exact Hn ];
       rewrite Hopt;
       destruct (normal t _) eqn:Hx; cbv iota;
       first [ reflexivity | exact Hv | rewrite <- Hx; exact Hv ]).
  - apply Hleaf; [ exact Hplain | exact Hst ].
  - destruct v as [| | b | n | s | es | ps]; try (simpl in Hst; discriminate).
    cbn [plain well_keyed] in Hplain, Hkeys.
    apply andb_true_iff in Hkeys. destruct Hkeys as [Hkeys Hfields].
    apply andb_true_iff in Hkeys. destruct Hkeys as [Hdis Hproto].
    apply negb_true_iff in Hproto.
    rewrite forallb_forall in Hplain, Hfields. rewrite Forall_forall in IHs.
    rewrite zparse_object in Hst. apply mergeObjectSync_valid in Hst.
    rewrite Forall_map in Hst. rewrite Forall_forall in Hst.
    rewrite normal_object.
    split.
    + rewrite zparse_object. apply mergeObjectSync_valid.
      rewrite Forall_map. apply Forall_forall. intros [k t'] Hin.
      unfold field_result. simpl.
      rewrite (@read_prop_normal_props shape ps k t' Hdis Hproto Hin).
      specialize (Hst _ Hin). unfold field_result in Hst. simpl in Hst.
      exact (proj1 (IHs _ Hin (Hplain _ Hin) (Hfields _ Hin) _ _ Hst)).
    + rewrite normal_object. f_equal. unfold normal_props at 1 3.
      apply flat_map_ext_Forall. apply Forall_forall. intros [k t'] Hin. simpl.
      rewrite (@normal_props_lookup shape ps _ _ Hdis Hproto Hin).
      specialize (Hst _ Hin). unfold field_result in Hst. simpl in Hst.
      unfold read_prop in Hst.
      destruct (get_prop k ps) as [x |]; simpl; [ | reflexivity ].
      destruct (String.eqb k "__proto__"); [ reflexivity | ].
      pose proof (proj2 (IHs _ Hin (Hplain _ Hin) (Hfields _ Hin) _ _ Hst)) as Hn.
      simpl in Hn. rewrite Hn. reflexivity.
  - destruct v as [| | b | n | s | es | ps]; try (simpl in Hst; discriminate).
    cbn [plain well_keyed] in Hplain, Hkeys.
    rewrite forallb_forall in Hplain, Hkeys. rewrite Forall_forall in IHts.
    rewrite zparse_discriminated in Hst.
    destruct (read_prop d ps) as [| | b | n | s | es' | ps'] eqn:Hd;
      try (simpl in Hst; discriminate).
    rewrite pick_option_find in Hst.
    destruct (find _ ts) as [t' |] eqn:Hfind; [ | simpl in Hst; discriminate ].
    simpl in Hst.
    assert (Hnorm : forall props, read_prop d props = Str s ->
              normal (ZDiscriminatedUnion d ts) (Obj props) = normal t' (Obj props)).
    { intros props Hp. cbn [normal]. rewrite Hp, pick_option_find, Hfind. reflexivity. }
    pose proof (find_some _ _ Hfind) as [Hin Hlit].
    destruct (discriminator_of d t') as [lit |] eqn:Hdisc; [ | discriminate ].
    apply String.eqb_eq in Hlit. subst lit.
    destruct (discriminator_field _ _ Hdisc) as [shape [-> Hfield]].
    pose proof (Hkeys _ Hin) as Hk. cbn [well_keyed] in Hk.
    apply andb_true_iff in Hk. destruct Hk as [Hk _].
    apply andb_true_iff in Hk. destruct Hk as [Hdis Hproto].
    apply negb_true_iff in Hproto.
    destruct (IHts _ Hin (Hplain _ Hin) (Hkeys _ Hin) p _ Hst) as [Hv Hn].
    rewrite (Hnorm ps Hd).
    rewrite normal_object in Hv, Hn |- *.
    assert (Hd' : read_prop d (normal_props shape ps) = Str s).
    { rewrite (@read_prop_normal_props shape ps d (ZLiteral s) Hdis Hproto Hfield), Hd.
      reflexivity. }
    split.
    + rewrite zparse_discriminated, Hd', pick_option_find, Hfind. simpl. exact Hv.
    + rewrite (Hnorm _ Hd'). exact Hn.
Qed.

(** X5.  Validation is idempotent on what the parser returns: the command
    handed over passes the command schema again, and comes back
    unchanged. *)
Theorem parsed_command_revalidates (input : string) (data : value) :
  parseCommand input = Returned (ParseSuccess data) ->
  safeParse commandSchema data = SafeParseSuccess data.
Proof.
  intros Hok. apply parseCommand_success in Hok.
  destruct Hok as [json [_ [Hst ->]]].
  destruct (zparse_normal_again _ plain_commandSchema well_keyed_commandSchema _ _ Hst)
    as [Hv Hn].
  unfold safeParse. rewrite Hv.
  rewrite (zparse_valid_normal _ plain_commandSchema _ _ Hv), Hn. reflexivity.
Qed.

Lemma get_prop_insert_other (k k0 : string) (v : value)
      (pre post : list (string * value)) :
  k0 <> k ->
  get_prop k0 (pre ++ (k, v) :: post)%list = get_prop k0 (pre ++ post)%list.
Proof.
  intros Hne. rewrite !get_prop_app. simpl.
  apply String.eqb_neq in Hne. rewrite Hne. reflexivity.
Qed.

(** X27.  A property that the schema of the action does not declare is
    ignored altogether: with it or without it, wherever it stands in the
    object, the parser gives the same result, be it the command or the
    failure. *)
Theorem undeclared_key_ignored (with_key without : string)
        (pre post : list (string * value)) (k tag : string) (v : value)
        (shape : list (string * ZodType)) :
  JSON_parse with_key = Some (Obj (pre ++ (k, v) :: post)%list) ->
  JSON_parse without = Some (Obj (pre ++ post)%list) ->
  read_prop "action" (pre ++ post)%list = Str tag ->
  catalogue tag = Some shape ->
  ~ In k (map fst shape) ->
  parseCommand with_key = parseCommand without.
Proof.
  intros Hwith Hwithout Htag Hcat Hnew.
  assert (Hother : forall k0 t, In (k0, t) shape -> k0 <> k).
  { intros k0 t Hin ->. apply Hnew. apply (in_map fst) in Hin. exact Hin. }
  destruct (catalogue_envelope _ Hcat) as [Hid Haction].
  assert (Htag' : read_prop "action" (pre ++ (k, v) :: post)%list = Str tag).
  { unfold read_prop in *.
    rewrite (@get_prop_insert_other k "action" v pre post (Hother _ _ Haction)).
    exact Htag. }
  assert (Hparse : zparse commandSchema [] (Obj (pre ++ (k, v) :: post)%list)
                   = zparse commandSchema [] (Obj (pre ++ post)%list)).
  { rewrite (command_dispatch _ [] Htag' Hcat), (command_dispatch _ [] Htag Hcat).
    rewrite !zparse_object. f_equal.
    apply map_ext_Forall. apply Forall_forall. intros [k0 t] Hin.
    unfold field_result, read_prop, has_prop. simpl.
    rewrite (@get_prop_insert_other k k0 v pre post (Hother _ _ Hin)). reflexivity. }
  unfold parseCommand, safeParse. rewrite Hwith, Hwithout, Hparse.
  unfold extract_id, has_prop, read_prop.
  rewrite (@get_prop_insert_other k "id" v pre post (Hother _ _ Hid)). reflexivity.
Qed.

End MoreProtocolFacts.

(* ===================================================================== *)
(** * Further properties of the dispatcher *)
(* ===================================================================== *)

Section MoreDispatcherFacts.
Context {rt : JSRuntime}.
Variables Page World : Type.
Variable cap : Capability Page World.

Lemma halting_ret A (a : A) : halting (ret (Page := Page) (World := World) a).
Proof. intros w. reflexivity. Qed.

Lemma halting_call X (op : Op Page X) : halting (call cap op).
Proof.
  intros w. unfold call.
  destruct (cap op w) as [[x | e] w1]; simpl; [ reflexivity | ].
  exists [], X, op. split; reflexivity.
Qed.

Lemma halting_bind A B (m : M Page World A) (k : A -> M Page World B) :
  halting m -> (forall a, halting (k a)) -> halting (bind m k).
Proof.
  intros Hm Hk w. unfold bind.
  specialize (Hm w).
  destruct (m w) as [[[a | e] w1] log1]; [ | exact Hm ].
  specialize (Hk a w1).
  destruct (k a w1) as [[[b | e] w2] log2].
  - rewrite faults_app, Hm, Hk. reflexivity.
  - destruct Hk as [pre [X [op [-> Hpre]]]].
    exists (log1 ++ pre)%list, X, op. split.
    + apply app_assoc.
    + rewrite faults_app, Hm, Hpre. reflexivity.
Qed.

Ltac halting_steps :=
  repeat first
    [ apply halting_ret
    | apply halting_call
    | apply halting_bind; intros
    | match goal with
      | |- halting (match ?x with _ => _ end) => destruct x
      | |- halting (if ?b then _ else _) => destruct b
      | |- halting (let '(_, _) := ?p in _) => destruct p
      end ].

(** Every handler halts at the first fault. *)
Lemma dispatch_halting (c : Command) : halting (dispatch cap c).
Proof.
  destruct c as [c|c|c|c|c|c|c|c|c|c|c|c|c|c|c|c|c|c|c|c]; simpl;
    [ unfold handleLaunch | unfold handleNavigate | unfold handleClick
    | unfold handleType | unfold handlePress | unfold handleScreenshot
    | unfold handleSnapshot | unfold handleEvaluate | unfold handleWait
    | unfold handleScroll | unfold handleSelect | unfold handleHover
    | unfold handleContent | unfold handleClose | unfold handleTabNew
    | unfold handleTabList | unfold handleTabSwitch | unfold handleTabClose
    | unfold handleWindowNew | idtac ];
    halting_steps.
Qed.

(** X6.  Nothing is called after a fault.  In every run of
    [executeCommand] either no operation threw, or the operation that threw
    is the last one of the log, every call before it returned, and the
    response is the error response built from its message: the run returned
    a response, so the thrown value had a text. *)
Theorem fault_ends_the_run (c : Command) (w w' : World) (r : Response)
        (log : list (Event Page)) :
  executeCommand cap c w = (Returned r, w', log) ->
  faults log = []
  \/ exists (pre : list (Event Page)) (X : Type) (op : Op Page X) (e : Thrown),
       log = (pre ++ [Called op (Threw e)])%list
       /\ faults pre = []
       /\ exists message : string,
            error_message e = Returned message
            /\ r = ErrorResponse (command_id c) message.
Proof.
  rewrite executeCommand_run. intros Hrun.
  pose proof (dispatch_halting c w) as H.
  destruct (dispatch cap c w) as [[[r0 | e] w1] log0].
  - left. inversion Hrun; subst. exact H.
  - right. destruct H as [pre [X [op [-> Hpre]]]].
    destruct (error_message e) as [message | t] eqn:Hmessage; [ | discriminate ].
    inversion Hrun; subst.
    exists pre, X, op, e. split; [ reflexivity | split; [ exact Hpre | ] ].
    exists message. split; [ exact Hmessage | reflexivity ].
Qed.

(** X7.  A command that works on the page asks the browser for it first:
    when [getPage] throws, no other operation is called.  The answer is the
    error response carrying the command's identifier and the text of what
    was thrown: the message of an [Error], the text [String] gives for any
    other value.  When what was thrown is a value [String] cannot convert,
    an object that holds a [toString] of its own for instance, there is no
    answer: [executeCommand] itself ends in the [TypeError] of the
    conversion. *)
Theorem page_fault_answered (c : Command) (w w1 : World) (e : Thrown) :
  needs_page c = true ->
  cap (browser_getPage Page) w = (Threw e, w1) ->
  exists result : Outcome Response,
    executeCommand cap c w
    = (result, w1, [Called (browser_getPage Page) (Threw e)])
    /\ (forall message, e = ThrownError message ->
         result = Returned (ErrorResponse (command_id c) message))
    /\ (forall v text, e = ThrownValue v -> String_ v = Some text ->
         result = Returned (ErrorResponse (command_id c) text))
    /\ (forall v, e = ThrownValue v -> String_ v = None ->
         result = Threw (ThrownError cannot_convert))
    /\ (forall ps x, e = ThrownValue (Obj ps) -> get_prop "toString" ps = Some x ->
         result = Threw (ThrownError cannot_convert)).
Proof.
  intros Hpage Hcap.
  assert (Hdispatch : dispatch cap c w
                      = (Threw e, w1, [Called (browser_getPage Page) (Threw e)])).
  { destruct c; try discriminate Hpage;
      unfold dispatch;
      unfold handleNavigate, handleClick, handleType, handlePress, handleScreenshot,
        handleSnapshot, handleEvaluate, handleWait, handleScroll, handleSelect,
        handleHover, handleContent;
      unfold bind at 1; unfold call at 1; rewrite Hcap; reflexivity. }
  rewrite executeCommand_run, Hdispatch.
  destruct e as [message | v]; simpl.
  - eexists. split; [ reflexivity | ].
    repeat split; intros; congruence.
  - unfold toString. destruct (String_ v) as [text |] eqn:Htext.
    + eexists. split; [ reflexivity | ].
      repeat split; intros;
        repeat match goal with
               | Hs : ThrownValue _ = ThrownValue _ |- _ => inversion Hs; subst; clear Hs
               | Hown : get_prop "toString" _ = Some _ |- _ =>
                   apply String_own_toString in Hown
               end;
        congruence.
    + eexists. split; [ reflexivity | ].
      repeat split; intros; congruence.
Qed.

Ltac orderly_walk :=
  repeat first
    [ apply orderly_after_call; intros
    | apply orderly_ret; reflexivity
    | apply orderly_ret; exact I
    | apply orderly_call
    | match goal with
      | |- orderly _ (bind (match ?x with _ => _ end) _) => destruct x
      | |- orderly _ (bind (if ?b then _ else _) _) => destruct b
      | |- orderly _ (match ?x with _ => _ end) => destruct x
      | |- orderly _ (if ?b then _ else _) => destruct b
      | |- orderly _ (bind (ret _) _) =>
          apply orderly_bind with (pre := fun _ => True);
          [ apply orderly_ret; exact I | intros ]
      | |- orderly _ (let '(_, _) := ?p in _) => destruct p
      | |- orderly _ (bind (bind _ _) _) =>
          apply orderly_bind with (pre := fun _ => True); [ | intros ]
      end ].

(** The handler of a known action that returns, returns a success. *)
Lemma dispatch_succeeds (c : Command) :
  (forall b, c <> CmdOther b) ->
  orderly (fun r => response_success r = true) (dispatch cap c).
Proof.
  intros Hknown.
  destruct c as [c|c|c|c|c|c|c|c|c|c|c|c|c|c|c|c|c|c|c|c]; simpl;
    [ unfold handleLaunch | unfold handleNavigate | unfold handleClick
    | unfold handleType | unfold handlePress | unfold handleScreenshot
    | unfold handleSnapshot | unfold handleEvaluate | unfold handleWait
    | unfold handleScroll | unfold handleSelect | unfold handleHover
    | unfold handleContent | unfold handleClose | unfold handleTabNew
    | unfold handleTabList | unfold handleTabSwitch | unfold handleTabClose
    | unfold handleWindowNew | exfalso; exact (Hknown c eq_refl) ];
    orderly_walk.
Qed.

(** X26.  For a command with one of the nineteen actions, the response
    reports success exactly when no operation of the capability threw:
    a handler has no failure of its own to report, and hides none. *)
Theorem success_iff_no_fault (c : Command) (w w' : World) (r : Response)
        (log : list (Event Page)) :
  executeCommand cap c w = (Returned r, w', log) ->
  (forall b, c <> CmdOther b) ->
  (response_success r = true <-> faults log = []).
Proof.
  rewrite executeCommand_run. intros Hrun Hknown.
  pose proof (dispatch_succeeds Hknown w) as H.
  destruct (dispatch cap c w) as [[[r0 | e] w1] log0].
  - inversion Hrun; subst. tauto.
  - destruct (error_message e) as [message | t]; [ | discriminate ].
    inversion Hrun; subst.
    rewrite H. split; discriminate.
Qed.

(** Take a finished run apart: one case per outcome of each call. *)
Ltac run_open H :=
  unfold executeCommand, try_catch, dispatch in H;
  unfold handleNavigate, handleType, handlePress, handleScreenshot,
    handleSnapshot, handleContent, handleTabSwitch, handleTabList, handleScroll,
    scroll_deltas, given in H;
  unfold bind, call, ret, lift in H.

Ltac run_calls H :=
  repeat match type of H with
         | context [cap ?op ?w] =>
             destruct (cap op w) as [[? | ?] ?] eqn:?; simpl in H
         | context [error_message ?e] =>
             destruct (error_message e) as [? | ?]; simpl in H
         end;
  inversion H; subst; clear H.

Ltac units := repeat match goal with u : unit |- _ => destruct u end.

(** X8.  A navigation that succeeds goes to the URL of the command, waiting
    for [load] unless the command names another event, and reports what the
    page says afterwards: its URL and its title, not the URL asked for. *)
Theorem handleNavigate_reports_page (c : NavigateCommand) (w w' : World)
        (r : Response) (log : list (Event Page)) :
  executeCommand cap (CmdNavigate c) w = (Returned r, w', log) ->
  response_success r = true ->
  exists (page : Page) (url title : string),
    log = [Called (browser_getPage Page) (Returned page);
           Called (page_goto page (navigate_url c)
                     (match navigate_waitUntil c with
                      | Some event => event
                      | None => wu_load
                      end))
                  (Returned tt);
           Called (page_url page) (Returned url);
           Called (page_title page) (Returned title)]
    /\ r = SuccessResponse (navigate_id c) (Obj [("url", Str url); ("title", Str title)]).
Proof.
  intros Hrun Hok.
  run_open Hrun. run_calls Hrun; try discriminate. units.
  do 3 eexists. split; reflexivity.
Qed.

(** X9.  Typing with [clear] set empties the field first: the page is asked
    to fill the selector with the empty text before the text is typed.
    Without [clear], or with [clear] false, nothing is filled. *)
Theorem handleType_clear (c : TypeCommand) (w w' : World)
        (r : Response) (log : list (Event Page)) :
  executeCommand cap (CmdType c) w = (Returned r, w', log) ->
  response_success r = true ->
  exists page : Page,
    let typed := Called (page_type page (type_selector c) (type_text c) (type_delay c))
                   (Returned tt) in
    (type_clear c = Some true ->
       log = [Called (browser_getPage Page) (Returned page);
              Called (page_fill page (type_selector c) "") (Returned tt);
              typed])
    /\ (type_clear c <> Some true ->
          log = [Called (browser_getPage Page) (Returned page); typed])
    /\ r = SuccessResponse (type_id c) (Obj [("typed", Bool true)]).
Proof.
  intros Hrun Hok.
  destruct c as [id sel text delay clear].
  run_open Hrun. cbn [type_clear type_selector type_text type_delay type_id] in *.
  destruct clear as [[|] |];
    run_calls Hrun; try discriminate; units;
    eexists; cbn zeta; repeat split; intros; try reflexivity; congruence.
Qed.

(** X10.  A key press goes to the element when the command names a
    selector that is not empty, and to the keyboard of the page otherwise. *)
Theorem handlePress_target (c : PressCommand) (w w' : World)
        (r : Response) (log : list (Event Page)) :
  executeCommand cap (CmdPress c) w = (Returned r, w', log) ->
  response_success r = true ->
  exists page : Page,
    (forall sel, press_selector c = Some sel -> sel <> "" ->
       log = [Called (browser_getPage Page) (Returned page);
              Called (page_press page sel (press_key c)) (Returned tt)])
    /\ (press_selector c = None \/ press_selector c = Some "" ->
          log = [Called (browser_getPage Page) (Returned page);
                 Called (page_keyboard_press page (press_key c)) (Returned tt)])
    /\ r = SuccessResponse (press_id c) (Obj [("pressed", Bool true)]).
Proof.
  intros Hrun Hok.
  destruct c as [id key sel].
  run_open Hrun. cbn [press_selector press_key press_id] in *.
  destruct sel as [[| ch rest] |]; cbn [truthy_string] in Hrun;
    run_calls Hrun; try discriminate; units;
    eexists; repeat split;
    try (intros sel Hsel Hne; inversion Hsel; subst; congruence || reflexivity);
    try (intros [Hsel | Hsel]; try discriminate; reflexivity).
Qed.

(** X11.  The options a screenshot is taken with: the image type is the
    format of the command, [png] when it names none; a quality is passed on
    only together with the format [jpeg]; and the picture is taken of the
    element when the command names a selector that is not empty, of the page
    otherwise. *)
Theorem handleScreenshot_options (c : ScreenshotCommand) (w w' : World)
        (r : Response) (log : list (Event Page)) :
  executeCommand cap (CmdScreenshot c) w = (Returned r, w', log) ->
  response_success r = true ->
  exists (page : Page) (target : Target Page) (options : ScreenshotOptions)
         (buffer : Buffer),
    log = [Called (browser_getPage Page) (Returned page);
           Called (target_screenshot target options) (Returned buffer)]
    /\ opt_fullPage options = screenshot_fullPage c
    /\ opt_type options = match screenshot_format c with
                          | Some format => format
                          | None => png
                          end
    /\ (forall q, opt_quality options = Some q
                  <-> screenshot_format c = Some jpeg /\ screenshot_quality c = Some q)
    /\ (forall sel, screenshot_selector c = Some sel -> sel <> "" ->
          target = OnLocator (mkLocator page sel))
    /\ (screenshot_selector c = None \/ screenshot_selector c = Some "" ->
          target = OnPage page).
Proof.
  intros Hrun Hok.
  destruct c as [id path fullPage selector format quality].
  run_open Hrun.
  cbn [screenshot_id screenshot_path screenshot_fullPage screenshot_selector
       screenshot_format screenshot_quality] in *.
  destruct path as [[| ch rest] |]; destruct selector as [[| ch' rest'] |];
    cbn [truthy_string] in Hrun;
    run_calls Hrun; try discriminate;
    do 4 eexists; (split; [ reflexivity | ]); cbn;
    (split; [ reflexivity | ]); (split; [ destruct format; reflexivity | ]);
    (split; [ intros q; destruct format as [[|] |]; destruct quality;
              intuition congruence | ]);
    (split; [ intros sel Hsel Hne; inversion Hsel; subst; congruence || reflexivity
            | intros [Hsel | Hsel]; try discriminate; reflexivity ]).
Qed.

(** X12.  A snapshot is taken of the root element.  Its text is passed on
    as it is, the empty text too; only when the page has none to give is
    [Empty page] reported in its place. *)
Theorem handleSnapshot_default (c : BareCommand) (w w' : World)
        (r : Response) (log : list (Event Page)) :
  executeCommand cap (CmdSnapshot c) w = (Returned r, w', log) ->
  response_success r = true ->
  exists (page : Page) (snapshot : option string),
    log = [Called (browser_getPage Page) (Returned page);
           Called (locator_ariaSnapshot (mkLocator page ":root")) (Returned snapshot)]
    /\ (forall text, snapshot = Some text ->
          r = SuccessResponse (bare_id c) (Obj [("snapshot", Str text)]))
    /\ (snapshot = None ->
          r = SuccessResponse (bare_id c) (Obj [("snapshot", Str "Empty page")])).
Proof.
  intros Hrun Hok.
  run_open Hrun. run_calls Hrun; try discriminate.
  do 2 eexists. split; [ reflexivity | ].
  split; [ intros text -> | intros -> ]; reflexivity.
Qed.

(** X13.  The markup reported is the inner HTML of the element when the
    command names a selector that is not empty, and the content of the whole
    page otherwise. *)
Theorem handleContent_source (c : ContentCommand) (w w' : World)
        (r : Response) (log : list (Event Page)) :
  executeCommand cap (CmdContent c) w = (Returned r, w', log) ->
  response_success r = true ->
  exists (page : Page) (html : string),
    r = SuccessResponse (content_id c) (Obj [("html", Str html)])
    /\ (forall sel, content_selector c = Some sel -> sel <> "" ->
          log = [Called (browser_getPage Page) (Returned page);
                 Called (locator_innerHTML (mkLocator page sel)) (Returned html)])
    /\ (content_selector c = None \/ content_selector c = Some "" ->
          log = [Called (browser_getPage Page) (Returned page);
                 Called (page_content page) (Returned html)]).
Proof.
  intros Hrun Hok.
  destruct c as [id sel].
  run_open Hrun. cbn [content_selector content_id] in *.
  destruct sel as [[| ch rest] |]; cbn [truthy_string] in Hrun;
    run_calls Hrun; try discriminate;
    do 2 eexists; (split; [ reflexivity | ]); split;
    try (intros sel Hsel Hne; inversion Hsel; subst; congruence || reflexivity);
    try (intros [Hsel | Hsel]; try discriminate; reflexivity).
Qed.

Lemma get_prop_set_key (k : string) (v : value) (l : list (string * value)) :
  get_prop k (set_key k v l) = Some v.
Proof.
  induction l as [| [k' v'] rest IH]; simpl.
  - rewrite String.eqb_refl. reflexivity.
  - destruct (String.eqb k k') eqn:Hk; simpl; rewrite ?String.eqb_refl; try reflexivity.
    rewrite Hk. exact IH.
Qed.

Lemma get_prop_set_key_other (k k0 : string) (v : value) (l : list (string * value)) :
  k0 <> k -> get_prop k0 (set_key k v l) = get_prop k0 l.
Proof.
  intros Hne. apply String.eqb_neq in Hne.
  induction l as [| [k' v'] rest IH]; simpl.
  - rewrite Hne. reflexivity.
  - destruct (String.eqb k k') eqn:Hk; simpl.
    + apply String.eqb_eq in Hk. subst k'. rewrite Hne. reflexivity.
    + destruct (String.eqb k0 k'); [ reflexivity | exact IH ].
Qed.

(** X14.  Switching tabs reports what the browser manager returned for the
    switch, with the title of the page now active written over any title in
    it: the switch is made first, then the page is asked for, then its
    title. *)
Theorem handleTabSwitch_title (c : TabSwitchCommand) (w w' : World)
        (r : Response) (log : list (Event Page)) :
  executeCommand cap (CmdTabSwitch c) w = (Returned r, w', log) ->
  response_success r = true ->
  exists (result data : list (string * value)) (page : Page) (title : string),
    log = [Called (browser_switchTo Page (tab_switch_index c)) (Returned result);
           Called (browser_getPage Page) (Returned page);
           Called (page_title page) (Returned title)]
    /\ r = SuccessResponse (tab_switch_id c) (Obj data)
    /\ get_prop "title" data = Some (Str title)
    /\ (forall k, k <> "title" -> get_prop k data = get_prop k result).
Proof.
  intros Hrun Hok.
  run_open Hrun. run_calls Hrun; try discriminate.
  do 4 eexists. split; [ reflexivity | ]. split; [ reflexivity | ].
  unfold spread. simpl. split.
  - apply get_prop_set_key.
  - intros k Hk. apply get_prop_set_key_other. exact Hk.
Qed.

(** X21.  A scroll of the whole page.  When the command names no selector,
    or an empty one, the page evaluates one script, [window.scrollBy(dx, dy)].
    A named direction decides its own axis and overrides what the command
    gives there: [-amount] for up and left, [amount] for down and right,
    with 100 for an absent amount.  The other axis, and both when no
    direction is named, take [x] and [y], 0 when absent. *)
Theorem handleScroll_page_deltas (c : ScrollCommand) (w w' : World)
        (r : Response) (log : list (Event Page)) :
  scroll_selector c = None \/ scroll_selector c = Some "" ->
  executeCommand cap (CmdScroll c) w = (Returned r, w', log) ->
  response_success r = true ->
  let amount := match scroll_amount c with Some a => a | None => Finite 100 end in
  let x := match scroll_x c with Some x => x | None => Finite 0 end in
  let y := match scroll_y c with Some y => y | None => Finite 0 end in
  let dx := match scroll_direction c with
            | Some dir_left => neg amount
            | Some dir_right => amount
            | _ => x
            end in
  let dy := match scroll_direction c with
            | Some dir_up => neg amount
            | Some dir_down => amount
            | _ => y
            end in
  exists (page : Page) (result : value),
    log = [Called (browser_getPage Page) (Returned page);
           Called (page_evaluate page
                     ("window.scrollBy(" ++ Number_toString dx ++ ", "
                      ++ Number_toString dy ++ ")"))
                  (Returned result)]
    /\ r = SuccessResponse (scroll_id c) (Obj [("scrolled", Bool true)]).
Proof.
  intros Hsel Hrun Hok.
  destruct c as [id s x y d a].
  cbn [scroll_selector scroll_x scroll_y scroll_direction scroll_amount scroll_id] in *.
  run_open Hrun.
  cbn [scroll_selector scroll_x scroll_y scroll_direction scroll_amount scroll_id
       truthy_string nullish] in Hrun.
  destruct Hsel as [-> | ->]; destruct d as [[| | |] |];
    cbn [truthy_string nullish] in Hrun;
    run_calls Hrun; try discriminate;
    do 2 eexists; split; reflexivity.
Qed.

End MoreDispatcherFacts.

(* ===================================================================== *)
(** * Further properties of the CLI *)
(* ===================================================================== *)

Module CliMore.
Import Cli.

Section Positional.

Lemma cleanArgs_from_app (pre post : list string) (prev : option string) :
  cleanArgs_from prev (pre ++ post)%list
  = (cleanArgs_from prev pre ++ cleanArgs_from (arg_before prev pre) post)%list.
Proof.
  revert prev. induction pre as [| a pre IH]; intros prev; [ reflexivity | ].
  cbn [app cleanArgs_from arg_before fold_left].
  rewrite IH. unfold arg_before.
  destruct (if startsWith a "-" then false else _); reflexivity.
Qed.

Lemma cleanArgs_from_head (prev : option string) (post : list string) :
  match prev with Some p => takes_value p = false | None => True end ->
  cleanArgs_from prev post = cleanArgs post.
Proof.
  intros Hprev. destruct post as [| a post]; [ reflexivity | ].
  unfold cleanArgs. cbn [cleanArgs_from].
  destruct prev as [p |]; [ | reflexivity ].
  unfold takes_value in Hprev.
  apply orb_false_iff in Hprev. destruct Hprev as [Hprev H3].
  rewrite Hprev, H3. reflexivity.
Qed.

Lemma arg_before_last (prev : option string) (front : list string) (p : string) :
  arg_before prev (front ++ [p])%list = Some p.
Proof. unfold arg_before. rewrite fold_left_app. reflexivity. Qed.

(** X15.  A flag that takes a value ([--selector], [-s], [--session]) can
    stand anywhere among the arguments but right after another such flag:
    the flag and the value after it are both left out of the positional
    arguments, and the arguments around them are read as if the two were
    not there. *)
Theorem flag_value_dropped (pre post : list string) (flag v : string) :
  takes_value flag = true ->
  takes_value v = false ->
  (forall front p, pre = (front ++ [p])%list -> takes_value p = false) ->
  cleanArgs (pre ++ flag :: v :: post)%list = cleanArgs (pre ++ post)%list
  /\ cleanArgs (pre ++ post)%list = (cleanArgs pre ++ cleanArgs post)%list.
Proof.
  intros Hflag Hv Hpre.
  assert (Hwithout : cleanArgs (pre ++ post)%list
                     = (cleanArgs pre ++ cleanArgs post)%list).
  { unfold cleanArgs at 1. rewrite cleanArgs_from_app. f_equal.
    apply cleanArgs_from_head.
    destruct pre as [| a pre']; [ exact I | ].
    destruct (@exists_last _ (a :: pre') ltac:(discriminate)) as [front [p Hlast]].
    rewrite Hlast, arg_before_last. exact (Hpre front p Hlast). }
  split; [ | exact Hwithout ].
  rewrite Hwithout. unfold cleanArgs at 1.
  rewrite cleanArgs_from_app. f_equal.
  assert (Hdash : startsWith flag "-" = true).
  { unfold takes_value in Hflag.
    apply orb_true_iff in Hflag. destruct Hflag as [Hflag | Hflag];
      [ apply orb_true_iff in Hflag; destruct Hflag as [Hflag | Hflag] | ];
      apply String.eqb_eq in Hflag; subst flag; reflexivity. }
  cbn [cleanArgs_from]. rewrite Hdash.
  assert (Hdrop : (if startsWith v "-" then false
                   else if String.eqb flag "--selector" || String.eqb flag "-s" then false
                        else if String.eqb flag "--session" then false else true) = false).
  { destruct (startsWith v "-"); [ reflexivity | ].
    unfold takes_value in Hflag.
    destruct (String.eqb flag "--selector" || String.eqb flag "-s"); [ reflexivity | ].
    simpl in Hflag. rewrite Hflag. reflexivity. }
  rewrite Hdrop.
  apply cleanArgs_from_head. exact Hv.
Qed.

(** X16.  The positional arguments are arguments that were given, and none
    of them starts with a dash: a flag is never read as the command or as
    one of its operands. *)
Theorem cleanArgs_no_flags (args : list string) (a : string) :
  In a (cleanArgs args) -> startsWith a "-" = false /\ In a args.
Proof.
  unfold cleanArgs. generalize (@None string) as prev.
  induction args as [| b args IH]; intros prev Hin; [ contradiction | ].
  cbn [cleanArgs_from] in Hin.
  destruct (startsWith b "-") eqn:Hb.
  - destruct (IH _ Hin) as [H1 H2]. split; [ exact H1 | right; exact H2 ].
  - match type of Hin with
    | In _ (if ?k then _ else _) => destruct k
    end.
    + destruct Hin as [<- | Hin]; [ split; [ exact Hb | left; reflexivity ] | ].
      destruct (IH _ Hin) as [H1 H2]. split; [ exact H1 | right; exact H2 ].
    + destruct (IH _ Hin) as [H1 H2]. split; [ exact H1 | right; exact H2 ].
Qed.

End Positional.

Section Accepted.
Context {rt : JSRuntime}.

(** X17.  Whatever the arguments, a command the CLI sends is an object that
    carries the identifier drawn for it and one of the nineteen actions of
    the protocol. *)
Theorem build_sends_known_action (args : list string) (id : string) (cmd : value) :
  build args id = Send cmd ->
  exists (props : list (string * value)) (tag : string),
    cmd = Obj props
    /\ get_prop "id" props = Some (Str id)
    /\ get_prop "action" props = Some (Str tag)
    /\ In tag action_tags.
Proof.
  intros H. unfold build in H.
  match type of H with
  | context [Nat.eqb ?a ?b || ?c || ?d] =>
      destruct (Nat.eqb a b || c || d); [ discriminate H | ]
  end.
  cbv zeta beta in H.
  destruct (nth_error (cleanArgs args) 0) as [verb |];
    [ | cbn [orb] in H; discriminate H ].
  repeat match type of H with
         | context [String.eqb verb ?s] =>
             destruct (String.eqb verb s); cbn [orb] in H
         end.
  all: repeat match type of H with
         | (match ?x with _ => _ end) = _ => destruct x
         | (if ?x then _ else _) = _ => destruct x
         end; try discriminate H.
  all: inversion H; subst; clear H; do 2 eexists; (split; [ reflexivity | ]);
    (split; [ reflexivity | ]); (split; [ reflexivity | ]); cbv; tauto.
Qed.

Lemma selectorOverride_not_empty (args : list string) :
  selectorOverride args <> Some "".
Proof.
  induction args as [| a rest IH]; simpl; [ discriminate | ].
  destruct (String.eqb a "--selector" || String.eqb a "-s"); [ | exact IH ].
  destruct rest as [| [| ch v] rest']; discriminate.
Qed.

(** X28.  When the CLI leaves without sending a command, the exit code is 0
    or 1, and it is 0 only if help was asked for, no argument was given, or
    the command is [session]: every complaint about the arguments leaves
    with 1. *)
Theorem early_exit_codes (args : list string) (id : string) (code : nat) :
  build args id = Exit code ->
  (code = 0%nat \/ code = 1%nat)
  /\ (code = 0%nat ->
        args = [] \/ includes "--help" args = true \/ includes "-h" args = true
        \/ nth_error (cleanArgs args) 0 = Some "session").
Proof.
  intros H. unfold build in H.
  destruct (Nat.eqb (length args) 0) eqn:Hlen.
  { cbn [orb] in H. inversion H; subst. split; [ auto | ].
    intros _. left. destruct args; [ reflexivity | discriminate Hlen ]. }
  destruct (includes "--help" args) eqn:Hhelp.
  { cbn [orb] in H. inversion H; subst. auto. }
  destruct (includes "-h" args) eqn:Hh.
  { cbn [orb] in H. inversion H; subst. auto 6. }
  cbn [orb] in H. cbv zeta beta in H.
  destruct (nth_error (cleanArgs args) 0) as [verb |] eqn:Hverb;
    [ | cbn [orb] in H; inversion H; subst; split; [ auto | discriminate ] ].
  repeat match type of H with
         | context [String.eqb verb ?s] =>
             destruct (String.eqb verb s) eqn:?; cbn [orb] in H
         end.
  all: repeat match type of H with
         | (match ?x with _ => _ end) = _ => destruct x
         | (if ?x then _ else _) = _ => destruct x
         end; try discriminate H.
  all: inversion H; subst; clear H; (split; [ auto | ]); try discriminate.
  all: intros _; do 3 right;
    match goal with
    | Hs : String.eqb ?v "session" = true |- _ =>
        apply String.eqb_eq in Hs; subst v; reflexivity
    end.
Qed.

(** X18.  Except for the four actions that carry a number typed on the
    command line ([wait], [scroll], [tab_switch], [tab_close]), every command
    the CLI sends satisfies the command schema, both as it is built and as it
    arrives once serialised, with its undefined properties dropped: the CLI
    does not send what the daemon would turn down. *)
Theorem cli_command_accepted (args : list string) (id : string)
        (props : list (string * value)) :
  build args id = Send (Obj props) ->
  (forall tag, In tag ["wait"; "scroll"; "tab_switch"; "tab_close"] ->
               read_prop "action" props <> Str tag) ->
  accepts commandSchema (Obj props) = true
  /\ accepts commandSchema (jsonify (Obj props)) = true.
Proof.
  intros H Hnum. unfold build in H.
  match type of H with
  | context [Nat.eqb ?a ?b || ?c || ?d] =>
      destruct (Nat.eqb a b || c || d); [ discriminate H | ]
  end.
  cbv zeta beta in H.
  pose proof (selectorOverride_not_empty args) as Hov.
  destruct (nth_error (cleanArgs args) 0) as [verb |];
    [ | cbn [orb] in H; discriminate H ].
  repeat match type of H with
         | context [String.eqb verb ?s] =>
             destruct (String.eqb verb s); cbn [orb] in H
         end.
  all: repeat (match type of H with
         | context [startsWith ?a ?b] => destruct (startsWith a b)
         | context [nth_error ?l ?i] => destruct (nth_error l i) as [[| ? ?] |]
         | context [selectorOverride ?a] =>
             destruct (selectorOverride a) as [[| ? ?] |]; [ congruence | | ]
         | context [join ?s ?l] => destruct (join s l) as [| ? ?]
         | context [includes ?s ?l] => destruct (includes s l)
         | context [String.eqb ?a ?b] => destruct (String.eqb a b)
         | (if ?x then _ else _) = _ => destruct x
         | (match ?x with _ => _ end) = _ => destruct x
         end; cbn [truthy_string missing opt_str negb orb andb] in H);
    try discriminate H.
  all: inversion H; subst; clear H;
    first [ split; reflexivity
          | exfalso; eapply Hnum; [ | reflexivity ]; cbv; tauto ].
Qed.

Lemma Qle_bool_inject_Z (n : Z) : Qle_bool (inject_Z n) 0 = (n <=? 0)%Z.
Proof. unfold Qle_bool. simpl. rewrite Z.mul_1_r. reflexivity. Qed.

(** X19.  [wait] followed by a text that [parseInt] reads as a number
    sends a timeout, whether or not [--text] is given: the timeout is the
    very number [parseInt] returns for that text, and no selector is sent.
    A text [parseInt] does not read as a number is sent as a selector, behind
    [text=] when [--text] or [-t] is given.  The schema accepts the command
    with a timeout, as it is built, exactly when the number is above zero;
    as it arrives once serialised, exactly when the number is also finite. *)
Theorem wait_number_is_timeout (args rest : list string) (id target : string)
        (ms : number) :
  includes "--help" args = false ->
  includes "-h" args = false ->
  cleanArgs args = "wait" :: target :: rest ->
  target <> "" ->
  parseInt (Some target) = ms ->
  let timed := Obj [("id", Str id); ("action", Str "wait"); ("timeout", Num ms)] in
  (isNaN ms = false ->
     build args id = Send timed
     /\ (accepts commandSchema timed = true <-> num_lt (Finite 0) ms = true)
     /\ (accepts commandSchema (jsonify timed) = true
         <-> exists q, ms = Finite q /\ (0 < q)%Q))
  /\ (isNaN ms = true ->
       build args id
       = Send (Obj [("id", Str id); ("action", Str "wait");
                    ("selector",
                     Str (if includes "--text" args || includes "-t" args
                          then "text=" ++ target else target))])).
Proof.
  intros Hhelp Hh Hclean Htarget Hms timed.
  assert (Hlen : Nat.eqb (length args) 0 = false).
  { destruct args; [ discriminate Hclean | reflexivity ]. }
  assert (Htruthy : truthy_string target = true).
  { destruct target; [ congruence | reflexivity ]. }
  assert (Hfield : ms <> NaN ->
                   (status (zparse (optional (positive z_number)) [Key "timeout"] (Num ms))
                    = valid
                    <-> num_lt (Finite 0) ms = true)).
  { intros Hnan.
    destruct ms as [| q | |]; [ congruence | | | ];
      cbn [optional positive z_number add_check app zparse flat_map
           number_check_issue num_le num_lt getParsedType].
    - destruct (Qle_bool q 0); simpl; split; intros H;
        first [ reflexivity | discriminate H ].
    - simpl. split; intros H; first [ reflexivity | discriminate H ].
    - simpl. split; intros H; first [ reflexivity | discriminate H ]. }
  split.
  - intros Hnum.
    assert (Hnan : ms <> NaN) by (intros ->; discriminate Hnum).
    split; [ | split ].
    + unfold build. rewrite Hhelp, Hh, Hclean, Hlen.
      cbn [orb nth_error]. cbn -[parseInt isNaN].
      rewrite Htruthy, Hms, Hnum. reflexivity.
    + unfold timed. rewrite accepts_valid.
      rewrite (@command_valid_iff rt
                 [("id", Str id); ("action", Str "wait"); ("timeout", Num ms)]
                 "wait"
                 [("id", z_string); ("action", z_literal "wait");
                  ("selector", optional (z_string_min 1));
                  ("timeout", optional (positive z_number));
                  ("state", optional (z_enum ["attached"; "detached"; "visible"; "hidden"]))]
                 eq_refl eq_refl).
      split.
      * intros Hall. apply (Hfield Hnan).
        exact (Forall_inv (Forall_inv_tail (Forall_inv_tail (Forall_inv_tail Hall)))).
      * intros Hlt. repeat constructor. apply (Hfield Hnan). exact Hlt.
    + destruct ms as [| q | |]; [ congruence | | | ].
      * assert (Hsame : jsonify timed = timed) by reflexivity.
        rewrite Hsame. unfold timed. rewrite accepts_valid.
        rewrite (@command_valid_iff rt
                   [("id", Str id); ("action", Str "wait"); ("timeout", Num (Finite q))]
                   "wait"
                   [("id", z_string); ("action", z_literal "wait");
                    ("selector", optional (z_string_min 1));
                    ("timeout", optional (positive z_number));
                    ("state", optional (z_enum ["attached"; "detached"; "visible"; "hidden"]))]
                   eq_refl eq_refl).
        assert (Hlt : num_lt (Finite 0) (Finite q) = true <-> (0 < q)%Q).
        { cbn [num_lt]. rewrite negb_true_iff.
          split; intros H.
          - apply Qnot_le_lt. intros Hle. apply Qle_bool_iff in Hle. congruence.
          - destruct (Qle_bool q 0) eqn:Hle; [ | reflexivity ].
            apply Qle_bool_iff in Hle. exfalso. exact (Qlt_not_le _ _ H Hle). }
        split.
        -- intros Hall. exists q. split; [ reflexivity | ].
           apply Hlt. apply (Hfield Hnan).
           exact (Forall_inv (Forall_inv_tail (Forall_inv_tail (Forall_inv_tail Hall)))).
        -- intros [q' [Hq Hpos]]. inversion Hq; subst q'.
           repeat constructor. apply (Hfield Hnan). apply Hlt. exact Hpos.
      * split; [ intros H; discriminate H | intros [q [Hq _]]; discriminate Hq ].
      * split; [ intros H; discriminate H | intros [q [Hq _]]; discriminate Hq ].
  - intros Hnum.
    unfold build. rewrite Hhelp, Hh, Hclean, Hlen.
    cbn [orb nth_error]. cbn -[parseInt isNaN includes append].
    rewrite Htruthy, Hms, Hnum. cbn [negb].
    destruct (includes "--text" args || includes "-t" args); reflexivity.
Qed.

Lemma or_number_truthy (a b : number) :
  truthy_number b = true -> truthy_number (or_number a b) = true.
Proof.
  intros Hb. unfold or_number. destruct (truthy_number a) eqn:Ha; assumption.
Qed.

(** X20.  The distance of a scroll sent by the CLI is never zero and never
    not-a-number.  It is what [parseInt] reads from the operand it belongs
    to: the second operand for the [amount] that goes with a direction, the
    first for a bare [y].  Where that operand is missing, or [parseInt]
    reads zero or no number from it, 300 is sent in its place. *)
Theorem scroll_distance_not_zero (args : list string) (id : string)
        (props : list (string * value)) (k : string) (n : number) :
  build args id = Send (Obj props) ->
  read_prop "action" props = Str "scroll" ->
  get_prop k props = Some (Num n) ->
  truthy_number n = true
  /\ exists operand : option string,
       ((k = "amount" /\ operand = nth_error (cleanArgs args) 2)
        \/ (k = "y" /\ operand = nth_error (cleanArgs args) 1))
       /\ (truthy_number (parseInt operand) = true -> n = parseInt operand)
       /\ (truthy_number (parseInt operand) = false -> n = Finite 300).
Proof.
  intros H Htag Hget. unfold build in H.
  match type of H with
  | context [Nat.eqb ?a ?b || ?c || ?d] =>
      destruct (Nat.eqb a b || c || d); [ discriminate H | ]
  end.
  cbv zeta beta in H.
  destruct (nth_error (cleanArgs args) 0) as [verb |];
    [ | cbn [orb] in H; discriminate H ].
  repeat match type of H with
         | context [String.eqb verb ?s] =>
             destruct (String.eqb verb s); cbn [orb] in H
         end.
  all: repeat match type of H with
         | (match ?x with _ => _ end) = _ => destruct x eqn:?
         | (if ?x then _ else _) = _ => destruct x eqn:?
         end; try discriminate H.
  all: inversion H; subst; clear H; try discriminate Htag.
  all: cbn [get_prop] in Hget;
    repeat match type of Hget with
           | (if ?b then _ else _) = _ => destruct b eqn:?
           end;
    first [ discriminate Hget
          | exfalso; inversion Hget as [Hsel];
            destruct (selectorOverride _); discriminate Hsel
          | inversion Hget; subst; clear Hget ].
  all: repeat match goal with
         | Hk : String.eqb _ _ = true |- _ => apply String.eqb_eq in Hk; subst
         end.
  all: (split; [ apply or_number_truthy; reflexivity | ]).
  all: eexists; (split; [ first [ left; split; reflexivity
                               | right; split; [ reflexivity | eassumption ]
                               | right; split; reflexivity ] | ]).
  all: cbn [nth_error] in *.
  all: repeat match goal with
         | Heq : _ = Some _ |- _ => rewrite Heq in *; clear Heq
         | Heq : _ = @None string |- _ => rewrite Heq in *; clear Heq
         end.
  all: unfold or_number; cbn [parseInt]; split; intros Hread; rewrite ?Hread;
    try reflexivity.
Qed.

End Accepted.

End CliMore.

(* ===================================================================== *)
(** * Properties of the CLI's output and of its session list *)
(* ===================================================================== *)

Module TerminalFacts.
Import Terminal.

Section Facts.
Context {rt : JSRuntime} {engine : Engine}.

Lemma done_quiet A (a : A) : quiet (done a).
Proof. repeat split; [ constructor | discriminate | discriminate ]. Qed.

Lemma raise_quiet A (message : string) : quiet (@raise A (ThrownError message)).
Proof. repeat split; [ constructor | discriminate | discriminate ]. Qed.

Lemma log_quiet (args : list value) : quiet (log args).
Proof.
  repeat split; [ repeat constructor | discriminate | discriminate ].
Qed.

Lemma text_quiet (v : value) : quiet (text v).
Proof.
  unfold text. destruct (String_ v); [ apply done_quiet | apply raise_quiet ].
Qed.

Lemma quiet_andThen A B (first : Proc A) (next : A -> Proc B) :
  quiet first -> (forall a, quiet (next a)) -> quiet (andThen first next).
Proof.
  intros [Hout1 [Hexit1 Hraise1]] Hnext.
  destruct first as [out1 [a | code | e]]; unfold andThen; simpl in *.
  - destruct (Hnext a) as [Hout2 [Hexit2 Hraise2]].
    split; [ apply Forall_app; split; assumption | split; assumption ].
  - exfalso. exact (Hexit1 code eq_refl).
  - split; [ exact Hout1 | split; [ discriminate | ] ].
    intros v Hv. simpl in Hv. inversion Hv; subst. exact (Hraise1 v eq_refl).
Qed.

Ltac quiet_steps :=
  repeat first
    [ apply done_quiet
    | apply raise_quiet
    | apply log_quiet
    | apply text_quiet
    | apply quiet_andThen; [ | intros ]
    | match goal with
      | |- quiet (if ?b then _ else _) => destruct b
      | |- quiet (match ?x with _ => _ end) => destruct x
      end ].

Lemma print_tab_quiet (tab : value) : quiet (print_tab tab).
Proof. unfold print_tab. quiet_steps. Qed.

Lemma forEach_quiet (f : value -> Proc unit) (elems : list value) :
  (forall e, quiet (f e)) -> quiet (forEach f elems).
Proof.
  intros Hf. induction elems as [| e rest IH]; simpl.
  - apply done_quiet.
  - apply quiet_andThen; [ apply Hf | intros _; exact IH ].
Qed.

(** The pretty printer writes to standard output only, never leaves the
    process itself, and what it throws is an [Error]. *)
Lemma print_data_quiet (data : value) : quiet (print_data data).
Proof.
  unfold print_data.
  repeat first
    [ apply done_quiet
    | apply raise_quiet
    | apply log_quiet
    | apply text_quiet
    | apply forEach_quiet; exact print_tab_quiet
    | apply quiet_andThen; [ | intros ]
    | match goal with
      | |- quiet (if ?b then _ else _) => destruct b
      | |- quiet (match ?x with _ => _ end) => destruct x
      end ].
Qed.

(** How [finish] ends, case by case. *)
Lemma finish_cases (jsonMode : bool) (id : string) (sent : list Output)
      (reply : Outcome Response) :
  exists own : list Output,
    fst (finish jsonMode id sent reply) = (sent ++ own)%list
    /\ ((exists r, reply = Returned r /\ jsonMode = true
                   /\ own = [Log [Str (JSON_stringify (Response_toJS r))]]
                   /\ snd (finish jsonMode id sent reply) = Returned 0%nat)
        \/ (exists rid data, reply = Returned (SuccessResponse rid data)
                             /\ jsonMode = false
                             /\ Forall (fun o => is_error o = false) own
                             /\ snd (finish jsonMode id sent reply) = Returned 0%nat)
        \/ (exists message before,
              snd (finish jsonMode id sent reply) = Returned 1%nat
              /\ Forall (fun o => is_error o = false) before
              /\ (forall r, reply = Returned r -> jsonMode = false)
              /\ own
                 = (before
                    ++ [if jsonMode
                        then Log [Str (JSON_stringify
                                         (Obj [("id", Str id); ("success", Bool false);
                                               ("error", Str message)]))]
                        else Error [Str (c red (ballot_cross ++ " Error:"));
                                    Str message]])%list
              /\ (jsonMode = true -> before = []))
        \/ (exists v, reply = Threw (ThrownValue v) /\ String_ v = None
                      /\ own = []
                      /\ snd (finish jsonMode id sent reply)
                         = Threw (ThrownError cannot_convert))).
Proof.
  unfold finish. destruct reply as [r | e].
  - destruct jsonMode.
    + exists [Log [Str (JSON_stringify (Response_toJS r))]].
      split; [ reflexivity | ]. left. exists r. auto.
    + destruct r as [rid data | rid error].
      * unfold printResponse.
        pose proof (print_data_quiet data) as [Hout [Hexit Hraise]].
        destruct (print_data data) as [out0 [[] | code0 | e0]]; simpl in Hout.
        -- exists out0. split; [ reflexivity | ].
           right. left. exists rid, data. auto.
        -- exfalso. exact (Hexit code0 eq_refl).
        -- destruct e0 as [message | v]; [ | exfalso; exact (Hraise v eq_refl) ].
           exists (out0 ++ [Error [Str (c red (ballot_cross ++ " Error:")); Str message]])%list.
           split; [ simpl; rewrite app_assoc; reflexivity | ].
           right. right. left. exists message, out0.
           simpl. repeat split; try assumption; try reflexivity; discriminate.
      * exists [Error [Str (c red (ballot_cross ++ " Error:")); Str error]].
        split; [ reflexivity | ].
        right. right. left. exists error, []. simpl.
        repeat split; try reflexivity; try constructor; discriminate.
  - destruct e as [message | v]; simpl.
    + eexists. split; [ reflexivity | ].
      right. right. left. exists message, [].
      repeat split; try reflexivity; try constructor; discriminate.
    + unfold toString. destruct (String_ v) as [message |] eqn:Htext.
      * eexists. split; [ reflexivity | ].
        right. right. left. exists message, [].
        repeat split; try reflexivity; try constructor; discriminate.
      * exists []. split; [ simpl; rewrite app_nil_r; reflexivity | ].
        right. right. right. exists v. auto.
Qed.

(** X23.  What the exit code of the CLI says.  The CLI leaves with code 0 or
    1, but for one case: [send] threw a value [String] cannot convert, and
    [main] ends in the [TypeError] of the conversion, with no exit code of
    its own.  In JSON mode the code is 0 exactly when the daemon answered,
    with a success or with an error response alike.  Otherwise it is 0 only
    when the daemon answered with a success response, and an error response
    always gives 1. *)
Theorem exit_code_meaning (jsonMode : bool) (id : string) (sent : list Output)
        (reply : Outcome Response) (out : list Output) (ending : Outcome nat) :
  finish jsonMode id sent reply = (out, ending) ->
  (ending = Returned 0%nat \/ ending = Returned 1%nat
   \/ (ending = Threw (ThrownError cannot_convert)
       /\ exists v, reply = Threw (ThrownValue v) /\ String_ v = None))
  /\ (jsonMode = true ->
        (ending = Returned 0%nat <-> exists r, reply = Returned r))
  /\ (jsonMode = false ->
        (ending = Returned 0%nat ->
           exists rid data, reply = Returned (SuccessResponse rid data))
        /\ (forall rid error, reply = Returned (ErrorResponse rid error) ->
              ending = Returned 1%nat)).
Proof.
  intros Hrun.
  destruct (finish_cases jsonMode id sent reply) as [own [_ Hcases]].
  rewrite Hrun in Hcases. simpl in Hcases.
  destruct Hcases as [[r [-> [-> [_ ->]]]]
                     | [[rid [data [-> [-> [_ ->]]]]]
                       | [[message [before [-> [_ [Hmode _]]]]]
                         | [v [-> [Htext [_ ->]]]]]]].
  - split; [ auto | ]. split; [ | discriminate ].
    intros _. split; [ intros _; exists r; reflexivity | reflexivity ].
  - split; [ auto | ]. split; [ discriminate | ].
    intros _. split; [ intros _; exists rid, data; reflexivity | discriminate ].
  - split; [ auto | ]. split.
    + intros ->. split; [ discriminate | ].
      intros [r ->]. specialize (Hmode r eq_refl). discriminate Hmode.
    + intros _. split; [ discriminate | reflexivity ].
  - split; [ right; right; split; [ reflexivity | exists v; auto ] | ]. split.
    + intros _. split; [ discriminate | intros [r Hr]; discriminate Hr ].
    + intros _. split; [ discriminate | discriminate ].
Qed.

(** X24.  Where the CLI writes, after what had been written when [send]
    came back ([sent]: the debug output of [--debug] is there).  In JSON mode a CLI that leaves
    with an exit code writes one line, to standard output.  Otherwise
    standard error gets a line exactly when the exit code is 1: then it is
    the last thing written, it is the red error banner followed by a
    message, and all before it went to standard output.  Where [main] ends
    in the [TypeError] of converting what [send] threw, it leaves with no
    exit code and writes nothing of its own, neither line nor banner. *)
Theorem stderr_discipline (jsonMode : bool) (id : string) (sent : list Output)
        (reply : Outcome Response) (out : list Output) (ending : Outcome nat) :
  finish jsonMode id sent reply = (out, ending) ->
  exists own : list Output,
    out = (sent ++ own)%list
    /\ (jsonMode = true -> forall code, ending = Returned code ->
          exists line, own = [Log [Str line]])
    /\ (jsonMode = false -> ending = Returned 0%nat ->
          Forall (fun o => is_error o = false) own)
    /\ (jsonMode = false -> ending = Returned 1%nat ->
          exists (before : list Output) (message : string),
            own = (before
                   ++ [Error [Str (c red (ballot_cross ++ " Error:")); Str message]])%list
            /\ Forall (fun o => is_error o = false) before)
    /\ (forall e, ending = Threw e ->
          own = [] /\ exists v, reply = Threw (ThrownValue v) /\ String_ v = None).
Proof.
  intros Hrun.
  destruct (finish_cases jsonMode id sent reply) as [own [Hout Hcases]].
  rewrite Hrun in Hout, Hcases. simpl in Hout, Hcases.
  exists own. split; [ exact Hout | ].
  destruct Hcases as [[r [-> [-> [-> ->]]]]
                     | [[rid [data [-> [-> [Hlogs ->]]]]]
                       | [[message [before [-> [Hlogs [_ [-> Hjson]]]]]]
                         | [v [-> [Htext [-> ->]]]]]]].
  - split; [ intros _ code _; eexists; reflexivity | ].
    split; [ discriminate | ]. split; [ discriminate | ].
    intros e He. discriminate He.
  - split; [ discriminate | ].
    split; [ intros _ _; exact Hlogs | ].
    split; [ intros _ H; discriminate H | ].
    intros e He. discriminate He.
  - split.
    + intros -> code _. rewrite (Hjson eq_refl). eexists. reflexivity.
    + split; [ intros _ H; discriminate H | ]. split.
      * intros -> _. exists before, message. split; [ reflexivity | exact Hlogs ].
      * intros e He. discriminate He.
  - split; [ intros _ code H; discriminate H | ].
    split; [ intros _ H; discriminate H | ].
    split; [ intros _ H; discriminate H | ].
    intros e _. split; [ reflexivity | exists v; auto ].
Qed.

End Facts.

End TerminalFacts.

Module SessionFacts.
Import Sessions.

Lemma after_prefix_spec (start s rest : string) :
  after_prefix start s = Some rest <-> s = start ++ rest.
Proof.
  revert s. induction start as [| a start IH]; intros s; simpl.
  - split; [ intros H; inversion H; reflexivity | intros ->; reflexivity ].
  - destruct s as [| b s]; [ split; discriminate | ].
    destruct (Ascii.eqb a b) eqn:Hab.
    + apply Ascii.eqb_eq in Hab. subst b. rewrite IH.
      split; [ intros ->; reflexivity | intros H; inversion H; reflexivity ].
    + apply Ascii.eqb_neq in Hab.
      split; [ discriminate | intros H; inversion H; congruence ].
Qed.

Lemma length_append (a b : string) :
  String.length (a ++ b) = (String.length a + String.length b)%nat.
Proof. induction a as [| x a IH]; simpl; [ reflexivity | rewrite IH; reflexivity ]. Qed.

Lemma append_cancel_length (a b suffix : string) :
  a ++ suffix = b ++ suffix -> a = b.
Proof.
  revert b. induction a as [| x a IH]; intros b H.
  - destruct b as [| y b]; [ reflexivity | ].
    exfalso. apply (f_equal String.length) in H.
    simpl in H. rewrite length_append in H. lia.
  - destruct b as [| y b].
    + exfalso. apply (f_equal String.length) in H.
      simpl in H. rewrite length_append in H. lia.
    + simpl in H. inversion H. f_equal. apply IH. assumption.
Qed.

Lemma before_suffix_spec (suffix s front : string) :
  before_suffix suffix s = Some front <-> s = front ++ suffix.
Proof.
  revert front. induction s as [| a s IH]; intros front.
  - cbn [before_suffix].
    destruct (String.eqb "" suffix) eqn:Hs.
    + apply String.eqb_eq in Hs. subst suffix.
      split; intros H.
      * inversion H. reflexivity.
      * destruct front; [ reflexivity | discriminate H ].
    + apply String.eqb_neq in Hs.
      split; intros H; [ discriminate H | ].
      destruct front; simpl in H; [ congruence | discriminate H ].
  - cbn [before_suffix].
    destruct (String.eqb (String a s) suffix) eqn:Hs.
    + apply String.eqb_eq in Hs. subst suffix.
      split; intros H.
      * inversion H. reflexivity.
      * f_equal. symmetry.
        apply (@append_cancel_length front "" (String a s)). symmetry. exact H.
    + apply String.eqb_neq in Hs.
      destruct (before_suffix suffix s) as [front' |] eqn:Hrest.
      * pose proof (proj1 (IH front') eq_refl) as Hs'.
        split; intros H.
        -- inversion H. subst. reflexivity.
        -- destruct front as [| b front]; simpl in H; [ congruence | ].
           inversion H. subst. f_equal. f_equal.
           symmetry. apply (@append_cancel_length front front' suffix). congruence.
      * split; intros H; [ discriminate H | ].
        destruct front as [| b front]; simpl in H; [ congruence | ].
        inversion H. subst.
        pose proof (proj2 (IH front) eq_refl) as Hok. congruence.
Qed.

(** The name of a session and the name of its pid file determine each
    other. *)
Lemma session_of_spec (file name : string) :
  session_of file = Some name
  <-> file = "veb-" ++ name ++ ".pid" /\ name <> "" /\ has_line_terminator name = false.
Proof.
  unfold session_of. split.
  - destruct (after_prefix "veb-" file) as [rest |] eqn:Hpre; [ | discriminate ].
    apply after_prefix_spec in Hpre.
    destruct (before_suffix ".pid" rest) as [front |] eqn:Hsuf; [ | discriminate ].
    apply before_suffix_spec in Hsuf.
    destruct (String.eqb front "") eqn:Hempty; [ discriminate | ].
    destruct (has_line_terminator front) eqn:Hline; [ discriminate | ].
    intros H. inversion H. subst.
    apply String.eqb_neq in Hempty. auto.
  - intros [-> [Hne Hline]].
    rewrite (proj2 (after_prefix_spec "veb-" _ _) eq_refl).
    rewrite (proj2 (before_suffix_spec ".pid" _ _) eq_refl).
    apply String.eqb_neq in Hne. rewrite Hne, Hline. reflexivity.
Qed.

Section Facts.
Context {rt : JSRuntime} {host : Host}.

(** X25.  The sessions listed are exactly the names for which the
    temporary directory holds the file veb-NAME.pid, the name being neither
    empty nor broken over lines, whose content could be read and names a
    process that answers signal 0.  A directory that cannot be read gives
    the empty list, and a pid file that cannot be read or whose process is
    gone is passed over: neither makes the listing fail. *)
Theorem listSessions_alive (name : string) :
  In name listSessions
  <-> exists (files : list string) (text : string),
        readdirSync tmpdir = Returned files
        /\ In ("veb-" ++ name ++ ".pid") files
        /\ name <> "" /\ has_line_terminator name = false
        /\ readFileSync (path_join tmpdir ("veb-" ++ name ++ ".pid")) = Returned text
        /\ kill (Cli.parseInt (Some (trim text))) = Returned tt.
Proof.
  unfold listSessions. split.
  - destruct (readdirSync tmpdir) as [files | e]; [ | contradiction ].
    intros Hin. apply in_flat_map in Hin. destruct Hin as [file [Hfile Hin]].
    destruct (session_of file) as [name' |] eqn:Hname; [ | contradiction ].
    destruct (readFileSync (path_join tmpdir file)) as [text | e] eqn:Hread;
      [ | contradiction ].
    destruct (kill (Cli.parseInt (Some (trim text)))) as [[] | e] eqn:Hkill;
      [ | contradiction ].
    destruct Hin as [-> | []].
    apply session_of_spec in Hname. destruct Hname as [-> [Hne Hline]].
    exists files, text. auto 10.
  - intros [files [text [-> [Hfile [Hne [Hline [Hread Hkill]]]]]]].
    apply in_flat_map. exists ("veb-" ++ name ++ ".pid"). split; [ exact Hfile | ].
    rewrite (proj2 (session_of_spec _ _) (conj eq_refl (conj Hne Hline))).
    rewrite Hread, Hkill. left. reflexivity.
Qed.

End Facts.

End SessionFacts.

(* ===================================================================== *)
(** * The properties at work on concrete inputs *)
(* ===================================================================== *)

#[local] Existing Instance RefRuntime.runtime.

(** The dispatcher answers a navigate command against the calm capability,
    and turns the fault of a capability without pages into an error
    response with the same identifier. *)
Example navigate_then_fault :
  fst (fst (executeCommand calm (CmdNavigate (mkNavigate "n1" "https://example.com" None)) 0%nat))
  = Returned (SuccessResponse "n1" (Obj [("url", Str "about:blank"); ("title", Str "")]))
  /\ fst (fst (executeCommand (tabs_only RejectLastPage)
                 (CmdNavigate (mkNavigate "n1" "https://example.com" None))
                 (mkTabState [7%nat] 0)))
     = Returned (ErrorResponse "n1" "not available").
Proof. split; reflexivity. Qed.

(** Scenario A: the CLI turns the argument example.com into a navigate
    command for https://example.com, the parser accepts its text, and the
    handler hands that URL to the page. *)
Example open_example_com :
  Cli.build ["open"; "example.com"] "a1"
  = Cli.Send (Command_toJS (CmdNavigate (mkNavigate "a1" "https://example.com" None)))
  /\ parseCommand
       (JSON_stringify (Command_toJS (CmdNavigate (mkNavigate "a1" "https://example.com" None))))
     = Returned
         (ParseSuccess
            (Command_toJS (CmdNavigate (mkNavigate "a1" "https://example.com" None))))
  /\ snd (executeCommand calm (CmdNavigate (mkNavigate "a1" "https://example.com" None)) 0%nat)
     = [Called (browser_getPage unit) (Returned tt);
        Called (page_goto tt "https://example.com" wu_load) (Returned tt);
        Called (page_url tt) (Returned "about:blank");
        Called (page_title tt) (Returned "")].
Proof.
  split; [ reflexivity | ].
  split; [ vm_compute; reflexivity | reflexivity ].
Qed.

(** Scenario D: a click with an empty selector is rejected by the parser,
    with the identifier kept. *)
Example click_empty_selector_rejected :
  parseCommand
    (JSON_stringify (Obj [("id", Str "d1"); ("action", Str "click"); ("selector", Str "")]))
  = Returned
      (ParseFailure
         "Validation error: selector: String must contain at least 1 character(s)"
         (Some "d1")).
Proof. vm_compute. reflexivity. Qed.

(** A navigate command without a url: the issue reads Required. *)
Example navigate_without_url_rejected :
  parseCommand (JSON_stringify (Obj navigate_no_url))
  = Returned (ParseFailure "Validation error: url: Required" (Some "n1")).
Proof. vm_compute. reflexivity. Qed.

(** An id that is not a string is still carried, rendered as text. *)
Example numeric_id_carried :
  parseCommand (JSON_stringify (Obj snapshot_numeric_id))
  = Returned
      (ParseFailure "Validation error: id: Expected string, received number" (Some "42")).
Proof. vm_compute. reflexivity. Qed.

(** An id that is an object with a [toString] of its own: the text of the
    request is well-formed JSON, and [parseCommand] throws. *)
Example unconvertible_id_throws :
  JSON_parse (JSON_stringify (Obj navigate_unconvertible_id))
  = Some (Obj navigate_unconvertible_id)
  /\ parseCommand (JSON_stringify (Obj navigate_unconvertible_id))
     = Threw (ThrownError "Cannot convert object to primitive value").
Proof. split; vm_compute; reflexivity. Qed.

(** The fault of a browser that throws such an object is not answered:
    [executeCommand] throws in its turn. *)
Example unconvertible_fault_escapes :
  executeCommand hostile navigate_example 0%nat
  = (Threw (ThrownError "Cannot convert object to primitive value"), 1%nat,
     [Called (browser_getPage unit) (Threw (ThrownValue unconvertible))]).
Proof. reflexivity. Qed.

(** A click with a fractional delay survives the round trip. *)
Lemma parse_stringify_roundtrip_witness :
  valid_command click_example
  /\ representable click_example = true
  /\ JSON_parse (JSON_stringify (Command_toJS click_example))
     = Some (jsonify (Command_toJS click_example))
  /\ parseCommand (JSON_stringify (Command_toJS click_example))
     = Returned (ParseSuccess (Command_toJS click_example)).
Proof.
  assert (H1 : valid_command click_example) by (vm_compute; reflexivity).
  assert (H2 : representable click_example = true) by reflexivity.
  assert (H3 : JSON_parse (JSON_stringify (Command_toJS click_example))
               = Some (jsonify (Command_toJS click_example)))
    by (vm_compute; reflexivity).
  exact (conj H1 (conj H2 (conj H3 (parse_stringify_roundtrip H1 H2 H3)))).
Defined.

(** C2 as stated fails, in two ways.  An [evaluate] command with an
    undefined argument is valid; the writer puts null in the place of
    undefined, so the command that comes back differs from the original.  A
    wait command whose timeout is infinite is valid (the schema asks for a
    positive number); JSON text has no infinity, the writer puts null in its
    place, and the parser rejects the text. *)
Lemma roundtrip_loses_undefined_and_infinity :
  (valid_command evaluate_undefined
   /\ JSON_parse (JSON_stringify (Command_toJS evaluate_undefined))
      = Some (jsonify (Command_toJS evaluate_undefined))
   /\ parseCommand (JSON_stringify (Command_toJS evaluate_undefined))
      = Returned
          (ParseSuccess (Command_toJS (CmdEvaluate (mkEvaluate "e1" "f(x)" (Some [Null])))))
   /\ parseCommand (JSON_stringify (Command_toJS evaluate_undefined))
      <> Returned (ParseSuccess (Command_toJS evaluate_undefined)))
  /\ (valid_command wait_forever
      /\ JSON_parse (JSON_stringify (Command_toJS wait_forever))
         = Some (jsonify (Command_toJS wait_forever))
      /\ parseCommand (JSON_stringify (Command_toJS wait_forever))
         = Returned
             (ParseFailure "Validation error: timeout: Expected number, received null"
                (Some "w1"))
      /\ parseCommand (JSON_stringify (Command_toJS wait_forever))
         <> Returned (ParseSuccess (Command_toJS wait_forever))).
Proof.
  split.
  - split; [ vm_compute; reflexivity | ].
    split; [ vm_compute; reflexivity | ].
    assert (H : parseCommand (JSON_stringify (Command_toJS evaluate_undefined))
                = Returned
                    (ParseSuccess
                       (Command_toJS (CmdEvaluate (mkEvaluate "e1" "f(x)" (Some [Null]))))))
      by (vm_compute; reflexivity).
    split; [ exact H | rewrite H; vm_compute; discriminate ].
  - split; [ vm_compute; reflexivity | ].
    split; [ vm_compute; reflexivity | ].
    assert (H : parseCommand (JSON_stringify (Command_toJS wait_forever))
                = Returned
                    (ParseFailure
                       "Validation error: timeout: Expected number, received null"
                       (Some "w1"))) by (vm_compute; reflexivity).
    split; [ exact H | rewrite H; discriminate ].
Qed.

(** A navigate command without its url, a click whose selector is empty,
    and the failing input: a navigate command without its url whose [id] is
    an object [String] cannot convert. *)
Lemma parseCommand_rejects_bad_field_witness :
  (get_prop "url" navigate_no_url = None /\ accepts_undefined (z_string_min 1) = false)
  /\ (exists errs : list ZodIssue,
        parseCommand (JSON_stringify (Obj navigate_no_url))
        = Returned
            (ParseFailure ("Validation error: " ++ join ", " (map format_issue errs))
               (Some "n1"))
        /\ (exists e rest, In e errs /\ path e = Key "url" :: rest)
        /\ mentions ("Validation error: " ++ join ", " (map format_issue errs)) "url")
  /\ field_rejected "selector" (z_string_min 1) click_no_selector
  /\ (exists errs : list ZodIssue,
        parseCommand (JSON_stringify (Obj click_no_selector))
        = Returned
            (ParseFailure ("Validation error: " ++ join ", " (map format_issue errs))
               (Some "k1"))
        /\ (exists e rest, In e errs /\ path e = Key "selector" :: rest)
        /\ mentions ("Validation error: " ++ join ", " (map format_issue errs)) "selector")
  /\ get_prop "id" navigate_unconvertible_id = Some (Obj [("toString", Num (Finite 1))])
  /\ get_prop "toString" [("toString", Num (Finite 1))] = Some (Num (Finite 1))
  /\ parseCommand (JSON_stringify (Obj navigate_unconvertible_id))
     = Threw (ThrownError cannot_convert).
Proof.
  assert (N1 : JSON_parse (JSON_stringify (Obj navigate_no_url)) = Some (Obj navigate_no_url))
    by (vm_compute; reflexivity).
  assert (N5 : (get_prop "url" navigate_no_url = None
                /\ accepts_undefined (z_string_min 1) = false)
               \/ field_rejected "url" (z_string_min 1) navigate_no_url)
    by (left; split; reflexivity).
  assert (K1 : JSON_parse (JSON_stringify (Obj click_no_selector))
               = Some (Obj click_no_selector))
    by (vm_compute; reflexivity).
  assert (K5 : field_rejected "selector" (z_string_min 1) click_no_selector)
    by (unfold field_rejected; vm_compute; discriminate).
  assert (U1 : JSON_parse (JSON_stringify (Obj navigate_unconvertible_id))
               = Some (Obj navigate_unconvertible_id))
    by (vm_compute; reflexivity).
  assert (U5 : (get_prop "url" navigate_unconvertible_id = None
                /\ accepts_undefined (z_string_min 1) = false)
               \/ field_rejected "url" (z_string_min 1) navigate_unconvertible_id)
    by (left; split; reflexivity).
  assert (Hurl : In ("url", z_string_min 1)
                   [("id", z_string); ("action", z_literal "navigate");
                    ("url", z_string_min 1);
                    ("waitUntil",
                     optional (z_enum ["load"; "domcontentloaded"; "networkidle"]))])
    by (simpl; tauto).
  assert (Hselector : In ("selector", z_string_min 1)
                        [("id", z_string); ("action", z_literal "click");
                         ("selector", z_string_min 1);
                         ("button", optional (z_enum ["left"; "right"; "middle"]));
                         ("clickCount", optional (positive z_number));
                         ("delay", optional (nonnegative z_number))])
    by (simpl; tauto).
  split; [ split; reflexivity | ].
  split.
  { exact (proj1 (proj2
             (@parseCommand_rejects_bad_field _ _ navigate_no_url "navigate" _
                "url" (z_string_min 1) N1 eq_refl eq_refl Hurl N5))
             (Str "n1") "n1" eq_refl eq_refl). }
  split; [ exact K5 | ].
  split.
  { exact (proj1 (proj2
             (@parseCommand_rejects_bad_field _ _ click_no_selector "click" _
                "selector" (z_string_min 1) K1 eq_refl eq_refl Hselector (or_intror K5)))
             (Str "k1") "k1" eq_refl eq_refl). }
  split; [ reflexivity | ].
  split; [ reflexivity | ].
  exact (proj2 (proj2 (proj2
           (@parseCommand_rejects_bad_field _ _ navigate_unconvertible_id "navigate" _
              "url" (z_string_min 1) U1 eq_refl eq_refl Hurl U5)))
           [("toString", Num (Finite 1))] (Num (Finite 1)) eq_refl eq_refl).
Defined.


(** The failing input of C1: a navigation against a browser whose [getPage]
    throws an object [String] cannot convert.  The fault is logged, and
    [executeCommand] ends in the [TypeError] of the conversion, not in a
    response. *)
Lemma executeCommand_responds_or_escapes_witness :
  In (ThrownValue unconvertible)
     (faults (snd (executeCommand hostile navigate_example 0%nat)))
  /\ get_prop "toString" [("toString", Num (Finite 1))] = Some (Num (Finite 1))
  /\ fst (fst (executeCommand hostile navigate_example 0%nat))
     = Threw (ThrownError cannot_convert).
Proof.
  assert (H1 : In (ThrownValue unconvertible)
                 (faults (snd (executeCommand hostile navigate_example 0%nat))))
    by (left; reflexivity).
  assert (H2 : get_prop "toString" [("toString", Num (Finite 1))] = Some (Num (Finite 1)))
    by reflexivity.
  split; [ exact H1 | split; [ exact H2 | ] ].
  destruct (executeCommand_responds_or_escapes hostile navigate_example 0%nat)
    as [result [w' [log [Hrun [_ [_ Hfault]]]]]].
  rewrite Hrun in H1 |- *.
  exact (proj2 (proj2 (proj2 (proj2 (Hfault _ H1)))) _ _ eq_refl H2).
Defined.

(** A select command answered by the calm capability. *)
Example select_answered :
  exists r w' log,
    executeCommand calm select_example 0%nat = (Returned r, w', log)
    /\ response_id r = "s1".
Proof.
  eexists; eexists; eexists. split; reflexivity.
Qed.

(** The select command of the README: one value, given as a string. *)
Lemma handleSelect_wraps_scalar_witness :
  executeCommand calm select_example 0%nat
  = (Returned (SuccessResponse "s1" (Obj [("selected", Arr [Str "US"])])), 2%nat,
     [Called (browser_getPage unit) (Returned tt);
      Called (page_selectOption tt "#country" ["US"]) (Returned tt)])
  /\ exists (page : unit) (values : list string),
      [Called (browser_getPage unit) (Returned tt);
       Called (page_selectOption tt "#country" ["US"]) (Returned tt)]
      = [Called (browser_getPage unit) (Returned page);
         Called (page_selectOption page "#country" values) (Returned tt)]
      /\ SuccessResponse "s1" (Obj [("selected", Arr [Str "US"])])
         = SuccessResponse "s1" (Obj [("selected", Arr (map Str values))])
      /\ (forall v, OneValue "US" = OneValue v -> values = [v])
      /\ (forall vs, OneValue "US" = ManyValues vs -> values = vs).
Proof.
  assert (H1 : executeCommand calm select_example 0%nat
               = (Returned (SuccessResponse "s1" (Obj [("selected", Arr [Str "US"])])),
                  2%nat,
                  [Called (browser_getPage unit) (Returned tt);
                   Called (page_selectOption tt "#country" ["US"]) (Returned tt)]))
    by reflexivity.
  exact (conj H1 (handleSelect_wraps_scalar calm (mkSelect "s1" "#country" (OneValue "US"))
                    0%nat H1 eq_refl)).
Defined.

(** A bare wait, and a wait for a selector bounded by two seconds. *)
Lemma handleWait_modes_witness :
  valid_command (CmdWait wait_bare)
  /\ executeCommand calm (CmdWait wait_bare) 0%nat
     = (Returned (SuccessResponse "w2" (Obj [("waited", Bool true)])), 2%nat,
        [Called (browser_getPage unit) (Returned tt);
         Called (page_waitForLoadState tt "load") (Returned tt)])
  /\ valid_command (CmdWait wait_bounded)
  /\ executeCommand calm (CmdWait wait_bounded) 0%nat
     = (Returned (SuccessResponse "w3" (Obj [("waited", Bool true)])), 2%nat,
        [Called (browser_getPage unit) (Returned tt);
         Called (page_waitForSelector tt "#loading" st_visible (Some (Finite 2000)))
                (Returned tt)])
  /\ exists page : unit,
      (wait_selector wait_bounded = None -> wait_timeout wait_bounded = None ->
       [Called (browser_getPage unit) (Returned tt);
        Called (page_waitForSelector tt "#loading" st_visible (Some (Finite 2000)))
               (Returned tt)]
       = [Called (browser_getPage unit) (Returned page);
          Called (page_waitForLoadState page "load") (Returned tt)])
      /\ (forall sel t,
            wait_selector wait_bounded = Some sel -> wait_timeout wait_bounded = Some t ->
            [Called (browser_getPage unit) (Returned tt);
             Called (page_waitForSelector tt "#loading" st_visible (Some (Finite 2000)))
                    (Returned tt)]
            = [Called (browser_getPage unit) (Returned page);
               Called (page_waitForSelector page sel
                         (nullish (wait_state wait_bounded) st_visible) (Some t))
                      (Returned tt)]).
Proof.
  assert (H1 : valid_command (CmdWait wait_bare))
    by exact (proj1 (handleWait_modes calm wait_bare) eq_refl eq_refl).
  assert (H2 : executeCommand calm (CmdWait wait_bare) 0%nat
               = (Returned (SuccessResponse "w2" (Obj [("waited", Bool true)])), 2%nat,
                  [Called (browser_getPage unit) (Returned tt);
                   Called (page_waitForLoadState tt "load") (Returned tt)]))
    by reflexivity.
  assert (H3 : valid_command (CmdWait wait_bounded)) by (vm_compute; reflexivity).
  assert (H4 : executeCommand calm (CmdWait wait_bounded) 0%nat
               = (Returned (SuccessResponse "w3" (Obj [("waited", Bool true)])), 2%nat,
                  [Called (browser_getPage unit) (Returned tt);
                   Called (page_waitForSelector tt "#loading" st_visible
                             (Some (Finite 2000))) (Returned tt)]))
    by reflexivity.
  exact (conj H1 (conj H2 (conj H3 (conj H4
           (proj2 (proj2 (handleWait_modes calm wait_bounded) _ _ _ _ H3 H4 eq_refl)))))).
Defined.

(** A full-page screenshot written to a file. *)
Lemma handleScreenshot_shape_witness :
  executeCommand calm (CmdScreenshot screenshot_to_file) 0%nat
  = (Returned (SuccessResponse "p1" (Obj [("path", Str "page.png")])), 2%nat,
     [Called (browser_getPage unit) (Returned tt);
      Called (target_screenshot (OnPage tt)
                (mkScreenshotOptions (Some true) png None (Some "page.png")))
             (Returned [Byte.x4d; Byte.x61; Byte.x6e])])
  /\ exists (page : unit) (target : Target unit) (options : ScreenshotOptions)
            (buffer : Buffer),
      [Called (browser_getPage unit) (Returned tt);
       Called (target_screenshot (OnPage tt)
                 (mkScreenshotOptions (Some true) png None (Some "page.png")))
              (Returned [Byte.x4d; Byte.x61; Byte.x6e])]
      = [Called (browser_getPage unit) (Returned page);
         Called (target_screenshot target options) (Returned buffer)]
      /\ (forall p, screenshot_path screenshot_to_file = Some p -> p <> "" ->
            opt_path options = Some p
            /\ SuccessResponse "p1" (Obj [("path", Str "page.png")])
               = SuccessResponse (screenshot_id screenshot_to_file) (Obj [("path", Str p)]))
      /\ (screenshot_path screenshot_to_file = None
          \/ screenshot_path screenshot_to_file = Some "" ->
            opt_path options = None
            /\ SuccessResponse "p1" (Obj [("path", Str "page.png")])
               = SuccessResponse (screenshot_id screenshot_to_file)
                   (Obj [("base64", Str (base64 buffer))])).
Proof.
  assert (H1 : executeCommand calm (CmdScreenshot screenshot_to_file) 0%nat
               = (Returned (SuccessResponse "p1" (Obj [("path", Str "page.png")])), 2%nat,
                  [Called (browser_getPage unit) (Returned tt);
                   Called (target_screenshot (OnPage tt)
                             (mkScreenshotOptions (Some true) png None (Some "page.png")))
                          (Returned [Byte.x4d; Byte.x61; Byte.x6e])]))
    by reflexivity.
  exact (conj H1 (handleScreenshot_shape calm screenshot_to_file 0%nat H1 eq_refl)).
Defined.

(** C7 as stated fails: this screenshot command is valid and gives a path,
    the empty one; the capability is called without a path and the data is
    [{base64}], not [{path}]. *)
Lemma screenshot_empty_path_is_base64 :
  valid_command (CmdScreenshot screenshot_empty_path)
  /\ screenshot_path screenshot_empty_path = Some ""
  /\ executeCommand calm (CmdScreenshot screenshot_empty_path) 0%nat
     = (Returned (SuccessResponse "p2" (Obj [("base64", Str "TWFu")])), 2%nat,
        [Called (browser_getPage unit) (Returned tt);
         Called (target_screenshot (OnPage tt) (mkScreenshotOptions None png None None))
                (Returned [Byte.x4d; Byte.x61; Byte.x6e])])
  /\ SuccessResponse "p2" (Obj [("base64", Str "TWFu")])
     <> SuccessResponse "p2" (Obj [("path", Str "")]).
Proof.
  split; [ vm_compute; reflexivity | ].
  split; [ reflexivity | ].
  split; [ reflexivity | discriminate ].
Qed.

(** The failing input of C6: the command the CLI builds for a scroll with a
    selector and the direction down, which is valid. *)
Lemma handleScroll_element_ignores_direction_witness :
  scroll_selector scroll_container_down = Some "#container"
  /\ "#container" <> ""
  /\ scroll_x scroll_container_down = None
  /\ scroll_y scroll_container_down = None
  /\ scroll_direction scroll_container_down = Some dir_down
  /\ valid_command (CmdScroll scroll_container_down)
  /\ executeCommand calm (CmdScroll scroll_container_down) 0%nat
     = (Returned (SuccessResponse "r1" (Obj [("scrolled", Bool true)])), 2%nat,
        [Called (browser_getPage unit) (Returned tt);
         Called (locator_scrollIntoViewIfNeeded (mkLocator tt "#container")) (Returned tt)])
  /\ exists page : unit,
      [Called (browser_getPage unit) (Returned tt);
       Called (locator_scrollIntoViewIfNeeded (mkLocator tt "#container")) (Returned tt)]
      = [Called (browser_getPage unit) (Returned page);
         Called (locator_scrollIntoViewIfNeeded (mkLocator page "#container")) (Returned tt)]
      /\ SuccessResponse "r1" (Obj [("scrolled", Bool true)])
         = SuccessResponse (scroll_id scroll_container_down) (Obj [("scrolled", Bool true)]).
Proof.
  assert (Hne : "#container" <> "") by discriminate.
  assert (Hvalid : valid_command (CmdScroll scroll_container_down))
    by (vm_compute; reflexivity).
  assert (H1 : executeCommand calm (CmdScroll scroll_container_down) 0%nat
               = (Returned (SuccessResponse "r1" (Obj [("scrolled", Bool true)])), 2%nat,
                  [Called (browser_getPage unit) (Returned tt);
                   Called (locator_scrollIntoViewIfNeeded (mkLocator tt "#container"))
                          (Returned tt)]))
    by reflexivity.
  exact (conj eq_refl (conj Hne (conj eq_refl (conj eq_refl (conj eq_refl (conj Hvalid
           (conj H1 (handleScroll_element_ignores_direction calm scroll_container_down
                       0%nat eq_refl Hne eq_refl eq_refl H1 eq_refl)))))))).
Defined.

(** Three tabs, the middle one active, closed without an index. *)
Lemma tab_close_targets_active_witness :
  closeTab_as_specified (tabs_only RejectLastPage) RejectLastPage (fun st => st)
  /\ tabs_ok three_tabs
  /\ (2 <= length (pages three_tabs))%nat
  /\ exists w' : TabState nat,
      executeCommand (tabs_only RejectLastPage) (CmdTabClose (mkTabClose "t1" None)) three_tabs
      = (Returned
           (SuccessResponse "t1"
              (Obj [("closed", Num (number_of_nat (activeIndex three_tabs)));
                    ("remaining", Num (number_of_nat (length (pages three_tabs) - 1)))])),
         w',
         [Called (browser_closeTab nat None)
            (Returned {| closed := number_of_nat (activeIndex three_tabs);
                         remaining := number_of_nat (length (pages three_tabs) - 1) |})])
      /\ pages w' = remove_at (activeIndex three_tabs) (pages three_tabs)
      /\ length (pages w') = (length (pages three_tabs) - 1)%nat
      /\ activeIndex w' = 0%nat
      /\ (activeIndex w' < length (pages w'))%nat.
Proof.
  assert (H1 : closeTab_as_specified (tabs_only RejectLastPage) RejectLastPage
                 (fun st : TabState nat => st))
    by (intros index w; split; reflexivity).
  assert (H2 : tabs_ok three_tabs) by (unfold tabs_ok; simpl; lia).
  assert (H3 : (2 <= length (pages three_tabs))%nat) by (simpl; lia).
  exact (conj H1 (conj H2 (conj H3
           (tab_close_targets_active (mkTabClose "t1" None) three_tabs H1 eq_refl H2 H3)))).
Defined.

(** The failing input of C8: httpbin.org has no scheme and starts with the
    text http, so the CLI forwards it as it is, without https:// in front. *)
Lemma open_forwards_http_without_scheme_witness :
  Cli.cleanArgs ["open"; "httpbin.org"] = ["open"; "httpbin.org"]
  /\ Cli.startsWith "httpbin.org" "http" = true
  /\ Cli.has_scheme "httpbin.org" = false
  /\ exists sent : string,
      Cli.build ["open"; "httpbin.org"] "id1"
      = Cli.Send (Obj [("id", Str "id1"); ("action", Str "navigate"); ("url", Str sent)])
      /\ sent = "httpbin.org"
      /\ Cli.has_scheme sent = false
      /\ sent <> "https://" ++ "httpbin.org".
Proof.
  assert (H5 : "httpbin.org" <> "") by discriminate.
  split; [ reflexivity | ]. split; [ reflexivity | ]. split; [ reflexivity | ].
  destruct (@CliFacts.open_forwards_http_without_scheme _
              ["open"; "httpbin.org"] [] "open" "httpbin.org" "id1"
              eq_refl eq_refl eq_refl (or_introl eq_refl) H5)
    as [sent [Hbuild [_ [Hsame Hbare]]]].
  exists sent.
  exact (conj Hbuild (conj (Hsame eq_refl) (Hbare eq_refl eq_refl))).
Defined.

(** What the comment beside the test says the CLI does, it does for
    example.com and does not do for httpbin.org. *)
Example open_httpbin_not_prefixed :
  Cli.build ["open"; "example.com"] "id1"
  = Cli.Send (Obj [("id", Str "id1"); ("action", Str "navigate");
                   ("url", Str "https://example.com")])
  /\ Cli.build ["open"; "httpbin.org"] "id1"
     = Cli.Send (Obj [("id", Str "id1"); ("action", Str "navigate");
                      ("url", Str "httpbin.org")]).
Proof. split; reflexivity. Qed.

(* ===================================================================== *)
(** * The further properties at work on concrete inputs *)
(* ===================================================================== *)

(** A request for an action the protocol does not have. *)
Lemma unknown_action_rejected_witness :
  JSON_parse (JSON_stringify (Obj reload_request)) = Some (Obj reload_request)
  /\ (forall tag, read_prop "action" reload_request = Str tag -> catalogue tag = None)
  /\ get_prop "id" reload_request = Some (Str "u1")
  /\ parseCommand (JSON_stringify (Obj reload_request))
     = Returned
         (ParseFailure
            ("Validation error: action: Invalid discriminator value. Expected "
             ++ joinValues action_tags)
            (Some "u1")).
Proof.
  assert (H1 : JSON_parse (JSON_stringify (Obj reload_request)) = Some (Obj reload_request))
    by (vm_compute; reflexivity).
  assert (H2 : forall tag, read_prop "action" reload_request = Str tag -> catalogue tag = None)
    by (intros tag Htag; inversion Htag; reflexivity).
  assert (H3 : (get_prop "id" reload_request = None /\ Some "u1" = None)
               \/ (exists idv text,
                      get_prop "id" reload_request = Some idv
                      /\ String_ idv = Some text /\ Some "u1" = Some text)).
  { right. exists (Str "u1"), "u1". repeat split; reflexivity. }
  exact (conj H1 (conj H2 (conj eq_refl
           (@unknown_action_rejected _ (JSON_stringify (Obj reload_request))
              reload_request (Some "u1") H1 H2 H3)))).
Defined.

(** A JSON text that is an array. *)
Lemma non_object_rejected_witness :
  JSON_parse (JSON_stringify (Arr [Num (Finite 1)])) = Some (Arr [Num (Finite 1)])
  /\ Arr [Num (Finite 1)] <> Undefined
  /\ (forall props, Arr [Num (Finite 1)] <> Obj props)
  /\ parseCommand (JSON_stringify (Arr [Num (Finite 1)]))
     = Returned
         (ParseFailure
            ("Validation error: : Expected object, received "
             ++ parsedType_name (getParsedType (Arr [Num (Finite 1)])))
            None).
Proof.
  assert (H1 : JSON_parse (JSON_stringify (Arr [Num (Finite 1)]))
               = Some (Arr [Num (Finite 1)])) by (vm_compute; reflexivity).
  assert (H2 : Arr [Num (Finite 1)] <> Undefined) by discriminate.
  assert (H3 : forall props, Arr [Num (Finite 1)] <> Obj props) by (intros props; discriminate).
  exact (conj H1 (conj H2 (conj H3 (non_object_rejected _ H1 H2 H3)))).
Defined.

(** A click whose selector is null. *)
Lemma null_field_rejected_witness :
  JSON_parse (JSON_stringify (Obj click_null_selector)) = Some (Obj click_null_selector)
  /\ read_prop "action" click_null_selector = Str "click"
  /\ catalogue "click"
     = Some [("id", z_string); ("action", z_literal "click"); ("selector", z_string_min 1);
             ("button", optional (z_enum ["left"; "right"; "middle"]));
             ("clickCount", optional (positive z_number));
             ("delay", optional (nonnegative z_number))]
  /\ get_prop "selector" click_null_selector = Some Null
  /\ get_prop "id" click_null_selector = Some (Str "n1")
  /\ exists errs : list ZodIssue,
      parseCommand (JSON_stringify (Obj click_null_selector))
      = Returned
          (ParseFailure ("Validation error: " ++ join ", " (map format_issue errs))
             (Some "n1"))
      /\ (exists e rest, In e errs /\ path e = Key "selector" :: rest)
      /\ (forall s, Str "n1" = Str s -> "n1" = s).
Proof.
  assert (H1 : JSON_parse (JSON_stringify (Obj click_null_selector))
               = Some (Obj click_null_selector)) by (vm_compute; reflexivity).
  assert (H2 : read_prop "action" click_null_selector = Str "click") by reflexivity.
  assert (H3 : catalogue "click"
               = Some [("id", z_string); ("action", z_literal "click");
                       ("selector", z_string_min 1);
                       ("button", optional (z_enum ["left"; "right"; "middle"]));
                       ("clickCount", optional (positive z_number));
                       ("delay", optional (nonnegative z_number))]) by reflexivity.
  assert (H4 : In ("selector", z_string_min 1)
                 [("id", z_string); ("action", z_literal "click");
                  ("selector", z_string_min 1);
                  ("button", optional (z_enum ["left"; "right"; "middle"]));
                  ("clickCount", optional (positive z_number));
                  ("delay", optional (nonnegative z_number))]) by (simpl; tauto).
  assert (H5 : get_prop "selector" click_null_selector = Some Null) by reflexivity.
  exact (conj H1 (conj H2 (conj H3 (conj H5 (conj eq_refl
           (@null_field_rejected _ (JSON_stringify (Obj click_null_selector))
              click_null_selector "click" _ "selector" (z_string_min 1)
              (Str "n1") "n1" H1 H2 H3 H4 H5 eq_refl eq_refl)))))).
Defined.

(** A snapshot request with a property the schema does not declare. *)
Lemma parsed_command_shape_witness :
  parseCommand (JSON_stringify (Obj snapshot_verbose))
  = Returned (ParseSuccess (Obj [("id", Str "s1"); ("action", Str "snapshot")]))
  /\ exists props tag id shape,
      Obj [("id", Str "s1"); ("action", Str "snapshot")] = Obj props
      /\ catalogue tag = Some shape
      /\ get_prop "action" props = Some (Str tag)
      /\ get_prop "id" props = Some (Str id)
      /\ forall kv, In kv props -> In (fst kv) (map fst shape).
Proof.
  assert (H1 : parseCommand (JSON_stringify (Obj snapshot_verbose))
               = Returned
                   (ParseSuccess (Obj [("id", Str "s1"); ("action", Str "snapshot")])))
    by (vm_compute; reflexivity).
  exact (conj H1 (parsed_command_shape _ H1)).
Defined.

(** The same request, validated a second time. *)
Lemma parsed_command_revalidates_witness :
  parseCommand (JSON_stringify (Obj snapshot_verbose))
  = Returned (ParseSuccess (Obj [("id", Str "s1"); ("action", Str "snapshot")]))
  /\ safeParse commandSchema (Obj [("id", Str "s1"); ("action", Str "snapshot")])
     = SafeParseSuccess (Obj [("id", Str "s1"); ("action", Str "snapshot")]).
Proof.
  assert (H1 : parseCommand (JSON_stringify (Obj snapshot_verbose))
               = Returned
                   (ParseSuccess (Obj [("id", Str "s1"); ("action", Str "snapshot")])))
    by (vm_compute; reflexivity).
  exact (conj H1 (parsed_command_revalidates _ H1)).
Defined.

(** A navigation whose page cannot reach the network: the page was handed
    out, the navigation threw, and neither the URL nor the title was asked
    for. *)
Lemma fault_ends_the_run_witness :
  executeCommand offline (CmdNavigate navigate_plain) 0%nat
  = (Returned (ErrorResponse "n2" "net::ERR_INTERNET_DISCONNECTED"), 2%nat,
     [Called (browser_getPage unit) (Returned tt);
      Called (page_goto tt "https://example.com" wu_load)
             (Threw (ThrownError "net::ERR_INTERNET_DISCONNECTED"))])
  /\ (faults [Called (browser_getPage unit) (Returned tt);
              Called (page_goto tt "https://example.com" wu_load)
                     (Threw (ThrownError "net::ERR_INTERNET_DISCONNECTED"))] = []
      \/ exists (pre : list (Event unit)) (X : Type) (op : Op unit X) (e : Thrown),
           [Called (browser_getPage unit) (Returned tt);
            Called (page_goto tt "https://example.com" wu_load)
                   (Threw (ThrownError "net::ERR_INTERNET_DISCONNECTED"))]
           = (pre ++ [Called op (Threw e)])%list
           /\ faults pre = []
           /\ exists message : string,
                error_message e = Returned message
                /\ ErrorResponse "n2" "net::ERR_INTERNET_DISCONNECTED"
                   = ErrorResponse (command_id (CmdNavigate navigate_plain)) message).
Proof.
  assert (H1 : executeCommand offline (CmdNavigate navigate_plain) 0%nat
               = (Returned (ErrorResponse "n2" "net::ERR_INTERNET_DISCONNECTED"), 2%nat,
                  [Called (browser_getPage unit) (Returned tt);
                   Called (page_goto tt "https://example.com" wu_load)
                          (Threw (ThrownError "net::ERR_INTERNET_DISCONNECTED"))]))
    by reflexivity.
  exact (conj H1 (fault_ends_the_run offline (CmdNavigate navigate_plain) 0%nat H1)).
Defined.

(** A click sent to a browser that was not launched, and one sent to a
    browser that throws an object [String] cannot convert. *)
Lemma page_fault_answered_witness :
  needs_page click_example = true
  /\ unlaunched (browser_getPage unit) 0%nat
     = (Threw (ThrownError "Browser not launched. Call launch first."), 1%nat)
  /\ executeCommand unlaunched click_example 0%nat
     = (Returned (ErrorResponse "c1" "Browser not launched. Call launch first."),
        1%nat,
        [Called (browser_getPage unit)
           (Threw (ThrownError "Browser not launched. Call launch first."))])
  /\ hostile (browser_getPage unit) 0%nat = (Threw (ThrownValue unconvertible), 1%nat)
  /\ executeCommand hostile click_example 0%nat
     = (Threw (ThrownError cannot_convert), 1%nat,
        [Called (browser_getPage unit) (Threw (ThrownValue unconvertible))]).
Proof.
  destruct (page_fault_answered unlaunched click_example 0%nat eq_refl eq_refl)
    as [answered [Hrun [Hmessage _]]].
  destruct (page_fault_answered hostile click_example 0%nat eq_refl eq_refl)
    as [escaped [Hrun' [_ [_ [Hescape _]]]]].
  split; [ reflexivity | ]. split; [ reflexivity | ].
  split; [ rewrite Hrun, (Hmessage _ eq_refl); reflexivity | ].
  split; [ reflexivity | ].
  rewrite Hrun', (Hescape unconvertible eq_refl eq_refl). reflexivity.
Defined.

(** A navigation that waits for the network to go idle. *)
Lemma handleNavigate_reports_page_witness :
  executeCommand calm (CmdNavigate navigate_idle) 0%nat
  = (Returned (SuccessResponse "n1" (Obj [("url", Str "about:blank"); ("title", Str "")])),
     4%nat,
     [Called (browser_getPage unit) (Returned tt);
      Called (page_goto tt "https://example.com" wu_networkidle) (Returned tt);
      Called (page_url tt) (Returned "about:blank");
      Called (page_title tt) (Returned "")])
  /\ exists (page : unit) (url title : string),
      [Called (browser_getPage unit) (Returned tt);
       Called (page_goto tt "https://example.com" wu_networkidle) (Returned tt);
       Called (page_url tt) (Returned "about:blank");
       Called (page_title tt) (Returned "")]
      = [Called (browser_getPage unit) (Returned page);
         Called (page_goto page (navigate_url navigate_idle)
                   (match navigate_waitUntil navigate_idle with
                    | Some event => event
                    | None => wu_load
                    end))
                (Returned tt);
         Called (page_url page) (Returned url);
         Called (page_title page) (Returned title)]
      /\ SuccessResponse "n1" (Obj [("url", Str "about:blank"); ("title", Str "")])
         = SuccessResponse (navigate_id navigate_idle)
             (Obj [("url", Str url); ("title", Str title)]).
Proof.
  assert (H1 : executeCommand calm (CmdNavigate navigate_idle) 0%nat
               = (Returned (SuccessResponse "n1"
                              (Obj [("url", Str "about:blank"); ("title", Str "")])),
                  4%nat,
                  [Called (browser_getPage unit) (Returned tt);
                   Called (page_goto tt "https://example.com" wu_networkidle) (Returned tt);
                   Called (page_url tt) (Returned "about:blank");
                   Called (page_title tt) (Returned "")]))
    by reflexivity.
  exact (conj H1 (handleNavigate_reports_page calm navigate_idle 0%nat H1 eq_refl)).
Defined.

(** Typing an address into a field that is cleared first. *)
Lemma handleType_clear_witness :
  executeCommand calm (CmdType type_email) 0%nat
  = (Returned (SuccessResponse "t1" (Obj [("typed", Bool true)])), 3%nat,
     [Called (browser_getPage unit) (Returned tt);
      Called (page_fill tt "#email" "") (Returned tt);
      Called (page_type tt "#email" "a@b.c" None) (Returned tt)])
  /\ exists page : unit,
      (type_clear type_email = Some true ->
         [Called (browser_getPage unit) (Returned tt);
          Called (page_fill tt "#email" "") (Returned tt);
          Called (page_type tt "#email" "a@b.c" None) (Returned tt)]
         = [Called (browser_getPage unit) (Returned page);
            Called (page_fill page (type_selector type_email) "") (Returned tt);
            Called (page_type page (type_selector type_email) (type_text type_email)
                      (type_delay type_email)) (Returned tt)])
      /\ (type_clear type_email <> Some true ->
            [Called (browser_getPage unit) (Returned tt);
             Called (page_fill tt "#email" "") (Returned tt);
             Called (page_type tt "#email" "a@b.c" None) (Returned tt)]
            = [Called (browser_getPage unit) (Returned page);
               Called (page_type page (type_selector type_email) (type_text type_email)
                         (type_delay type_email)) (Returned tt)])
      /\ SuccessResponse "t1" (Obj [("typed", Bool true)])
         = SuccessResponse (type_id type_email) (Obj [("typed", Bool true)]).
Proof.
  assert (H1 : executeCommand calm (CmdType type_email) 0%nat
               = (Returned (SuccessResponse "t1" (Obj [("typed", Bool true)])), 3%nat,
                  [Called (browser_getPage unit) (Returned tt);
                   Called (page_fill tt "#email" "") (Returned tt);
                   Called (page_type tt "#email" "a@b.c" None) (Returned tt)]))
    by reflexivity.
  exact (conj H1 (handleType_clear calm type_email 0%nat H1 eq_refl)).
Defined.

(** The Enter key pressed with no selector. *)
Lemma handlePress_target_witness :
  executeCommand calm (CmdPress press_enter) 0%nat
  = (Returned (SuccessResponse "k1" (Obj [("pressed", Bool true)])), 2%nat,
     [Called (browser_getPage unit) (Returned tt);
      Called (page_keyboard_press tt "Enter") (Returned tt)])
  /\ exists page : unit,
      (forall sel, press_selector press_enter = Some sel -> sel <> "" ->
         [Called (browser_getPage unit) (Returned tt);
          Called (page_keyboard_press tt "Enter") (Returned tt)]
         = [Called (browser_getPage unit) (Returned page);
            Called (page_press page sel (press_key press_enter)) (Returned tt)])
      /\ (press_selector press_enter = None \/ press_selector press_enter = Some "" ->
            [Called (browser_getPage unit) (Returned tt);
             Called (page_keyboard_press tt "Enter") (Returned tt)]
            = [Called (browser_getPage unit) (Returned page);
               Called (page_keyboard_press page (press_key press_enter)) (Returned tt)])
      /\ SuccessResponse "k1" (Obj [("pressed", Bool true)])
         = SuccessResponse (press_id press_enter) (Obj [("pressed", Bool true)]).
Proof.
  assert (H1 : executeCommand calm (CmdPress press_enter) 0%nat
               = (Returned (SuccessResponse "k1" (Obj [("pressed", Bool true)])), 2%nat,
                  [Called (browser_getPage unit) (Returned tt);
                   Called (page_keyboard_press tt "Enter") (Returned tt)]))
    by reflexivity.
  exact (conj H1 (handlePress_target calm press_enter 0%nat H1 eq_refl)).
Defined.

(** A picture of one element, asked for as png with a quality: the quality
    is not passed on. *)
Lemma handleScreenshot_options_witness :
  executeCommand calm (CmdScreenshot screenshot_hero) 0%nat
  = (Returned (SuccessResponse "p3" (Obj [("base64", Str "TWFu")])), 2%nat,
     [Called (browser_getPage unit) (Returned tt);
      Called (target_screenshot (OnLocator (mkLocator tt "#hero"))
                (mkScreenshotOptions None png None None))
             (Returned [Byte.x4d; Byte.x61; Byte.x6e])])
  /\ exists (page : unit) (target : Target unit) (options : ScreenshotOptions)
            (buffer : Buffer),
      [Called (browser_getPage unit) (Returned tt);
       Called (target_screenshot (OnLocator (mkLocator tt "#hero"))
                 (mkScreenshotOptions None png None None))
              (Returned [Byte.x4d; Byte.x61; Byte.x6e])]
      = [Called (browser_getPage unit) (Returned page);
         Called (target_screenshot target options) (Returned buffer)]
      /\ opt_fullPage options = screenshot_fullPage screenshot_hero
      /\ opt_type options = match screenshot_format screenshot_hero with
                            | Some format => format
                            | None => png
                            end
      /\ (forall q, opt_quality options = Some q
                    <-> screenshot_format screenshot_hero = Some jpeg
                        /\ screenshot_quality screenshot_hero = Some q)
      /\ (forall sel, screenshot_selector screenshot_hero = Some sel -> sel <> "" ->
            target = OnLocator (mkLocator page sel))
      /\ (screenshot_selector screenshot_hero = None
          \/ screenshot_selector screenshot_hero = Some "" ->
            target = OnPage page).
Proof.
  assert (H1 : executeCommand calm (CmdScreenshot screenshot_hero) 0%nat
               = (Returned (SuccessResponse "p3" (Obj [("base64", Str "TWFu")])), 2%nat,
                  [Called (browser_getPage unit) (Returned tt);
                   Called (target_screenshot (OnLocator (mkLocator tt "#hero"))
                             (mkScreenshotOptions None png None None))
                          (Returned [Byte.x4d; Byte.x61; Byte.x6e])]))
    by reflexivity.
  exact (conj H1 (handleScreenshot_options calm screenshot_hero 0%nat H1 eq_refl)).
Defined.

(** A snapshot of a page that has none to give. *)
Lemma handleSnapshot_default_witness :
  executeCommand calm (CmdSnapshot (mkBare "a1")) 0%nat
  = (Returned (SuccessResponse "a1" (Obj [("snapshot", Str "Empty page")])), 2%nat,
     [Called (browser_getPage unit) (Returned tt);
      Called (locator_ariaSnapshot (mkLocator tt ":root")) (Returned None)])
  /\ exists (page : unit) (snapshot : option string),
      [Called (browser_getPage unit) (Returned tt);
       Called (locator_ariaSnapshot (mkLocator tt ":root")) (Returned None)]
      = [Called (browser_getPage unit) (Returned page);
         Called (locator_ariaSnapshot (mkLocator page ":root")) (Returned snapshot)]
      /\ (forall text, snapshot = Some text ->
            SuccessResponse "a1" (Obj [("snapshot", Str "Empty page")])
            = SuccessResponse (bare_id (mkBare "a1")) (Obj [("snapshot", Str text)]))
      /\ (snapshot = None ->
            SuccessResponse "a1" (Obj [("snapshot", Str "Empty page")])
            = SuccessResponse (bare_id (mkBare "a1")) (Obj [("snapshot", Str "Empty page")])).
Proof.
  assert (H1 : executeCommand calm (CmdSnapshot (mkBare "a1")) 0%nat
               = (Returned (SuccessResponse "a1" (Obj [("snapshot", Str "Empty page")])),
                  2%nat,
                  [Called (browser_getPage unit) (Returned tt);
                   Called (locator_ariaSnapshot (mkLocator tt ":root")) (Returned None)]))
    by reflexivity.
  exact (conj H1 (handleSnapshot_default calm (mkBare "a1") 0%nat H1 eq_refl)).
Defined.

(** The markup of one element. *)
Lemma handleContent_source_witness :
  executeCommand calm (CmdContent content_main) 0%nat
  = (Returned (SuccessResponse "h1" (Obj [("html", Str "")])), 2%nat,
     [Called (browser_getPage unit) (Returned tt);
      Called (locator_innerHTML (mkLocator tt "#main")) (Returned "")])
  /\ exists (page : unit) (html : string),
      SuccessResponse "h1" (Obj [("html", Str "")])
      = SuccessResponse (content_id content_main) (Obj [("html", Str html)])
      /\ (forall sel, content_selector content_main = Some sel -> sel <> "" ->
            [Called (browser_getPage unit) (Returned tt);
             Called (locator_innerHTML (mkLocator tt "#main")) (Returned "")]
            = [Called (browser_getPage unit) (Returned page);
               Called (locator_innerHTML (mkLocator page sel)) (Returned html)])
      /\ (content_selector content_main = None \/ content_selector content_main = Some "" ->
            [Called (browser_getPage unit) (Returned tt);
             Called (locator_innerHTML (mkLocator tt "#main")) (Returned "")]
            = [Called (browser_getPage unit) (Returned page);
               Called (page_content page) (Returned html)]).
Proof.
  assert (H1 : executeCommand calm (CmdContent content_main) 0%nat
               = (Returned (SuccessResponse "h1" (Obj [("html", Str "")])), 2%nat,
                  [Called (browser_getPage unit) (Returned tt);
                   Called (locator_innerHTML (mkLocator tt "#main")) (Returned "")]))
    by reflexivity.
  exact (conj H1 (handleContent_source calm content_main 0%nat H1 eq_refl)).
Defined.

(** A switch to the second tab. *)
Lemma handleTabSwitch_title_witness :
  executeCommand calm (CmdTabSwitch switch_to_second) 0%nat
  = (Returned
       (SuccessResponse "t2"
          (Obj [("index", Num (Finite 1)); ("url", Str "about:blank"); ("title", Str "")])),
     3%nat,
     [Called (browser_switchTo unit (Finite 1))
             (Returned [("index", Num (Finite 1)); ("url", Str "about:blank")]);
      Called (browser_getPage unit) (Returned tt);
      Called (page_title tt) (Returned "")])
  /\ exists (result data : list (string * value)) (page : unit) (title : string),
      [Called (browser_switchTo unit (Finite 1))
              (Returned [("index", Num (Finite 1)); ("url", Str "about:blank")]);
       Called (browser_getPage unit) (Returned tt);
       Called (page_title tt) (Returned "")]
      = [Called (browser_switchTo unit (tab_switch_index switch_to_second)) (Returned result);
         Called (browser_getPage unit) (Returned page);
         Called (page_title page) (Returned title)]
      /\ SuccessResponse "t2"
           (Obj [("index", Num (Finite 1)); ("url", Str "about:blank"); ("title", Str "")])
         = SuccessResponse (tab_switch_id switch_to_second) (Obj data)
      /\ get_prop "title" data = Some (Str title)
      /\ (forall k, k <> "title" -> get_prop k data = get_prop k result).
Proof.
  assert (H1 : executeCommand calm (CmdTabSwitch switch_to_second) 0%nat
               = (Returned
                    (SuccessResponse "t2"
                       (Obj [("index", Num (Finite 1)); ("url", Str "about:blank");
                             ("title", Str "")])),
                  3%nat,
                  [Called (browser_switchTo unit (Finite 1))
                          (Returned [("index", Num (Finite 1)); ("url", Str "about:blank")]);
                   Called (browser_getPage unit) (Returned tt);
                   Called (page_title tt) (Returned "")]))
    by reflexivity.
  exact (conj H1 (handleTabSwitch_title calm switch_to_second 0%nat H1 eq_refl)).
Defined.

(** The page scrolled up by the default amount; the [y] of the command
    gives way to the direction. *)
Lemma handleScroll_page_deltas_witness :
  (scroll_selector scroll_page_up = None \/ scroll_selector scroll_page_up = Some "")
  /\ executeCommand calm (CmdScroll scroll_page_up) 0%nat
     = (Returned (SuccessResponse "r2" (Obj [("scrolled", Bool true)])), 2%nat,
        [Called (browser_getPage unit) (Returned tt);
         Called (page_evaluate tt "window.scrollBy(0, -100)") (Returned Undefined)])
  /\ scroll_y scroll_page_up = Some (Finite 40)
  /\ exists (page : unit) (result : value),
      [Called (browser_getPage unit) (Returned tt);
       Called (page_evaluate tt "window.scrollBy(0, -100)") (Returned Undefined)]
      = [Called (browser_getPage unit) (Returned page);
         Called (page_evaluate page
                   ("window.scrollBy(" ++ Number_toString (Finite 0) ++ ", "
                    ++ Number_toString (neg (Finite 100)) ++ ")"))
                (Returned result)]
      /\ SuccessResponse "r2" (Obj [("scrolled", Bool true)])
         = SuccessResponse (scroll_id scroll_page_up) (Obj [("scrolled", Bool true)]).
Proof.
  assert (H1 : executeCommand calm (CmdScroll scroll_page_up) 0%nat
               = (Returned (SuccessResponse "r2" (Obj [("scrolled", Bool true)])), 2%nat,
                  [Called (browser_getPage unit) (Returned tt);
                   Called (page_evaluate tt "window.scrollBy(0, -100)")
                          (Returned Undefined)]))
    by (vm_compute; reflexivity).
  exact (conj (or_introl eq_refl) (conj H1 (conj eq_refl
           (handleScroll_page_deltas calm scroll_page_up 0%nat
              (or_introl eq_refl) H1 eq_refl)))).
Defined.

(** A list scrolled by 250 within itself. *)
Lemma handleScroll_element_explicit_witness :
  scroll_selector scroll_container_by = Some "#list"
  /\ "#list" <> ""
  /\ (scroll_x scroll_container_by <> None \/ scroll_y scroll_container_by <> None)
  /\ executeCommand calm (CmdScroll scroll_container_by) 0%nat
     = (Returned (SuccessResponse "r3" (Obj [("scrolled", Bool true)])), 3%nat,
        [Called (browser_getPage unit) (Returned tt);
         Called (locator_scrollIntoViewIfNeeded (mkLocator tt "#list")) (Returned tt);
         Called (locator_scrollBy (mkLocator tt "#list") (Finite 0) (Finite 250))
                (Returned tt)])
  /\ exists page : unit,
      [Called (browser_getPage unit) (Returned tt);
       Called (locator_scrollIntoViewIfNeeded (mkLocator tt "#list")) (Returned tt);
       Called (locator_scrollBy (mkLocator tt "#list") (Finite 0) (Finite 250))
              (Returned tt)]
      = [Called (browser_getPage unit) (Returned page);
         Called (locator_scrollIntoViewIfNeeded (mkLocator page "#list")) (Returned tt);
         Called (locator_scrollBy (mkLocator page "#list")
                   (nullish (scroll_x scroll_container_by) (Finite 0))
                   (nullish (scroll_y scroll_container_by) (Finite 0)))
                (Returned tt)]
      /\ SuccessResponse "r3" (Obj [("scrolled", Bool true)])
         = SuccessResponse (scroll_id scroll_container_by) (Obj [("scrolled", Bool true)]).
Proof.
  assert (Hne : "#list" <> "") by discriminate.
  assert (Hxy : scroll_x scroll_container_by <> None \/ scroll_y scroll_container_by <> None)
    by (right; discriminate).
  assert (H1 : executeCommand calm (CmdScroll scroll_container_by) 0%nat
               = (Returned (SuccessResponse "r3" (Obj [("scrolled", Bool true)])), 3%nat,
                  [Called (browser_getPage unit) (Returned tt);
                   Called (locator_scrollIntoViewIfNeeded (mkLocator tt "#list"))
                          (Returned tt);
                   Called (locator_scrollBy (mkLocator tt "#list") (Finite 0) (Finite 250))
                          (Returned tt)]))
    by reflexivity.
  exact (conj eq_refl (conj Hne (conj Hxy (conj H1
           (handleScroll_element_explicit calm scroll_container_by 0%nat
              eq_refl Hne Hxy H1 eq_refl))))).
Defined.

(** A session named between the command and its operand. *)
Lemma flag_value_dropped_witness :
  takes_value "--session" = true
  /\ takes_value "agent1" = false
  /\ (forall front p, ["click"] = (front ++ [p])%list -> takes_value p = false)
  /\ Cli.cleanArgs (["click"] ++ "--session" :: "agent1" :: ["#submit"; "--json"])%list
     = Cli.cleanArgs (["click"] ++ ["#submit"; "--json"])%list
  /\ Cli.cleanArgs (["click"] ++ ["#submit"; "--json"])%list
     = (Cli.cleanArgs ["click"] ++ Cli.cleanArgs ["#submit"; "--json"])%list.
Proof.
  assert (H3 : forall front p, ["click"] = (front ++ [p])%list -> takes_value p = false).
  { intros front p H. destruct front as [| a front].
    - inversion H; subst. reflexivity.
    - exfalso. inversion H as [[Ha Hrest]]. destruct front; discriminate Hrest. }
  exact (conj eq_refl (conj eq_refl (conj H3
           (@CliMore.flag_value_dropped ["click"] ["#submit"; "--json"]
              "--session" "agent1" eq_refl eq_refl H3)))).
Defined.

(** Right after another flag that takes a value the flag is itself the
    value: what follows is read otherwise than if the two were not there. *)
Example flag_after_flag_is_a_value :
  Cli.cleanArgs (["-s"] ++ "-s" :: "x" :: ["open"])%list = ["open"]
  /\ Cli.cleanArgs (["-s"] ++ ["open"])%list = [].
Proof. split; reflexivity. Qed.

(** The command word of a click given after a flag. *)
Lemma cleanArgs_no_flags_witness :
  In "click" (Cli.cleanArgs ["--json"; "click"; "#submit"])
  /\ Cli.startsWith "click" "-" = false
  /\ In "click" ["--json"; "click"; "#submit"].
Proof.
  assert (H1 : In "click" (Cli.cleanArgs ["--json"; "click"; "#submit"]))
    by (left; reflexivity).
  exact (conj H1 (CliMore.cleanArgs_no_flags ["--json"; "click"; "#submit"] "click" H1)).
Defined.

(** A key press aimed at an element with [-s]. *)
Lemma build_sends_known_action_witness :
  Cli.build ["press"; "Enter"; "-s"; "#q"] "k1"
  = Cli.Send (Obj [("id", Str "k1"); ("action", Str "press"); ("key", Str "Enter");
                   ("selector", Str "#q")])
  /\ exists (props : list (string * value)) (tag : string),
      Obj [("id", Str "k1"); ("action", Str "press"); ("key", Str "Enter");
           ("selector", Str "#q")] = Obj props
      /\ get_prop "id" props = Some (Str "k1")
      /\ get_prop "action" props = Some (Str tag)
      /\ In tag action_tags.
Proof.
  assert (H1 : Cli.build ["press"; "Enter"; "-s"; "#q"] "k1"
               = Cli.Send (Obj [("id", Str "k1"); ("action", Str "press");
                                ("key", Str "Enter"); ("selector", Str "#q")]))
    by reflexivity.
  exact (conj H1 (CliMore.build_sends_known_action ["press"; "Enter"; "-s"; "#q"] "k1" H1)).
Defined.

(** The same key press, checked against the schema. *)
Lemma cli_command_accepted_witness :
  Cli.build ["press"; "Enter"; "-s"; "#q"] "k1"
  = Cli.Send (Obj [("id", Str "k1"); ("action", Str "press"); ("key", Str "Enter");
                   ("selector", Str "#q")])
  /\ (forall tag, In tag ["wait"; "scroll"; "tab_switch"; "tab_close"] ->
        read_prop "action" [("id", Str "k1"); ("action", Str "press"); ("key", Str "Enter");
                            ("selector", Str "#q")] <> Str tag)
  /\ accepts commandSchema
       (Obj [("id", Str "k1"); ("action", Str "press"); ("key", Str "Enter");
             ("selector", Str "#q")]) = true
  /\ accepts commandSchema
       (jsonify (Obj [("id", Str "k1"); ("action", Str "press"); ("key", Str "Enter");
                      ("selector", Str "#q")])) = true.
Proof.
  assert (H1 : Cli.build ["press"; "Enter"; "-s"; "#q"] "k1"
               = Cli.Send (Obj [("id", Str "k1"); ("action", Str "press");
                                ("key", Str "Enter"); ("selector", Str "#q")]))
    by reflexivity.
  assert (H2 : forall tag, In tag ["wait"; "scroll"; "tab_switch"; "tab_close"] ->
                 read_prop "action" [("id", Str "k1"); ("action", Str "press");
                                     ("key", Str "Enter"); ("selector", Str "#q")]
                 <> Str tag).
  { intros tag Hin Heq. inversion Heq; subst. simpl in Hin.
    repeat destruct Hin as [Hin | Hin]; try discriminate Hin. exact Hin. }
  exact (conj H1 (conj H2
           (CliMore.cli_command_accepted ["press"; "Enter"; "-s"; "#q"] "k1" H1 H2))).
Defined.

(** Waiting for a text that starts with digits: 404 milliseconds, with
    [--text] as without. *)
Lemma wait_number_is_timeout_witness :
  Cli.includes "--help" ["wait"; "--text"; "404 Not Found"] = false
  /\ Cli.includes "-h" ["wait"; "--text"; "404 Not Found"] = false
  /\ Cli.cleanArgs ["wait"; "--text"; "404 Not Found"] = ["wait"; "404 Not Found"]
  /\ Cli.parseInt (Some "404 Not Found") = Finite 404
  /\ Cli.build ["wait"; "--text"; "404 Not Found"] "w1"
     = Cli.Send (Obj [("id", Str "w1"); ("action", Str "wait");
                      ("timeout", Num (Finite 404))])
  /\ accepts commandSchema
       (Obj [("id", Str "w1"); ("action", Str "wait"); ("timeout", Num (Finite 404))])
     = true
  /\ accepts commandSchema
       (jsonify (Obj [("id", Str "w1"); ("action", Str "wait");
                      ("timeout", Num (Finite 404))]))
     = true.
Proof.
  assert (Hne : "404 Not Found" <> "") by discriminate.
  assert (Hread : Cli.parseInt (Some "404 Not Found") = Finite 404) by reflexivity.
  destruct (proj1 (@CliMore.wait_number_is_timeout _
                     ["wait"; "--text"; "404 Not Found"] [] "w1" "404 Not Found"
                     (Finite 404) eq_refl eq_refl eq_refl Hne Hread) eq_refl)
    as [Hbuild [Hbuilt Harrives]].
  assert (Hpositive : exists q, Finite 404 = Finite q /\ (0 < q)%Q)
    by (exists 404%Q; split; reflexivity).
  exact (conj eq_refl (conj eq_refl (conj eq_refl (conj Hread (conj Hbuild
           (conj (proj2 Hbuilt eq_refl) (proj2 Harrives Hpositive))))))).
Defined.

(** A scroll down by zero: 300 is sent. *)
Lemma scroll_distance_not_zero_witness :
  Cli.build ["scroll"; "down"; "0"] "s1"
  = Cli.Send (Obj [("id", Str "s1"); ("action", Str "scroll"); ("direction", Str "down");
                   ("amount", Num (Finite 300)); ("selector", Undefined)])
  /\ Cli.parseInt (nth_error (Cli.cleanArgs ["scroll"; "down"; "0"]) 2) = Finite 0
  /\ truthy_number (Finite 300) = true
  /\ exists operand : option string,
      (("amount" = "amount"
        /\ operand = nth_error (Cli.cleanArgs ["scroll"; "down"; "0"]) 2)
       \/ ("amount" = "y"
           /\ operand = nth_error (Cli.cleanArgs ["scroll"; "down"; "0"]) 1))
      /\ (truthy_number (Cli.parseInt operand) = true -> Finite 300 = Cli.parseInt operand)
      /\ (truthy_number (Cli.parseInt operand) = false -> Finite 300 = Finite 300).
Proof.
  assert (H1 : Cli.build ["scroll"; "down"; "0"] "s1"
               = Cli.Send (Obj [("id", Str "s1"); ("action", Str "scroll");
                                ("direction", Str "down"); ("amount", Num (Finite 300));
                                ("selector", Undefined)]))
    by (vm_compute; reflexivity).
  exact (conj H1 (conj eq_refl
           (@CliMore.scroll_distance_not_zero _ ["scroll"; "down"; "0"] "s1" _ "amount"
              (Finite 300) H1 eq_refl eq_refl))).
Defined.

#[local] Existing Instance test_engine.

(** An error response printed in JSON mode: the exit code is 0. *)
Lemma exit_code_meaning_witness :
  Terminal.finish true "x1" [] (Returned (ErrorResponse "x1" "Browser not launched"))
  = ([Terminal.Log
        [Str (JSON_stringify (Response_toJS (ErrorResponse "x1" "Browser not launched")))]],
     Returned 0%nat)
  /\ (Returned 0%nat = Returned 0%nat \/ Returned 0%nat = Returned 1%nat
      \/ (Returned 0%nat = Threw (ThrownError cannot_convert)
          /\ exists v,
               Returned (ErrorResponse "x1" "Browser not launched")
               = Threw (ThrownValue v)
               /\ String_ v = None))
  /\ (true = true ->
        (Returned 0%nat = Returned 0%nat
         <-> exists r, Returned (ErrorResponse "x1" "Browser not launched") = Returned r))
  /\ (true = false ->
        (Returned 0%nat = Returned 0%nat ->
           exists rid data,
             Returned (ErrorResponse "x1" "Browser not launched")
             = Returned (SuccessResponse rid data))
        /\ (forall rid error,
              Returned (ErrorResponse "x1" "Browser not launched")
              = Returned (ErrorResponse rid error) -> Returned 0%nat = Returned 1%nat)).
Proof.
  assert (H1 : Terminal.finish true "x1" []
                 (Returned (ErrorResponse "x1" "Browser not launched"))
               = ([Terminal.Log
                     [Str (JSON_stringify
                             (Response_toJS (ErrorResponse "x1" "Browser not launched")))]],
                  Returned 0%nat)) by reflexivity.
  exact (conj H1 (@TerminalFacts.exit_code_meaning _ _ true "x1" [] _ _ _ H1)).
Defined.

(** Where [send] threw an object [String] cannot convert, the CLI writes
    nothing and leaves with no exit code of its own, in either mode. *)
Example unconvertible_rejection_is_not_reported :
  Terminal.finish true "x1" [] (Threw (ThrownValue unconvertible))
  = ([], Threw (ThrownError "Cannot convert object to primitive value"))
  /\ Terminal.finish false "x1" [] (Threw (ThrownValue unconvertible))
     = ([], Threw (ThrownError "Cannot convert object to primitive value")).
Proof. split; reflexivity. Qed.

(** A list of tabs whose second entry is null, printed for a person after
    a line of debug output: the first tab is written, then the type error is
    reported and the code is 1. *)
Lemma stderr_discipline_witness :
  Terminal.finish false "x1" [Terminal.Error [Str "[debug] connected"]]
    (Returned (SuccessResponse "x1" tabs_with_null))
  = ([Terminal.Error [Str "[debug] connected"];
      Terminal.Log
        [Str (Terminal.c Terminal.green Terminal.arrow ++ " "
              ++ Terminal.c Terminal.cyan "[0]" ++ " "
              ++ Terminal.c Terminal.dim "(untitled)")];
      Terminal.Log [Str (Terminal.c Terminal.dim "     about:blank")];
      Terminal.Error
        [Str (Terminal.c Terminal.red (Terminal.ballot_cross ++ " Error:"));
         Str "Cannot read properties of null (reading 'active')"]],
     Returned 1%nat)
  /\ exists own : list Terminal.Output,
      [Terminal.Error [Str "[debug] connected"];
       Terminal.Log
         [Str (Terminal.c Terminal.green Terminal.arrow ++ " "
               ++ Terminal.c Terminal.cyan "[0]" ++ " "
               ++ Terminal.c Terminal.dim "(untitled)")];
       Terminal.Log [Str (Terminal.c Terminal.dim "     about:blank")];
       Terminal.Error
         [Str (Terminal.c Terminal.red (Terminal.ballot_cross ++ " Error:"));
          Str "Cannot read properties of null (reading 'active')"]]
      = ([Terminal.Error [Str "[debug] connected"]] ++ own)%list
      /\ exists (before : list Terminal.Output) (message : string),
          own = (before
                 ++ [Terminal.Error
                       [Str (Terminal.c Terminal.red (Terminal.ballot_cross ++ " Error:"));
                        Str message]])%list
          /\ Forall (fun o => Terminal.is_error o = false) before.
Proof.
  assert (H1 : Terminal.finish false "x1" [Terminal.Error [Str "[debug] connected"]]
                 (Returned (SuccessResponse "x1" tabs_with_null))
               = ([Terminal.Error [Str "[debug] connected"];
                   Terminal.Log
                     [Str (Terminal.c Terminal.green Terminal.arrow ++ " "
                           ++ Terminal.c Terminal.cyan "[0]" ++ " "
                           ++ Terminal.c Terminal.dim "(untitled)")];
                   Terminal.Log [Str (Terminal.c Terminal.dim "     about:blank")];
                   Terminal.Error
                     [Str (Terminal.c Terminal.red (Terminal.ballot_cross ++ " Error:"));
                      Str "Cannot read properties of null (reading 'active')"]],
                  Returned 1%nat)) by (vm_compute; reflexivity).
  destruct (@TerminalFacts.stderr_discipline _ _ false "x1" _ _ _ _ H1)
    as [own [Hout [_ [_ [Hbanner _]]]]].
  split; [ exact H1 | ].
  exists own. split; [ exact Hout | exact (Hbanner eq_refl eq_refl) ].
Defined.

(** The navigation that could not reach the network: one fault, and no
    success. *)
Lemma success_iff_no_fault_witness :
  executeCommand offline (CmdNavigate navigate_plain) 0%nat
  = (Returned (ErrorResponse "n2" "net::ERR_INTERNET_DISCONNECTED"), 2%nat,
     [Called (browser_getPage unit) (Returned tt);
      Called (page_goto tt "https://example.com" wu_load)
             (Threw (ThrownError "net::ERR_INTERNET_DISCONNECTED"))])
  /\ (forall b, CmdNavigate navigate_plain <> CmdOther b)
  /\ (response_success (ErrorResponse "n2" "net::ERR_INTERNET_DISCONNECTED") = true
      <-> faults [Called (browser_getPage unit) (Returned tt);
                  Called (page_goto tt "https://example.com" wu_load)
                         (Threw (ThrownError "net::ERR_INTERNET_DISCONNECTED"))] = []).
Proof.
  assert (H1 : executeCommand offline (CmdNavigate navigate_plain) 0%nat
               = (Returned (ErrorResponse "n2" "net::ERR_INTERNET_DISCONNECTED"), 2%nat,
                  [Called (browser_getPage unit) (Returned tt);
                   Called (page_goto tt "https://example.com" wu_load)
                          (Threw (ThrownError "net::ERR_INTERNET_DISCONNECTED"))]))
    by reflexivity.
  assert (H2 : forall b, CmdNavigate navigate_plain <> CmdOther b)
    by (intros b; discriminate).
  exact (conj H1 (conj H2
           (@success_iff_no_fault _ _ _ offline (CmdNavigate navigate_plain) 0%nat _ _ _
              H1 H2))).
Defined.

(** The sessions of a directory with two pid files, one of them stale. *)
Example default_session_listed :
  @Sessions.listSessions _ two_pid_files = ["default"].
Proof. vm_compute. reflexivity. Qed.

(** A snapshot request with a property of its own between the identifier
    and the action. *)
Lemma undeclared_key_ignored_witness :
  JSON_parse (JSON_stringify
                (Obj ([("id", Str "s1")] ++ ("verbose", Bool true)
                      :: [("action", Str "snapshot")])%list))
  = Some (Obj ([("id", Str "s1")] ++ ("verbose", Bool true)
               :: [("action", Str "snapshot")])%list)
  /\ JSON_parse (JSON_stringify
                   (Obj ([("id", Str "s1")] ++ [("action", Str "snapshot")])%list))
     = Some (Obj ([("id", Str "s1")] ++ [("action", Str "snapshot")])%list)
  /\ read_prop "action" ([("id", Str "s1")] ++ [("action", Str "snapshot")])%list
     = Str "snapshot"
  /\ catalogue "snapshot" = Some [("id", z_string); ("action", z_literal "snapshot")]
  /\ ~ In "verbose" (map fst [("id", z_string); ("action", z_literal "snapshot")])
  /\ parseCommand (JSON_stringify
                     (Obj ([("id", Str "s1")] ++ ("verbose", Bool true)
                           :: [("action", Str "snapshot")])%list))
     = parseCommand (JSON_stringify
                       (Obj ([("id", Str "s1")] ++ [("action", Str "snapshot")])%list)).
Proof.
  assert (H1 : JSON_parse (JSON_stringify
                             (Obj ([("id", Str "s1")] ++ ("verbose", Bool true)
                                   :: [("action", Str "snapshot")])%list))
               = Some (Obj ([("id", Str "s1")] ++ ("verbose", Bool true)
                            :: [("action", Str "snapshot")])%list))
    by (vm_compute; reflexivity).
  assert (H2 : JSON_parse (JSON_stringify
                             (Obj ([("id", Str "s1")] ++ [("action", Str "snapshot")])%list))
               = Some (Obj ([("id", Str "s1")] ++ [("action", Str "snapshot")])%list))
    by (vm_compute; reflexivity).
  assert (H3 : read_prop "action" ([("id", Str "s1")] ++ [("action", Str "snapshot")])%list
               = Str "snapshot") by reflexivity.
  assert (H4 : catalogue "snapshot" = Some [("id", z_string); ("action", z_literal "snapshot")])
    by reflexivity.
  assert (H5 : ~ In "verbose" (map fst [("id", z_string); ("action", z_literal "snapshot")])).
  { simpl. intros [H | [H | []]]; discriminate H. }
  exact (conj H1 (conj H2 (conj H3 (conj H4 (conj H5
           (@undeclared_key_ignored _ _ _ _ _ _ _ _ _ H1 H2 H3 H4 H5)))))).
Defined.

(** The session command leaves with 0 and sends nothing. *)
Lemma early_exit_codes_witness :
  Cli.build ["session"; "list"] "x1" = Cli.Exit 0
  /\ (0%nat = 0%nat \/ 0%nat = 1%nat)
  /\ (0%nat = 0%nat ->
        ["session"; "list"] = []
        \/ Cli.includes "--help" ["session"; "list"] = true
        \/ Cli.includes "-h" ["session"; "list"] = true
        \/ nth_error (Cli.cleanArgs ["session"; "list"]) 0 = Some "session").
Proof.
  assert (H1 : Cli.build ["session"; "list"] "x1" = Cli.Exit 0) by reflexivity.
  exact (conj H1 (CliMore.early_exit_codes ["session"; "list"] "x1" H1)).
Defined.
